(** * Keithley 26xx memristor test protocols: sequence generation,
      execution loop, block extraction, delta computation, classification

    A shallow embedding of [stdp_tester.py], [sin_tester.py] and
    [srdp_tester.py].

    Conventions of the embedding.
    - Python [int] is [Z]; a list index or length is [nat].
    - Python [float] is an exact rational [Q]: rounding is not modelled.
      Where the source writes [np.nan] the value lives in [npfloat], which
      adds the single non-number [NaN] to [Q].  Equality of numbers is
      [Qeq] (written [==]).  The one place where a result hangs on the
      rounding itself, the sign of a slope fitted by [np.polyfit], takes
      the fit as a parameter.
    - [time.sleep] raises [ValueError] on a negative duration and
      [pd.DataFrame] on the empty array of a run without rows.
    - The instrument, the wall clock and [print] are explicit state:
      a command log, reply and clock oracles, and a list of printed lines.
    - A Python exception is the left injection of a sum. *)

From Stdlib Require Import String List ZArith QArith Qabs Bool Lia Lqa.
From Stdlib Require Import DecimalString.
Import ListNotations.
Open Scope Q_scope.

(** ** Python built-ins used by the three testers *)

Module Py.

(** Exceptions that the modelled code can raise.  [CommError] stands
    for whatever the instrument driver raises when a query fails; it
    carries the index of the failed query. *)
Inductive exn : Type :=
| ValueError (msg : string)
| ZeroDivisionError
| CommError (query_index : nat).

(** [l * n] on lists: [n] copies of [l], none when [n <= 0]. *)
Definition list_mul {A : Type} (l : list A) (n : Z) : list A :=
  concat (repeat l (Z.to_nat n)).

(** [int(x)] on a float: truncation toward zero. *)
Definition int (x : Q) : Z := Z.quot (Qnum x) (Zpos (Qden x)).

(** [range(0, stop, step)] for a length [stop]; a zero step raises. *)
Definition range_step (stop : nat) (step : Z) : exn + list nat :=
  if (step =? 0)%Z then inl (ValueError "range() arg 3 must not be zero")
  else if (step <? 0)%Z then inr []
  else
    let k := Z.to_nat step in
    inr (map (fun j => (j * k)%nat) (seq 0 ((stop + k - 1) / k))).

(** [range(a, b)] on integers. *)
Definition range (a b : Z) : list Z :=
  map (fun j => (a + Z.of_nat j)%Z) (seq 0 (Z.to_nat (b - a))).

(** [l[a:b]] for in-range non-negative bounds ([iloc] slices alike). *)
Definition slice {A : Type} (l : list A) (a b : nat) : list A :=
  firstn (b - a) (skipn a l).

(** [sum(l)] and the arithmetic mean of a non-empty column. *)
Fixpoint sum (l : list Q) : Q :=
  match l with
  | [] => 0
  | x :: l' => x + sum l'
  end.

Definition mean (l : list Q) : Q := sum l / inject_Z (Z.of_nat (length l)).

(** [np.isclose(a, b, atol=atol)] with numpy's default [rtol = 1e-05]:
    [|a - b| <= atol + rtol * |b|]. *)
Definition rtol : Q := 1 # 100000.

Definition isclose (a b atol : Q) : bool :=
  Qle_bool (Qabs (a - b)) (atol + rtol * Qabs b).

Definition Qltb (a b : Q) : bool := negb (Qle_bool b a).

(** [a / b] on Python floats: a zero divisor raises. *)
Definition truediv (a b : Q) : exn + Q :=
  if Qeq_bool b 0 then inl ZeroDivisionError else inr (a / b).

(** [str(n)] of an integer, as an f-string renders it. *)
Definition str (n : Z) : string := NilZero.string_of_int (Z.to_int n).

(** The error of [time.sleep] on a negative duration. *)
Definition sleep_length_error : exn :=
  ValueError "sleep length must be non-negative".

(** The error of [pd.DataFrame(data, columns=...)] on the 1-D empty
    array that [np.array([])] is, for [n] column names. *)
Definition shape_error (n : Z) : exn :=
  ValueError ("Shape of passed values is (0, 1), indices imply (0, "
              ++ str n ++ ")").

End Py.

(** ** stdp_tester.py *)

Module Stdp.

Import Py.

(** The attributes of [StdpTester] that the modelled methods read. *)
Record StdpTester : Type := {
  off_time : Q;
  nplc : Q;
  V_read : Q;
  read_num : Z;
  V_spike : Q;
  spike_num : Z;
  V_active : Q;
  active_num : Z;
  V_rest : Q;
  V_time : Q;
  V_stop : Q;
  stop_num : Z;
  time_num : list Q;
  pre_before_post : bool
}.

(** The values set by [__init__]. *)
Definition init : StdpTester := {|
  off_time := 1 # 10000;
  nplc := 1;
  V_read := 1 # 10;
  read_num := 5;
  V_spike := 1 # 2;
  spike_num := 5;
  V_active := 0;
  active_num := 1;
  V_rest := 0;
  V_time := 0;
  V_stop := 0;
  stop_num := 5;
  time_num := [0; 5; 20];
  pre_before_post := true
|}.

Definition set_block_sizes (self : StdpTester) (r s : Z) : StdpTester :=
  {| off_time := off_time self; nplc := nplc self;
     V_read := V_read self; read_num := r;
     V_spike := V_spike self; spike_num := s;
     V_active := V_active self; active_num := active_num self;
     V_rest := V_rest self; V_time := V_time self;
     V_stop := V_stop self; stop_num := stop_num self;
     time_num := time_num self; pre_before_post := pre_before_post self |}.

Definition set_pre_before_post (self : StdpTester) (b : bool) : StdpTester :=
  {| off_time := off_time self; nplc := nplc self;
     V_read := V_read self; read_num := read_num self;
     V_spike := V_spike self; spike_num := spike_num self;
     V_active := V_active self; active_num := active_num self;
     V_rest := V_rest self; V_time := V_time self;
     V_stop := V_stop self; stop_num := stop_num self;
     time_num := time_num self; pre_before_post := b |}.

(** [seq.extend(items)]. *)
Definition extend {A : Type} (seq items : list A) : list A := seq ++ items.

(** Body of the [for t_1 in self.time_num] loop of
    [generate_voltage_sequences], acting on [(pre_seq, post_seq)]. *)
Definition generate_step (self : StdpTester) (acc : list Q * list Q) (t_1 : Q)
  : list Q * list Q :=
  let '(pre_seq, post_seq) := acc in
  (* pre sequence *)
  let pre_seq := extend pre_seq (list_mul [V_read self] (read_num self)) in
  let pre_seq := extend pre_seq (list_mul [V_spike self] (spike_num self)) in
  let pre_seq := extend pre_seq
                   (list_mul [V_rest self] (active_num self + spike_num self)) in
  let pre_seq := extend pre_seq (list_mul [V_time self] (int t_1)) in
  let pre_seq := extend pre_seq (list_mul [V_active self] (active_num self)) in
  let pre_seq := extend pre_seq (list_mul [V_read self] (read_num self)) in
  let pre_seq := extend pre_seq (list_mul [V_stop self] (stop_num self)) in
  (* post sequence *)
  let post_seq := extend post_seq
                    (list_mul [V_rest self] (read_num self + spike_num self)) in
  let post_seq := extend post_seq (list_mul [V_active self] (active_num self)) in
  let post_seq := extend post_seq (list_mul [V_time self] (int t_1)) in
  let post_seq := extend post_seq (list_mul [V_spike self] (spike_num self)) in
  let post_seq := extend post_seq
                    (list_mul [V_rest self] (active_num self + read_num self)) in
  let post_seq := extend post_seq (list_mul [V_stop self] (stop_num self)) in
  (pre_seq, post_seq).

Definition generate_voltage_sequences (self : StdpTester) : list Q * list Q :=
  fold_left (generate_step self) (time_num self) ([], []).

(** *** The instrument as explicit state

    [self.keithley] and [time] are outside the repository.  A lab
    supplies what they answer: [reply n] is the float parsed from the
    [n]-th [smu.query] of the run, or [None] when that query fails
    (the driver raises); [now n] is the [n]-th reading of
    [time.time()].  The state records every command in order. *)

Inductive channel : Type := smua | smub.

Inductive event : Type :=
| reset_device
| default_setup
| set_source_function (f : string)
| set_level_i (x : Q)
| set_limit_i (x : Q)
| set_nplc (x : Q)
| set_output (on : bool)
| write_source_func (ch : channel)
| write_source_output (ch : channel) (on : bool)
| write_source_levelv (ch : channel) (v : Q)
| query_measure_i (ch : channel)
| sleep (seconds : Q).

Record lab : Type := {
  reply : nat -> option Q;
  now : nat -> Q
}.

Record smu_state : Type := {
  log : list event;
  queries : nat;
  ticks : nat
}.

Definition power_on : smu_state := {| log := []; queries := 0; ticks := 0 |}.

(** State and exception monad of a run. *)
Definition M (A : Type) : Type := smu_state -> (exn + A) * smu_state.

Definition ret {A : Type} (a : A) : M A := fun st => (inr a, st).

Definition bind {A B : Type} (c : M A) (k : A -> M B) : M B :=
  fun st =>
    match c st with
    | (inl e, st') => (inl e, st')
    | (inr a, st') => k a st'
    end.

Notation "x <- c ;; k" := (bind c (fun x => k))
  (at level 61, c at next level, right associativity).
Notation "c ;; k" := (bind c (fun _ => k))
  (at level 61, right associativity).

Definition emit (e : event) : M unit :=
  fun st => (inr tt, {| log := log st ++ [e];
                        queries := queries st; ticks := ticks st |}).

(** [float(smu.query("print(smuX.measure.i())").strip())]. *)
Definition query (env : lab) (ch : channel) : M Q :=
  fun st =>
    let st' := {| log := log st ++ [query_measure_i ch];
                  queries := S (queries st); ticks := ticks st |} in
    match reply env (queries st) with
    | Some x => (inr x, st')
    | None => (inl (CommError (queries st)), st')
    end.

(** [time.time()]. *)
Definition time_time (env : lab) : M Q :=
  fun st => (inr (now env (ticks st)),
             {| log := log st; queries := queries st; ticks := S (ticks st) |}).

(** [time.sleep(seconds)]: a negative duration raises [ValueError] and
    nothing is slept. *)
Definition time_sleep (seconds : Q) : M unit :=
  fun st =>
    if Qle_bool 0 seconds then emit (sleep seconds) st
    else (inl sleep_length_error, st).

(** One row of [data]: [[t_now, vA, vB, iA, iB]]. *)
Record row : Type := {
  r_time : Q;
  r_vA : Q;
  r_vB : Q;
  r_iA : Q;
  r_iB : Q
}.

Definition _reset_and_setup_keithley (self : StdpTester) : M unit :=
  emit reset_device ;;
  emit default_setup ;;
  emit (set_source_function "voltage") ;;
  emit (set_level_i 0) ;;
  emit (set_limit_i (1 # 10000000)) ;;
  emit (set_nplc (nplc self)) ;;
  emit (set_output true).

(** The [for i in range(length)] loop of [run_stdp_test]; [data] is the
    list the loop appends to. *)
Fixpoint measure_loop (env : lab) (self : StdpTester)
    (chanA_seq chanB_seq : list Q) (start : Q)
    (indices : list nat) (data : list row) : M (list row) :=
  match indices with
  | [] => ret data
  | i :: indices' =>
      let vA := nth i chanA_seq 0 in
      let vB := nth i chanB_seq 0 in
      emit (write_source_levelv smua vA) ;;
      emit (write_source_levelv smub vB) ;;
      time_sleep (off_time self) ;;
      iA <- query env smua ;;
      iB <- query env smub ;;
      t <- time_time env ;;
      let t_now := t - start in
      measure_loop env self chanA_seq chanB_seq start indices'
        (data ++ [{| r_time := t_now; r_vA := vA; r_vB := vB;
                     r_iA := iA; r_iB := iB |}])
  end.

(** [if data: t0 = data[0][0]; for row in data: row[0] -= t0]. *)
Definition rebase (data : list row) : list row :=
  match data with
  | [] => []
  | first :: _ =>
      let t0 := r_time first in
      map (fun r => {| r_time := r_time r - t0; r_vA := r_vA r; r_vB := r_vB r;
                       r_iA := r_iA r; r_iB := r_iB r |}) data
  end.

Definition run_stdp_test (env : lab) (self : StdpTester)
    (pre_sequence post_sequence : list Q) : M (list row) :=
  _reset_and_setup_keithley self ;;
  emit (write_source_func smua) ;;
  emit (write_source_func smub) ;;
  emit (write_source_output smua true) ;;
  emit (write_source_output smub true) ;;
  let '(chanA_seq, chanB_seq) :=
    if pre_before_post self then (pre_sequence, post_sequence)
    else (post_sequence, pre_sequence) in
  start <- time_time env ;;
  let length := Nat.min (length chanA_seq) (length chanB_seq) in
  data <- measure_loop env self chanA_seq chanB_seq start (seq 0 length) [] ;;
  emit (write_source_output smua false) ;;
  emit (write_source_output smub false) ;;
  ret (rebase data).

(** The source-level commands found in a log, in order. *)
Definition levelv_writes (l : list event) : list (channel * Q) :=
  flat_map (fun e => match e with
                     | write_source_levelv ch v => [(ch, v)]
                     | _ => []
                     end) l.

(** Whether a log switches an output off. *)
Definition switches_off (l : list event) : bool :=
  existsb (fun e => match e with
                    | write_source_output _ false => true
                    | _ => false
                    end) l.

(** *** Block extraction and delta computation *)

(** A float that may be [np.nan]. *)
Inductive npfloat : Type :=
| Num (q : Q)
| NaN.

(** Columns of the data frame built from [data]. *)
Inductive column : Type :=
| Time_s
| Channel_A_Voltage
| Channel_B_Voltage
| Channel_A_Current
| Channel_B_Current.

Definition col (c : column) (r : row) : Q :=
  match c with
  | Time_s => r_time r
  | Channel_A_Voltage => r_vA r
  | Channel_B_Voltage => r_vB r
  | Channel_A_Current => r_iA r
  | Channel_B_Current => r_iB r
  end.

Definition preV_col (self : StdpTester) : column :=
  if pre_before_post self then Channel_A_Voltage else Channel_B_Voltage.
Definition preI_col (self : StdpTester) : column :=
  if pre_before_post self then Channel_A_Current else Channel_B_Current.
Definition postV_col (self : StdpTester) : column :=
  if pre_before_post self then Channel_B_Voltage else Channel_A_Voltage.
Definition postI_col (self : StdpTester) : column :=
  if pre_before_post self then Channel_B_Current else Channel_A_Current.

(** [df[np.isclose(df[c], target, atol=0.01)]] with the index reset. *)
Definition masked (c : column) (target : Q) (df : list row) : list row :=
  filter (fun r => isclose (col c r) target (1 # 100)) df.

(** The grouping loop shared by read pulses and both spike classes:
    [for idx in range(0, len(d), num): block = d.iloc[idx:idx+num];
     if len(block) == num: groups.append(block)]. *)
Definition groups (d : list row) (num : Z) : exn + list (list row) :=
  match range_step (length d) num with
  | inl e => inl e
  | inr idxs =>
      inr (filter (fun block => (Z.of_nat (length block) =? num)%Z)
             (map (fun idx => slice d idx (Z.to_nat (Z.of_nat idx + num))) idxs))
  end.

Definition read_groups (self : StdpTester) (df : list row) : exn + list (list row) :=
  groups (masked (preV_col self) (V_read self) df) (read_num self).

Definition currents_of (self : StdpTester) (blocks : list (list row)) : list Q :=
  map (fun block => mean (map (col (preI_col self)) block)) blocks.

(** [block["Time(s)"].iloc[0]] of every complete block. *)
Definition times_of (blocks : list (list row)) : list Q :=
  map (fun block => nth 0 (map (col Time_s) block) 0) blocks.

Definition spike_pre_groups (self : StdpTester) (df : list row) :=
  groups (masked (preV_col self) (V_spike self) df) (spike_num self).

Definition spike_post_groups (self : StdpTester) (df : list row) :=
  groups (masked (postV_col self) (V_spike self) df) (spike_num self).

Definition tiny : Q := 1 # 100000000000000000000.

(** [delta_g] from consecutive read groups. *)
Definition delta_g_list (read_currents : list Q) : list npfloat :=
  map (fun i =>
         let i1 := nth i read_currents 0 in
         let i2 := nth (i + 1) read_currents 0 in
         if Qltb (Qabs i1) tiny then NaN else Num ((i2 - i1) / i1))
      (seq 0 (length read_currents - 1)).

(** [delta_t] from spike times. *)
Definition delta_t_list (self : StdpTester)
    (spike_pre_times spike_post_times : list Q) : list Q :=
  let n_spike_pairs := Nat.min (length spike_pre_times) (length spike_post_times) in
  map (fun i =>
         let dt := nth i spike_post_times 0 - nth i spike_pre_times 0 in
         if negb (pre_before_post self) then - dt else dt)
      (seq 0 n_spike_pairs).

Definition no_pairs_warning : string :=
  "[Warning] no valid read/spike pairs found.".

(** What a call leaves behind: the lines printed and the returned
    pair [(delta_t, delta_g)]. *)
Record outcome : Type := {
  printed : list string;
  delta_t : list Q;
  delta_g : list npfloat
}.

(** Lines 223-227: truncation to the common length. *)
Definition pair_up (dt : list Q) (dg : list npfloat) : outcome :=
  let n_min := Nat.min (length dg) (length dt) in
  if (n_min =? 0)%nat
  then {| printed := [no_pairs_warning]; delta_t := []; delta_g := [] |}
  else {| printed := []; delta_t := firstn n_min dt; delta_g := firstn n_min dg |}.

(** [pd.DataFrame(data, columns=[...])] with five column names.
    [data] is what [run_stdp_test] returns, [np.array(data)]: an array
    of shape (n, 5) when there are rows, and the 1-D empty array when
    there are none, for which the constructor raises [ValueError]. *)
Definition DataFrame (data : list row) : exn + list row :=
  match data with
  | [] => inl (shape_error 5)
  | _ :: _ => inr data
  end.

Definition process_measurement_data (self : StdpTester) (data : list row)
  : exn + outcome :=
  match DataFrame data with
  | inl e => inl e
  | inr df =>
  match read_groups self df with
  | inl e => inl e
  | inr rgroups =>
      let read_currents := currents_of self rgroups in
      match spike_pre_groups self df with
      | inl e => inl e
      | inr pre_blocks =>
          let spike_pre_times := times_of pre_blocks in
          match spike_post_groups self df with
          | inl e => inl e
          | inr post_blocks =>
              let spike_post_times := times_of post_blocks in
              inr (pair_up (delta_t_list self spike_pre_times spike_post_times)
                           (delta_g_list read_currents))
          end
      end
  end
  end.

(** The same samples with the two physical channels exchanged. *)
Definition swap_channels (r : row) : row :=
  {| r_time := r_time r; r_vA := r_vB r; r_vB := r_vA r;
     r_iA := r_iB r; r_iB := r_iA r |}.

(** The extractor in the words of the specification, for comparison
    with [groups]: scan in order and collect a run of samples that
    satisfy [matches]; when the run reaches [block_size] samples emit
    it and reset; when a sample does not match, drop the run. *)
Fixpoint spec_windowed_extractor (matches : row -> bool) (block_size : nat)
    (stream run : list row) : list (list row) :=
  match stream with
  | [] => []
  | r :: stream' =>
      if matches r then
        let run' := run ++ [r] in
        if (length run' =? block_size)%nat
        then run' :: spec_windowed_extractor matches block_size stream' []
        else spec_windowed_extractor matches block_size stream' run'
      else spec_windowed_extractor matches block_size stream' []
  end.

(** The table [save_delta_csv] writes: the header, then one row per
    element of [zip(dt, dg)].  The choice of a free file name is
    left out. *)
Definition save_delta_csv (dt : list Q) (dg : list npfloat)
  : (string * string) * list (Q * npfloat) :=
  (("Delta_t", "Delta_g")%string, combine dt dg).

(** *** The file name of the delta table

    [os.path.exists] is a predicate on paths and [os.path.join] a
    function the platform supplies.  The [while] loop runs as long as
    the candidate exists; [fuel] bounds the number of candidates tried,
    and [None] stands for a loop that has not ended within it. *)
Fixpoint free_csv_path (path_exists : string -> bool)
    (join : string -> string -> string) (folder base_prefix : string)
    (csv_path : string) (idx : Z) (fuel : nat) : option string :=
  match fuel with
  | O => None
  | S fuel' =>
      if path_exists csv_path then
        let csv_filename := (base_prefix ++ "_" ++ str idx ++ ".csv")%string in
        let csv_path := join folder csv_filename in
        free_csv_path path_exists join folder base_prefix csv_path (idx + 1) fuel'
      else Some csv_path
  end.

(** The path [save_delta_csv] opens for writing. *)
Definition delta_csv_path (path_exists : string -> bool)
    (join : string -> string -> string) (folder prefix : string) (fuel : nat)
  : option string :=
  let csv_filename := (prefix ++ "_delta.csv")%string in
  let csv_path := join folder csv_filename in
  let base_prefix := (prefix ++ "_delta")%string in
  free_csv_path path_exists join folder base_prefix csv_path 1 fuel.

(** The [n]-th name the loop tries: [prefix_delta.csv], then
    [prefix_delta_1.csv], [prefix_delta_2.csv], ... *)
Definition csv_candidate (join : string -> string -> string)
    (folder prefix : string) (n : nat) : string :=
  match n with
  | O => join folder (prefix ++ "_delta.csv")%string
  | S _ => join folder ((prefix ++ "_delta") ++ "_" ++ str (Z.of_nat n) ++ ".csv")%string
  end.

(** The paths that exist once [save_delta_csv] has written to [path]. *)
Definition after_write (path_exists : string -> bool) (path : string)
  : string -> bool :=
  fun p => String.eqb p path || path_exists p.

(** *** Interactive set-up

    What the operator types at a prompt, after [strip()] and the
    conversion the code applies to it: nothing, a text that [float] or
    [int] accepts, or one on which they raise [ValueError]. *)
Inductive entry (A : Type) : Type :=
| blank
| typed (a : A)
| garbage.

Arguments blank {A}.
Arguments typed {A} a.
Arguments garbage {A}.

(** The answers to the prompts of [setup_test_parameters], in the order
    they are asked; [modify] is whether the first answer is [y]. *)
Record answers : Type := {
  modify : bool;
  in_off_time : entry Q;
  in_nplc : entry Q;
  in_V_read : entry Q;
  in_V_spike : entry Q;
  in_V_active : entry Q;
  in_active_num : entry Z;
  in_time_num : entry (list Q)
}.

(** [conv(input(...).strip() or default)]. *)
Definition read_entry {A : Type} (e : entry A) (default : A) : exn + A :=
  match e with
  | blank => inr default
  | typed a => inr a
  | garbage => inl (ValueError "invalid literal")
  end.

Definition set_prompted (self : StdpTester) (off nplc' vread vspike vactive : Q)
    (active : Z) (times : list Q) : StdpTester :=
  {| off_time := off; nplc := nplc';
     V_read := vread; read_num := read_num self;
     V_spike := vspike; spike_num := spike_num self;
     V_active := vactive; active_num := active;
     V_rest := V_rest self; V_time := V_time self;
     V_stop := V_stop self; stop_num := stop_num self;
     time_num := times; pre_before_post := pre_before_post self |}.

Definition invalid_input_warning : string := "[Warning] invalid input".

(** [setup_test_parameters], from the first prompt on: the tester it
    leaves and the warning it prints.  The assignments inside [try] take
    effect one by one; a [ValueError] ends them. *)
Definition setup_test_parameters (self : StdpTester) (ans : answers)
  : StdpTester * list string :=
  if modify ans then
    match read_entry (in_off_time ans) (off_time self) with
    | inl _ => (self, [invalid_input_warning])
    | inr off =>
    let self := set_prompted self off (nplc self) (V_read self) (V_spike self)
                  (V_active self) (active_num self) (time_num self) in
    match read_entry (in_nplc ans) (nplc self) with
    | inl _ => (self, [invalid_input_warning])
    | inr n =>
    let self := set_prompted self (off_time self) n (V_read self) (V_spike self)
                  (V_active self) (active_num self) (time_num self) in
    match read_entry (in_V_read ans) (V_read self) with
    | inl _ => (self, [invalid_input_warning])
    | inr vr =>
    let self := set_prompted self (off_time self) (nplc self) vr (V_spike self)
                  (V_active self) (active_num self) (time_num self) in
    match read_entry (in_V_spike ans) (V_spike self) with
    | inl _ => (self, [invalid_input_warning])
    | inr vs =>
    let self := set_prompted self (off_time self) (nplc self) (V_read self) vs
                  (V_active self) (active_num self) (time_num self) in
    match read_entry (in_V_active ans) (V_active self) with
    | inl _ => (self, [invalid_input_warning])
    | inr va =>
    let self := set_prompted self (off_time self) (nplc self) (V_read self)
                  (V_spike self) va (active_num self) (time_num self) in
    match read_entry (in_active_num ans) (active_num self) with
    | inl _ => (self, [invalid_input_warning])
    | inr an =>
    let self := set_prompted self (off_time self) (nplc self) (V_read self)
                  (V_spike self) (V_active self) an (time_num self) in
    match read_entry (in_time_num ans) (time_num self) with
    | inl _ => (self, [invalid_input_warning])
    | inr arr =>
    (set_prompted self (off_time self) (nplc self) (V_read self)
       (V_spike self) (V_active self) (active_num self) arr, [])
    end end end end end end end
  else (self, []).

(** Whether an entry makes its conversion raise, and the value a field
    has after an entry that does not. *)
Definition is_garbage {A : Type} (e : entry A) : bool :=
  match e with
  | garbage => true
  | _ => false
  end.

Definition entered {A : Type} (e : entry A) (default : A) : A :=
  match e with
  | typed a => a
  | _ => default
  end.

(** *** Where the iterations of a generated run lie

    [steps_of self t] is the number of steps one turn of the generator
    loop appends for the timing value [t]; [iteration_start self m] is
    the index of the first step of iteration [m] in the generated
    sequences. *)
Definition steps_of (self : StdpTester) (t : Q) : nat :=
  length (fst (generate_step self ([], []) t)).

Definition iteration_start (self : StdpTester) (m : nat) : nat :=
  list_sum (map (steps_of self) (firstn m (time_num self))).

(** Whether the masks of [process_measurement_data] tell the levels of
    the generator apart: no other level is within [np.isclose]'s
    tolerance of [V_read], and none of [V_spike]. *)
Definition levels_distinct (self : StdpTester) : bool :=
  forallb (fun v => negb (isclose v (V_read self) (1 # 100)))
    [V_spike self; V_rest self; V_time self; V_active self; V_stop self]
  && forallb (fun v => negb (isclose v (V_spike self) (1 # 100)))
       [V_read self; V_rest self; V_time self; V_active self; V_stop self].

End Stdp.

(** ** The single-channel driver, as the sine and SRDP testers use it

    [self.keithley], [time] and [print] are outside the repository.  A
    bench supplies what they answer: [measured n] is the pair
    [(current, voltage)] that the [n]-th [measure_iv()] returns, or
    [None] when that call fails (the driver raises); [now n] is the
    [n]-th reading of [time.time()]. *)

Module Keithley.

Import Py.

(** The two progress lines the SRDP tester prints inside its loops. *)
Inductive message : Type :=
| using_space (space_val : Q) (pulses : Z)
| ltm_space (space_val : Q) (pulses : Z).

Inductive event : Type :=
| reset_device
| default_setup
| set_source_function (f : string)
| set_level_i (x : Q)
| set_limit_i (x : Q)
| set_nplc (x : Q)
| set_output (on : bool)
| set_level_v (v : Q)
| smu_write (command : string)
| measure_iv
| sleep (seconds : Q)
| print (m : message).

Record bench : Type := {
  measured : nat -> option (Q * Q);
  now : nat -> Q
}.

Record state : Type := {
  log : list event;
  measures : nat;
  ticks : nat
}.

Definition power_on : state := {| log := []; measures := 0; ticks := 0 |}.

(** State and exception monad of a run. *)
Definition K (A : Type) : Type := state -> (exn + A) * state.

Definition ret {A : Type} (a : A) : K A := fun st => (inr a, st).

Definition bind {A B : Type} (c : K A) (k : A -> K B) : K B :=
  fun st =>
    match c st with
    | (inl e, st') => (inl e, st')
    | (inr a, st') => k a st'
    end.

Notation "x <- c ;; k" := (bind c (fun x => k))
  (at level 61, c at next level, right associativity).
Notation "c ;; k" := (bind c (fun _ => k))
  (at level 61, right associativity).

Definition emit (e : event) : K unit :=
  fun st => (inr tt, {| log := log st ++ [e];
                        measures := measures st; ticks := ticks st |}).

(** [self.keithley.measure_iv()]: returns [(i, v)]. *)
Definition do_measure_iv (env : bench) : K (Q * Q) :=
  fun st =>
    let st' := {| log := log st ++ [measure_iv];
                  measures := S (measures st); ticks := ticks st |} in
    match measured env (measures st) with
    | Some iv => (inr iv, st')
    | None => (inl (CommError (measures st)), st')
    end.

(** [time.time()]. *)
Definition time_time (env : bench) : K Q :=
  fun st => (inr (now env (ticks st)),
             {| log := log st; measures := measures st; ticks := S (ticks st) |}).

(** [time.sleep(seconds)]: a negative duration raises [ValueError] and
    nothing is slept. *)
Definition time_sleep (seconds : Q) : K unit :=
  fun st =>
    if Qle_bool 0 seconds then emit (sleep seconds) st
    else (inl sleep_length_error, st).

(** The value last assigned to [keithley.output], if any. *)
Definition output_state (l : list event) : option bool :=
  fold_left (fun acc e => match e with
                          | set_output on => Some on
                          | _ => acc
                          end) l None.

(** The seconds spent in [time.sleep] according to a log. *)
Definition total_sleep (l : list event) : Q :=
  sum (flat_map (fun e => match e with
                          | sleep d => [d]
                          | _ => []
                          end) l).

End Keithley.

(** ** sin_tester.py *)

Module Sin.

Import Py.

Section Numpy.

(** [np.sin] and [np.pi], which numpy supplies. *)
Variable np_sin : Q -> Q.
Variable np_pi : Q.

Definition generate_custom_sine_points
    (amplitude : Q) (points_per_half cycles : Z) : list Q :=
  let part1 :=
    map (fun i => np_sin (inject_Z i * np_pi / inject_Z points_per_half))
        (range 0 points_per_half) in
  let part2 :=
    map (fun i => np_sin (inject_Z i * np_pi / inject_Z points_per_half))
        (range points_per_half (2 * points_per_half)) in
  let seq_pos := list_mul part1 cycles in
  let seq_neg := list_mul part2 cycles in
  let full_seq := seq_pos ++ seq_neg ++ [0] in
  map (fun v => amplitude * v) full_seq.

End Numpy.

(** The line that [np.polyfit(x, y, 1)] approximates: the slope and
    intercept of the ordinary least-squares line through the points
    [(x_i, y_i)], from the normal equations in exact arithmetic.  It is
    a reference for statements about accuracy; the program never
    computes it. *)
Definition least_squares (x y : list Q) : Q * Q :=
  let n := inject_Z (Z.of_nat (length x)) in
  let sx := sum x in
  let sy := sum y in
  let sxx := sum (map (fun a => a * a) x) in
  let sxy := sum (map (fun p => fst p * snd p) (combine x y)) in
  let slope := (n * sxy - sx * sy) / (n * sxx - sx * sx) in
  let intercept := (sy - slope * sx) / n in
  (slope, intercept).

(** Sum of squared residuals of the line [a * x + b] on the points
    [(x_i, y_i)]: the quantity a least-squares fit minimises. *)
Definition residual_ss (x y : list Q) (a b : Q) : Q :=
  sum (map (fun p => (snd p - (a * fst p + b)) * (snd p - (a * fst p + b)))
           (combine x y)).

(** [sklearn.metrics.r2_score(y, y_pred)] in exact arithmetic, with
    sklearn's values for a constant [y]. *)
Definition r2_score (y y_pred : list Q) : Q :=
  let ss_res := sum (map (fun p => (fst p - snd p) * (fst p - snd p))
                         (combine y y_pred)) in
  let m := mean y in
  let ss_tot := sum (map (fun v => (v - m) * (v - m)) y) in
  if Qeq_bool ss_tot 0
  then (if Qeq_bool ss_res 0 then 1 else 0)
  else 1 - ss_res / ss_tot.

Section Polyfit.

(** [np.polyfit(x, y, 1)], which numpy computes in floating point: the
    slope and the intercept it returns.  On a flat segment the value is
    not 0 but a number of the size of the rounding error, so nothing is
    fixed about it here. *)
Variable np_polyfit : list Q -> list Q -> Q * Q.

Definition fit_linear (x : list Z) (y : list Q) : Q * Q * Q :=
  if (length x <? 2)%nat then (0, 0, 0)
  else
    let xf := map inject_Z x in
    let '(slope, intercept) := np_polyfit xf y in
    let y_pred := map (fun a => slope * a + intercept) xf in
    let r2 := r2_score y y_pred in
    (slope, intercept, r2).

Definition determine_m_type (currents : list Q) : string :=
  let half := (length currents / 2)%nat in
  let x1 := range 1 (Z.of_nat half + 1) in
  let x2 := range 1 (Z.of_nat (length currents) - Z.of_nat half + 1) in
  let y1 := firstn half currents in
  let y2 := skipn half currents in
  let '(k1, _, _) := fit_linear x1 y1 in
  let '(k2, _, _) := fit_linear x2 y2 in
  if Qltb k1 0 && Qltb 0 k2 then "M1"
  else if Qltb k1 0 && Qltb k2 0 then "M2"
  else if Qltb 0 k1 && Qltb k2 0 then "M3"
  else if Qltb 0 k1 && Qltb 0 k2 then "M4"
  else "M0".

End Polyfit.

(** One row of the sine run's [data]: [[t_now, v_meas, i]]. *)
Record sample : Type := {
  s_time : Q;
  s_voltage : Q;
  s_current : Q
}.

(** [[row[2] for row in data if abs(row[1] - v_target) < tol]]. *)
Definition extract_peak_currents (data : list sample) (v_target tol : Q) : list Q :=
  map s_current
      (filter (fun row => Qltb (Qabs (s_voltage row - v_target)) tol) data).

Import Keithley.

Record SinTester : Type := {
  off_time_list : list Q;
  pulse_width_list : list Q;
  points_per_half_list : list Z;
  nplc : Q;
  r2_pos : Q;
  r2_neg : Q
}.

Definition init : SinTester := {|
  off_time_list := [1 # 100; 2 # 10];
  pulse_width_list := [1 # 10];
  points_per_half_list := [6%Z];
  nplc := 1;
  r2_pos := 0;
  r2_neg := 0
|}.

(** The [for v in voltage_points] loop of [run_sine_test]; [data] is the
    list the loop appends to. *)
Fixpoint sine_loop (env : bench) (voltage_points : list Q) (pw off_time : Q)
    (data : list sample) : K (list sample) :=
  match voltage_points with
  | [] => ret data
  | v :: voltage_points' =>
      emit (set_level_v v) ;;
      time_sleep pw ;;
      iv <- do_measure_iv env ;;
      t_now <- time_time env ;;
      let data := data ++ [{| s_time := t_now; s_voltage := snd iv;
                              s_current := fst iv |}] in
      time_sleep off_time ;;
      sine_loop env voltage_points' pw off_time data
  end.

(** [if data: t0 = data[0][0]; for row in data: row[0] -= t0]. *)
Definition rebase (data : list sample) : list sample :=
  match data with
  | [] => []
  | first :: _ =>
      let t0 := s_time first in
      map (fun r => {| s_time := s_time r - t0; s_voltage := s_voltage r;
                       s_current := s_current r |}) data
  end.

Definition run_sine_test (env : bench) (self : SinTester)
    (voltage_points : list Q) (pw off_time : Q) : K (list sample) :=
  emit reset_device ;;
  emit default_setup ;;
  emit (set_source_function "voltage") ;;
  emit (set_level_i 0) ;;
  emit (set_limit_i (1 # 10000000)) ;;
  emit (set_nplc (nplc self)) ;;
  emit (set_output true) ;;
  (* optionally fix range *)
  emit (smu_write "smua.measure.rangei = 1e-7") ;;
  emit (smu_write "smua.measure.autorangei = smua.AUTORANGE_OFF") ;;
  data <- sine_loop env voltage_points pw off_time [] ;;
  emit (set_output false) ;;
  ret (rebase data).

End Sin.

(** ** srdp_tester.py *)

Module Srdp.

Import Py.

Record SrdpTester : Type := {
  off_time : Q;
  nplc : Q;
  pulse_width : Q;
  pulse_num : Z;
  V_read : Q;
  V_write : Q
}.

Definition init : SrdpTester := {|
  off_time := 1 # 10000;
  nplc := 1;
  pulse_width := 2 # 10;
  pulse_num := 10;
  V_read := 1 # 10;
  V_write := 1
|}.

(** One row of [data]: [[t, v_meas, i_meas, label]].  The array is built
    with [dtype=object], so its cells are Python floats and a column
    divided by a scalar divides cell by cell with Python's [/]. *)
Record row : Type := {
  Time : Q;
  Voltage : Q;
  Current : Q;
  Label : string
}.

(** [column / d], cell by cell; the first zero division raises. *)
Fixpoint column_truediv (cells : list Q) (d : Q) : exn + list Q :=
  match cells with
  | [] => inr []
  | c :: cells' =>
      match truediv c d with
      | inl e => inl e
      | inr g =>
          match column_truediv cells' d with
          | inl e => inl e
          | inr gs => inr (g :: gs)
          end
      end
  end.

Definition read_mask (self : SrdpTester) (r : row) : bool :=
  isclose (Voltage r) (V_read self) (1 # 100).

(** [pd.DataFrame(data, columns=[...])] with four column names.
    [data] is what [run_srdp_test] or [run_ltm_test] returns,
    [np.array(data, dtype=object)]: an array of shape (n, 4) when there
    are rows, and the 1-D empty array when there are none, for which
    the constructor raises [ValueError]. *)
Definition DataFrame (data : list row) : exn + list row :=
  match data with
  | [] => inl (shape_error 4)
  | _ :: _ => inr data
  end.

(** Returns [(time_values, voltage_values, current_values,
    conductance_values)]. *)
Definition process_measurement_data (self : SrdpTester) (data : list row)
  : exn + (list Q * list Q * list Q * list Q) :=
  match DataFrame data with
  | inl e => inl e
  | inr df =>
      let read_data := filter (read_mask self) df in
      match column_truediv (map Current read_data) (V_read self) with
      | inl e => inl e
      | inr conductance =>
          inr (map Time read_data, map Voltage read_data,
               map Current read_data, conductance)
      end
  end.

Import Keithley.

Definition _reset_and_setup_keithley (self : SrdpTester) : K unit :=
  emit reset_device ;;
  emit default_setup ;;
  emit (set_source_function "voltage") ;;
  emit (set_level_i 0) ;;
  emit (set_limit_i (1 # 10000000)) ;;
  emit (set_nplc (nplc self)) ;;
  emit (set_output true).

(** [f"read_{idx+1}-{p_idx+1}"] and [f"write_{idx+1}-{p_idx+1}"]. *)
Definition read_label (idx : nat) (p_idx : Z) : string :=
  ("read_" ++ str (Z.of_nat idx + 1) ++ "-" ++ str (p_idx + 1))%string.

Definition write_label (idx : nat) (p_idx : Z) : string :=
  ("write_" ++ str (Z.of_nat idx + 1) ++ "-" ++ str (p_idx + 1))%string.

(** The [for p_idx in range(self.pulse_num)] loop of [run_srdp_test]. *)
Fixpoint pulse_loop (env : bench) (self : SrdpTester) (start_time : Q)
    (idx : nat) (space_val : Q) (p_indices : list Z) (data : list row)
  : K (list row) :=
  match p_indices with
  | [] => ret data
  | p_idx :: p_indices' =>
      (* read *)
      emit (set_level_v (V_read self)) ;;
      time_sleep (pulse_width self) ;;
      iv_read <- do_measure_iv env ;;
      t <- time_time env ;;
      let t_read := t - start_time in
      let data := data ++ [{| Time := t_read; Voltage := snd iv_read;
                              Current := fst iv_read;
                              Label := read_label idx p_idx |}] in
      emit (set_output false) ;;
      time_sleep (off_time self) ;;
      emit (set_output true) ;;
      (* write *)
      emit (set_level_v (V_write self)) ;;
      time_sleep (pulse_width self) ;;
      iv_write <- do_measure_iv env ;;
      t <- time_time env ;;
      let t_write := t - start_time in
      let data := data ++ [{| Time := t_write; Voltage := snd iv_write;
                              Current := fst iv_write;
                              Label := write_label idx p_idx |}] in
      (if (p_idx <? pulse_num self - 1)%Z
       then emit (set_output false) ;;
            time_sleep (off_time self) ;;
            emit (set_output true) ;;
            time_sleep space_val
       else ret tt) ;;
      pulse_loop env self start_time idx space_val p_indices' data
  end.

(** The commands between the write of one pulse and the next read:
    none after the last pulse of a space value. *)
Definition gap_events (self : SrdpTester) (space_val : Q) (p_idx : Z)
  : list event :=
  if (p_idx <? pulse_num self - 1)%Z
  then [set_output false; sleep (off_time self); set_output true; sleep space_val]
  else [].

(** The seconds slept during one pulse. *)
Definition pulse_sleep (self : SrdpTester) (space_val : Q) (p_idx : Z) : Q :=
  2 * pulse_width self + off_time self
  + (if (p_idx <? pulse_num self - 1)%Z then off_time self + space_val else 0).

(** The [for idx, space_val in enumerate(space_array)] loop. *)
Fixpoint space_loop (env : bench) (self : SrdpTester) (start_time : Q)
    (spaces : list (nat * Q)) (data : list row) : K (list row) :=
  match spaces with
  | [] => ret data
  | (idx, space_val) :: spaces' =>
      emit (print (using_space space_val (pulse_num self))) ;;
      data <- pulse_loop env self start_time idx space_val
                (range 0 (pulse_num self)) data ;;
      space_loop env self start_time spaces' data
  end.

(** [if data: t0 = data[0][0]; for row in data: row[0] -= t0]. *)
Definition rebase (data : list row) : list row :=
  match data with
  | [] => []
  | first :: _ =>
      let t0 := Time first in
      map (fun r => {| Time := Time r - t0; Voltage := Voltage r;
                       Current := Current r; Label := Label r |}) data
  end.

Definition run_srdp_test (env : bench) (self : SrdpTester) (space_array : list Q)
  : K (list row) :=
  _reset_and_setup_keithley self ;;
  start_time <- time_time env ;;
  data <- space_loop env self start_time
            (combine (seq 0 (length space_array)) space_array) [] ;;
  emit (set_output false) ;;
  ret (rebase data).

(** *** run_ltm_test

    [self.ltm_pulse_count] is set to 50 by [__init__] and read by
    [run_ltm_test] only; the run takes it as an argument. *)
Definition ltm_pulse_count_init : Z := 50.

(** [f"ltm_write_{idx+1}-{p_idx+1}"]. *)
Definition ltm_label (idx : nat) (p_idx : Z) : string :=
  ("ltm_write_" ++ str (Z.of_nat idx + 1) ++ "-" ++ str (p_idx + 1))%string.

(** The [for p_idx in range(self.ltm_pulse_count)] loop. *)
Fixpoint ltm_pulse_loop (env : bench) (self : SrdpTester) (ltm_pulse_count : Z)
    (start_time : Q) (idx : nat) (space_val : Q) (p_indices : list Z)
    (data : list row) : K (list row) :=
  match p_indices with
  | [] => ret data
  | p_idx :: p_indices' =>
      emit (set_level_v (V_write self)) ;;
      time_sleep (pulse_width self) ;;
      iv_write <- do_measure_iv env ;;
      t <- time_time env ;;
      let t_now := t - start_time in
      let data := data ++ [{| Time := t_now; Voltage := snd iv_write;
                              Current := fst iv_write;
                              Label := ltm_label idx p_idx |}] in
      emit (set_output false) ;;
      time_sleep (off_time self) ;;
      emit (set_output true) ;;
      (if (p_idx <? ltm_pulse_count - 1)%Z
       then time_sleep space_val
       else ret tt) ;;
      ltm_pulse_loop env self ltm_pulse_count start_time idx space_val
        p_indices' data
  end.

(** The wait between one LTM pulse and the next: none after the last
    pulse of a space value. *)
Definition ltm_gap_events (ltm_pulse_count : Z) (space_val : Q) (p_idx : Z)
  : list event :=
  if (p_idx <? ltm_pulse_count - 1)%Z then [sleep space_val] else [].

(** The seconds slept during one LTM pulse. *)
Definition ltm_pulse_sleep (self : SrdpTester) (ltm_pulse_count : Z)
    (space_val : Q) (p_idx : Z) : Q :=
  pulse_width self + off_time self
  + (if (p_idx <? ltm_pulse_count - 1)%Z then space_val else 0).

(** The [for idx, space_val in enumerate(space_values)] loop. *)
Fixpoint ltm_space_loop (env : bench) (self : SrdpTester) (ltm_pulse_count : Z)
    (start_time : Q) (spaces : list (nat * Q)) (data : list row)
  : K (list row) :=
  match spaces with
  | [] => ret data
  | (idx, space_val) :: spaces' =>
      emit (print (ltm_space space_val ltm_pulse_count)) ;;
      data <- ltm_pulse_loop env self ltm_pulse_count start_time idx space_val
                (range 0 ltm_pulse_count) data ;;
      ltm_space_loop env self ltm_pulse_count start_time spaces' data
  end.

Definition run_ltm_test (env : bench) (self : SrdpTester) (ltm_pulse_count : Z)
    (space_values : list Q) : K (list row) :=
  _reset_and_setup_keithley self ;;
  start_time <- time_time env ;;
  data <- ltm_space_loop env self ltm_pulse_count start_time
            (combine (seq 0 (length space_values)) space_values) [] ;;
  emit (set_output false) ;;
  ret (rebase data).

End Srdp.

(** ** Concrete laboratory data

    Inputs on which the properties below are exercised. *)

Module Bench.

Import Py.

(** A rational stand-in for [np.pi] and [np.sin] (Bhaskara's formula on
    each half period). *)
Definition pi_approx : Q := 355 # 113.

Definition half_wave (y : Q) : Q :=
  16 * y * (pi_approx - y) / (5 * pi_approx * pi_approx - 4 * y * (pi_approx - y)).

Definition sin_approx (x : Q) : Q :=
  if Qle_bool x pi_approx then half_wave x else - half_wave (x - pi_approx).

(** A lab whose instrument answers the first [answered] queries and
    then stops answering; the clock starts at 100 s and advances 1 s
    per reading. *)
Definition lab_failing_after (answered : nat) : Stdp.lab := {|
  Stdp.reply := fun n =>
    if (n <? answered)%nat then Some (inject_Z (Z.of_nat (S n)) / 1000000000)
    else None;
  Stdp.now := fun n => 100 + inject_Z (Z.of_nat n)
|}.

(** A lab whose instrument always answers. *)
Definition lab_healthy : Stdp.lab := {|
  Stdp.reply := fun n => Some (inject_Z (Z.of_nat (S n)) / 1000000000);
  Stdp.now := fun n => 100 + inject_Z (Z.of_nat n)
|}.

(** Ten planned dual-channel steps. *)
Definition ten_pre : list Q :=
  [1#10; 1#10; 1#2; 1#2; 0; 0; 0; 1#10; 1#10; 0].
Definition ten_post : list Q :=
  [0; 0; 0; 0; 0; 1#2; 1#2; 0; 0; 0].

Definition sample (t vA vB iA iB : Q) : Stdp.row :=
  {| Stdp.r_time := t; Stdp.r_vA := vA; Stdp.r_vB := vB;
     Stdp.r_iA := iA; Stdp.r_iB := iB |}.

Definition nA : Q := 1 # 1000000000.

(** Blocks of one sample: a read at zero current, a pre spike, a post
    spike, a second read. *)
Definition single_blocks : Stdp.StdpTester := Stdp.set_block_sizes Stdp.init 1 1.

Definition zero_current_run : list Stdp.row :=
  [ sample 0 (1#10) 0 0 0;
    sample 1 (1#2) 0 (5 * nA) 0;
    sample 2 0 (1#2) 0 (5 * nA);
    sample 3 (1#10) 0 nA 0 ].

(** Read blocks of two samples; the two read samples of the stream are
    separated by a spike sample. *)
Definition pair_blocks : Stdp.StdpTester := Stdp.set_block_sizes Stdp.init 2 1.

Definition interrupted_reads : list Stdp.row :=
  [ sample 0 (1#10) 0 nA 0;
    sample 1 (1#2) 0 (5 * nA) 0;
    sample 2 (1#10) 0 (3 * nA) 0 ].

(** Two complete iterations with blocks of two samples. *)
Definition two_iterations : list Stdp.row :=
  [ sample 0 (1#10) 0 nA 0;        sample 1 (1#10) 0 nA 0;
    sample 2 (1#2) 0 (5 * nA) 0;   sample 3 (1#2) 0 (5 * nA) 0;
    sample 4 0 (1#2) 0 (5 * nA);   sample 5 0 (1#2) 0 (5 * nA);
    sample 6 (1#10) 0 (2 * nA) 0;  sample 7 (1#10) 0 (2 * nA) 0;
    sample 8 (1#2) 0 (5 * nA) 0;   sample 9 (1#2) 0 (5 * nA) 0;
    sample 10 0 0 0 0;
    sample 11 0 (1#2) 0 (5 * nA);  sample 12 0 (1#2) 0 (5 * nA);
    sample 13 (1#10) 0 (3 * nA) 0; sample 14 (1#10) 0 (3 * nA) 0 ].

Definition double_blocks : Stdp.StdpTester := Stdp.set_block_sizes Stdp.init 2 2.

(** An SRDP run: read and write samples in turn. *)
Definition srdp_run : list Srdp.row :=
  [ {| Srdp.Time := 0; Srdp.Voltage := 1 # 10; Srdp.Current := 2 * nA;
       Srdp.Label := "read_1-1" |};
    {| Srdp.Time := 1; Srdp.Voltage := 1; Srdp.Current := 30 * nA;
       Srdp.Label := "write_1-1" |};
    {| Srdp.Time := 2; Srdp.Voltage := 101 # 1000; Srdp.Current := 3 * nA;
       Srdp.Label := "read_1-2" |};
    {| Srdp.Time := 3; Srdp.Voltage := 1; Srdp.Current := 31 * nA;
       Srdp.Label := "write_1-2" |} ].

(** The same tester with the read voltage set to 0. *)
Definition srdp_zero_read : Srdp.SrdpTester :=
  {| Srdp.off_time := 1 # 10000; Srdp.nplc := 1; Srdp.pulse_width := 2 # 10;
     Srdp.pulse_num := 10; Srdp.V_read := 0; Srdp.V_write := 1 |}.

Definition srdp_idle_run : list Srdp.row :=
  [ {| Srdp.Time := 0; Srdp.Voltage := 1 # 1000; Srdp.Current := 2 * nA;
       Srdp.Label := "read_1-1" |};
    {| Srdp.Time := 1; Srdp.Voltage := 1; Srdp.Current := 30 * nA;
       Srdp.Label := "write_1-1" |} ].

(** A single-channel bench that answers every measurement: the current
    grows by 1 nA per measurement, the voltage read back is the read
    level on even measurements and the write level on odd ones; the clock
    starts at 100 s and advances 1 s per reading. *)
Definition bench_healthy : Keithley.bench := {|
  Keithley.measured := fun n =>
    Some (inject_Z (Z.of_nat (S n)) * nA,
          if Nat.even n then 1 # 10 else 1);
  Keithley.now := fun n => 100 + inject_Z (Z.of_nat n)
|}.

(** The same bench, whose driver fails from measurement [answered] on. *)
Definition bench_failing_after (answered : nat) : Keithley.bench := {|
  Keithley.measured := fun n =>
    if (n <? answered)%nat
    then Some (inject_Z (Z.of_nat (S n)) * nA,
               if Nat.even n then 1 # 10 else 1)
    else None;
  Keithley.now := fun n => 100 + inject_Z (Z.of_nat n)
|}.

(** A bench on which only the write level is ever read back. *)
Definition bench_write_only : Keithley.bench := {|
  Keithley.measured := fun n => Some (inject_Z (Z.of_nat (S n)) * nA, 1);
  Keithley.now := fun n => 100 + inject_Z (Z.of_nat n)
|}.

(** A folder that already holds one delta table; paths joined with a
    slash. *)
Definition slash_join (folder name : string) : string :=
  (folder ++ "/" ++ name)%string.

Definition one_table (p : string) : bool :=
  String.eqb p "run/stdp_pre_delta.csv".

(** The tester after the operator typed [2.5,-3] at the prompt for the
    time intervals and left every other entry blank. *)
Definition fractional_timing : Stdp.StdpTester :=
  Stdp.set_prompted Stdp.init (1 # 10000) 1 (1 # 10) (1 # 2) 0 1
    [5 # 2; - (3)].

(** A fit that is off the least-squares line by [1e-16] in slope and
    intercept, as a floating-point fit is by some such amount. *)
Definition perturbed_fit (x y : list Q) : Q * Q :=
  (fst (Sin.least_squares x y) + (1 # 10000000000000000),
   snd (Sin.least_squares x y) - (1 # 10000000000000000)).

End Bench.

(** * Properties *)

Section PyFacts.

Import Py.

Lemma list_mul_singleton {A : Type} (v : A) (n : Z) :
  list_mul [v] n = repeat v (Z.to_nat n).
Proof.
  unfold list_mul. induction (Z.to_nat n) as [|k IH]; simpl; congruence.
Qed.

Lemma int_inject_Z (t : Q) (k : Z) : t == inject_Z k -> int t = k.
Proof.
  unfold Qeq, int. simpl. intros H.
  rewrite Z.mul_1_r in H. rewrite H. apply Z.quot_mul. discriminate.
Qed.

End PyFacts.

Section StdpGenerator.

Import Py Stdp.

Variable self : StdpTester.

Lemma generate_step_app (pre post : list Q) (t : Q) :
  generate_step self (pre, post) t =
  (pre ++ fst (generate_step self ([], []) t),
   post ++ snd (generate_step self ([], []) t)).
Proof.
  unfold generate_step, extend. simpl. now rewrite !app_assoc.
Qed.

Lemma generate_voltage_sequences_concat :
  generate_voltage_sequences self =
  (concat (map (fun t => fst (generate_step self ([], []) t)) (time_num self)),
   concat (map (fun t => snd (generate_step self ([], []) t)) (time_num self))).
Proof.
  unfold generate_voltage_sequences.
  enough (H : forall ts pre post,
             fold_left (generate_step self) ts (pre, post) =
             (pre ++ concat (map (fun t => fst (generate_step self ([], []) t)) ts),
              post ++ concat (map (fun t => snd (generate_step self ([], []) t)) ts)))
    by apply (H _ [] []).
  induction ts as [|t ts IH]; intros pre post; cbn [fold_left map concat].
  - now rewrite !app_nil_r.
  - rewrite generate_step_app, IH. now rewrite !app_assoc.
Qed.

End StdpGenerator.

Section Slices.

Import Py.

Context {A : Type}.

Lemma slice_middle (l1 l2 l3 : list A) (a b : nat) :
  a = length l1 -> b = (a + length l2)%nat ->
  slice (l1 ++ l2 ++ l3) a b = l2.
Proof.
  intros -> ->. unfold slice.
  rewrite skipn_app, skipn_all, Nat.sub_diag. simpl.
  replace (length l1 + length l2 - length l1)%nat with (length l2 + 0)%nat by lia.
  rewrite firstn_app_2. simpl. apply app_nil_r.
Qed.

Lemma slice_inner (l1 l2 l3 : list A) (i j : nat) :
  (i <= j)%nat -> (j <= length l2)%nat ->
  slice (l1 ++ l2 ++ l3) (length l1 + i) (length l1 + j) = slice l2 i j.
Proof.
  intros Hij Hj. unfold slice.
  rewrite skipn_app, (skipn_all2 l1) by lia. cbn [app].
  replace (length l1 + i - length l1)%nat with i by lia.
  rewrite skipn_app. replace (i - length l2)%nat with 0%nat by lia.
  cbn [skipn].
  replace (length l1 + j - (length l1 + i))%nat with (j - i)%nat by lia.
  rewrite firstn_app, length_skipn.
  replace (j - i - (length l2 - i))%nat with 0%nat by lia.
  cbn [firstn]. apply app_nil_r.
Qed.

Lemma slice_whole (l : list A) : slice l 0 (length l) = l.
Proof. unfold slice. rewrite Nat.sub_0_r. cbn [skipn]. apply firstn_all. Qed.

(** A slice inside block [m] of a concatenation. *)
Lemma concat_block_slice (blocks : list (list A)) (m : nat) (b : list A)
    (i j : nat) :
  nth_error blocks m = Some b -> (i <= j)%nat -> (j <= length b)%nat ->
  let offset := list_sum (map (@length A) (firstn m blocks)) in
  slice (concat blocks) (offset + i) (offset + j) = slice b i j.
Proof.
  intros Hm Hij Hj offset. subst offset.
  destruct (nth_error_split blocks m Hm) as (l1 & l2 & -> & Hl1).
  rewrite concat_app. cbn [concat].
  rewrite firstn_app, <- Hl1, firstn_all, Nat.sub_diag. cbn [firstn].
  rewrite app_nil_r, <- length_concat.
  now apply slice_inner.
Qed.

Lemma length_list_mul (l : list A) (n : Z) :
  length (list_mul l n) = (length l * Z.to_nat n)%nat.
Proof.
  unfold list_mul. induction (Z.to_nat n) as [|k IH]; simpl.
  - lia.
  - rewrite length_app, IH. lia.
Qed.

End Slices.

Section StdpGeneratorLayout.

Import Py Stdp.

Variable self : StdpTester.

Let r := Z.to_nat (read_num self).
Let s := Z.to_nat (spike_num self).
Let a := Z.to_nat (active_num self).

Lemma generate_step_layout (t : Q) :
  generate_step self ([], []) t =
  (repeat (V_read self) r ++ repeat (V_spike self) s
     ++ repeat (V_rest self) (Z.to_nat (active_num self + spike_num self))
     ++ repeat (V_time self) (Z.to_nat (int t))
     ++ repeat (V_active self) a
     ++ repeat (V_read self) r
     ++ repeat (V_stop self) (Z.to_nat (stop_num self)),
   repeat (V_rest self) (Z.to_nat (read_num self + spike_num self))
     ++ repeat (V_active self) a
     ++ repeat (V_time self) (Z.to_nat (int t))
     ++ repeat (V_spike self) s
     ++ repeat (V_rest self) (Z.to_nat (active_num self + read_num self))
     ++ repeat (V_stop self) (Z.to_nat (stop_num self))).
Proof.
  unfold generate_step, extend. rewrite !list_mul_singleton. simpl.
  now rewrite <- !app_assoc.
Qed.

Hypothesis read_num_nonneg : (0 <= read_num self)%Z.
Hypothesis spike_num_nonneg : (0 <= spike_num self)%Z.
Hypothesis active_num_nonneg : (0 <= active_num self)%Z.

Lemma generate_step_same_length (t : Q) :
  length (fst (generate_step self ([], []) t)) =
  length (snd (generate_step self ([], []) t)).
Proof.
  rewrite generate_step_layout. cbn [fst snd].
  rewrite !length_app, !repeat_length. subst r s a.
  rewrite !Z2Nat.inj_add by assumption. lia.
Qed.

Lemma generate_voltage_sequences_same_length :
  length (fst (generate_voltage_sequences self)) =
  length (snd (generate_voltage_sequences self)).
Proof.
  rewrite generate_voltage_sequences_concat. cbn [fst snd].
  induction (time_num self) as [|t ts IH]; cbn [map concat].
  - reflexivity.
  - rewrite !length_app, IH, generate_step_same_length. reflexivity.
Qed.

Lemma steps_of_count (t : Q) :
  steps_of self t
  = (r + s + (a + s) + Z.to_nat (int t) + a + r + Z.to_nat (stop_num self))%nat.
Proof.
  unfold steps_of. rewrite generate_step_layout. cbn [fst].
  rewrite !length_app, !repeat_length.
  rewrite !Z2Nat.inj_add by assumption. fold r s a. lia.
Qed.

Lemma iteration_start_pre (m : nat) :
  iteration_start self m
  = list_sum (map (@length Q)
                  (firstn m (map (fun t => fst (generate_step self ([], []) t))
                                 (time_num self)))).
Proof. unfold iteration_start, steps_of. now rewrite firstn_map, map_map. Qed.

Lemma iteration_start_post (m : nat) :
  iteration_start self m
  = list_sum (map (@length Q)
                  (firstn m (map (fun t => snd (generate_step self ([], []) t))
                                 (time_num self)))).
Proof.
  unfold iteration_start, steps_of. rewrite firstn_map, map_map.
  f_equal. apply map_ext. intros t. apply generate_step_same_length.
Qed.

(** The steps of iteration [m] inside the generated sequences. *)
Lemma iteration_slices (m : nat) (t : Q) (i j : nat) :
  nth_error (time_num self) m = Some t ->
  (i <= j)%nat -> (j <= steps_of self t)%nat ->
  slice (fst (generate_voltage_sequences self))
        (iteration_start self m + i) (iteration_start self m + j)
  = slice (fst (generate_step self ([], []) t)) i j /\
  slice (snd (generate_voltage_sequences self))
        (iteration_start self m + i) (iteration_start self m + j)
  = slice (snd (generate_step self ([], []) t)) i j.
Proof.
  intros Ht Hij Hj. rewrite generate_voltage_sequences_concat. cbn [fst snd].
  split.
  - rewrite iteration_start_pre. apply concat_block_slice.
    + now rewrite nth_error_map, Ht.
    + exact Hij.
    + exact Hj.
  - rewrite iteration_start_post. apply concat_block_slice.
    + now rewrite nth_error_map, Ht.
    + exact Hij.
    + now rewrite <- generate_step_same_length.
Qed.

(** C5, as the code has it. With non-negative segment counts the
    generated pre and post sequences are equally long, and so are the
    steps appended for each timing value [t]: iteration [m] occupies the
    same [n] indices of both sequences.  The hold segment has
    [h = int(t)] steps, [t] truncated toward zero, and none when that is
    negative.  The pre spike segment is steps [r .. r+s) of the
    iteration; on the post channel the steps from [r+s] on are the
    [a] active steps, then the [h] hold steps, then the post spike
    segment: it starts [s + a + h] steps after the pre spike segment
    starts. *)
Theorem generate_voltage_sequences_lockstep (m : nat) (t : Q) :
  nth_error (time_num self) m = Some t ->
  let pre_seq := fst (generate_voltage_sequences self) in
  let post_seq := snd (generate_voltage_sequences self) in
  let start := iteration_start self m in
  let h := Z.to_nat (int t) in
  let n := (r + s + (a + s) + h + a + r + Z.to_nat (stop_num self))%nat in
  length pre_seq = length post_seq /\
  steps_of self t = n /\
  slice pre_seq start (start + n) = fst (generate_step self ([], []) t) /\
  slice post_seq start (start + n) = snd (generate_step self ([], []) t) /\
  length (slice pre_seq start (start + n)) = n /\
  length (slice post_seq start (start + n)) = n /\
  slice pre_seq (start + r) (start + r + s) = repeat (V_spike self) s /\
  slice post_seq (start + r + s) (start + r + s + a)
  = repeat (V_active self) a /\
  slice post_seq (start + r + s + a) (start + r + s + a + h)
  = repeat (V_time self) h /\
  slice post_seq (start + r + s + a + h) (start + r + s + a + h + s)
  = repeat (V_spike self) s.
Proof.
  intros Ht pre_seq post_seq start h n.
  pose proof (steps_of_count t) as Hn. fold h in Hn. fold n in Hn.
  assert (Hblock : forall i j, (i <= j)%nat -> (j <= n)%nat ->
            slice pre_seq (start + i) (start + j)
            = slice (fst (generate_step self ([], []) t)) i j /\
            slice post_seq (start + i) (start + j)
            = slice (snd (generate_step self ([], []) t)) i j).
  { intros i j Hij Hj. apply iteration_slices; [exact Ht|exact Hij|].
    now rewrite Hn. }
  assert (Hlen_pre : length (fst (generate_step self ([], []) t)) = n)
    by exact Hn.
  assert (Hlen_post : length (snd (generate_step self ([], []) t)) = n)
    by (now rewrite <- generate_step_same_length).
  destruct (Hblock 0%nat n ltac:(lia) ltac:(lia)) as [Hw_pre Hw_post].
  rewrite Nat.add_0_r in Hw_pre, Hw_post.
  assert (Hb_pre : slice (fst (generate_step self ([], []) t)) 0 n
                   = fst (generate_step self ([], []) t)).
  { etransitivity; [|apply slice_whole]. f_equal. symmetry. exact Hlen_pre. }
  assert (Hb_post : slice (snd (generate_step self ([], []) t)) 0 n
                    = snd (generate_step self ([], []) t)).
  { etransitivity; [|apply slice_whole]. f_equal. symmetry. exact Hlen_post. }
  rewrite Hb_pre in Hw_pre. rewrite Hb_post in Hw_post.
  split; [apply generate_voltage_sequences_same_length|].
  split; [exact Hn|].
  split; [exact Hw_pre|]. split; [exact Hw_post|].
  split; [now rewrite Hw_pre|]. split; [now rewrite Hw_post|].
  replace (start + r + s)%nat with (start + (r + s))%nat by lia.
  replace (start + (r + s) + a)%nat with (start + (r + s + a))%nat by lia.
  replace (start + (r + s + a) + h)%nat with (start + (r + s + a + h))%nat by lia.
  replace (start + (r + s + a + h) + s)%nat
    with (start + (r + s + a + h + s))%nat by lia.
  rewrite (proj1 (Hblock r (r + s)%nat ltac:(lia) ltac:(lia))).
  rewrite (proj2 (Hblock (r + s)%nat (r + s + a)%nat ltac:(lia) ltac:(lia))).
  rewrite (proj2 (Hblock (r + s + a)%nat (r + s + a + h)%nat
                    ltac:(lia) ltac:(lia))).
  rewrite (proj2 (Hblock (r + s + a + h)%nat (r + s + a + h + s)%nat
                    ltac:(lia) ltac:(lia))).
  rewrite generate_step_layout. cbn [fst snd]. fold h.
  rewrite !Z2Nat.inj_add by assumption. fold r s a.
  repeat split.
  - apply slice_middle; rewrite repeat_length; reflexivity.
  - apply slice_middle; rewrite repeat_length; reflexivity.
  - rewrite (app_assoc (repeat (V_rest self) (r + s))).
    apply slice_middle; rewrite ?length_app, !repeat_length; reflexivity.
  - rewrite (app_assoc (repeat (V_rest self) (r + s))).
    rewrite (app_assoc (repeat (V_rest self) (r + s) ++ _)).
    apply slice_middle; rewrite ?length_app, !repeat_length; reflexivity.
Qed.

End StdpGeneratorLayout.

Lemma generate_voltage_sequences_lockstep_witness :
  let pre_seq := fst (Stdp.generate_voltage_sequences Stdp.init) in
  let post_seq := snd (Stdp.generate_voltage_sequences Stdp.init) in
  length pre_seq = length post_seq /\
  Stdp.steps_of Stdp.init 5 = 32%nat /\
  Py.slice pre_seq 27 59 = fst (Stdp.generate_step Stdp.init ([], []) 5) /\
  Py.slice post_seq 27 59 = snd (Stdp.generate_step Stdp.init ([], []) 5) /\
  length (Py.slice pre_seq 27 59) = 32%nat /\
  length (Py.slice post_seq 27 59) = 32%nat /\
  Py.slice pre_seq 32 37 = repeat (1 # 2) 5 /\
  Py.slice post_seq 37 38 = repeat 0 1 /\
  Py.slice post_seq 38 43 = repeat 0 5 /\
  Py.slice post_seq 43 48 = repeat (1 # 2) 5.
Proof.
  refine (generate_voltage_sequences_lockstep Stdp.init _ _ _ 1 5 _);
    try (vm_compute; discriminate); reflexivity.
Defined.

(** C5, as stated, fails: the timing values are floats and may be
    negative.  For [t = 2.5] the iteration has 2 hold steps and for
    [t = -3] it has none, so the post spike segment is not [t] hold
    steps away from the pre spike segment; and even for an integer [t]
    the [active_num] active steps lie between the two spike segments
    as well. *)
Lemma generate_voltage_sequences_hold_truncated :
  let self := Bench.fractional_timing in
  let pre_seq := fst (Stdp.generate_voltage_sequences self) in
  let post_seq := snd (Stdp.generate_voltage_sequences self) in
  Stdp.time_num self = [5 # 2; - (3)] /\
  Stdp.steps_of self (5 # 2) = 29%nat /\
  Stdp.steps_of self (- (3)) = 27%nat /\
  Py.slice pre_seq 5 10 = repeat (1 # 2) 5 /\
  Py.slice post_seq 10 13 = [Stdp.V_active self; Stdp.V_time self; Stdp.V_time self] /\
  Py.slice post_seq 13 18 = repeat (1 # 2) 5 /\
  Py.slice pre_seq (29 + 5) (29 + 10) = repeat (1 # 2) 5 /\
  Py.slice post_seq (29 + 10) (29 + 11) = [Stdp.V_active self] /\
  Py.slice post_seq (29 + 11) (29 + 16) = repeat (1 # 2) 5 /\
  ~ (forall t, In t (Stdp.time_num self) ->
       inject_Z (Z.of_nat (Stdp.steps_of self t))
       == inject_Z (Z.of_nat (Stdp.steps_of self 0)) + t).
Proof.
  cbv zeta. repeat split; try reflexivity.
  intros H. specialize (H (5 # 2) (or_introl eq_refl)).
  vm_compute in H. discriminate H.
Qed.

Section SineGenerator.

Import Py Sin.

Variable np_sin : Q -> Q.
Variable np_pi : Q.

(** [sin 0 = 0], for any representation of zero. *)
Hypothesis np_sin_0 : forall x, x == 0 -> np_sin x == 0.

Lemma length_range (a b : Z) : length (range a b) = Z.to_nat (b - a).
Proof. unfold range. now rewrite length_map, length_seq. Qed.

(** C7. For [n >= 1] points per half period and [c >= 1] cycles the
    generated sequence has [2*n*c + 1] elements and starts with 0. *)
Theorem generate_custom_sine_points_shape (amplitude : Q) (n c : Z) :
  (1 <= n)%Z -> (1 <= c)%Z ->
  Z.of_nat (length (generate_custom_sine_points np_sin np_pi amplitude n c))
    = (2 * n * c + 1)%Z /\
  exists first rest,
    generate_custom_sine_points np_sin np_pi amplitude n c = first :: rest /\
    first == 0.
Proof.
  intros Hn Hc. unfold generate_custom_sine_points. split.
  - rewrite length_map, !length_app, !length_list_mul, !length_map, !length_range.
    cbn [length]. nia.
  - unfold range at 1.
    destruct (Z.to_nat (n - 0)) as [|m] eqn:Em; [lia|].
    unfold list_mul at 1.
    destruct (Z.to_nat c) as [|c'] eqn:Ec; [lia|].
    cbn [seq map repeat concat app].
    eexists. eexists. split; [reflexivity|].
    rewrite np_sin_0; [ring|].
    cbn [Z.of_nat Z.add]. unfold Qdiv. ring.
Qed.

End SineGenerator.

Lemma sin_approx_0 (x : Q) : x == 0 -> Bench.sin_approx x == 0.
Proof.
  intros Hx. unfold Bench.sin_approx.
  destruct (Qle_bool x Bench.pi_approx) eqn:E.
  - unfold Bench.half_wave. rewrite Hx. reflexivity.
  - assert (Hle : Qle_bool x Bench.pi_approx = true).
    { apply Qle_bool_iff. rewrite Hx. discriminate. }
    congruence.
Qed.

Lemma generate_custom_sine_points_shape_witness :
  Z.of_nat (length (Sin.generate_custom_sine_points
                      Bench.sin_approx Bench.pi_approx 1 6 4)) = 49%Z /\
  exists first rest,
    Sin.generate_custom_sine_points Bench.sin_approx Bench.pi_approx 1 6 4
      = first :: rest /\ first == 0.
Proof.
  refine (generate_custom_sine_points_shape
            Bench.sin_approx Bench.pi_approx sin_approx_0 1 6 4 _ _);
    vm_compute; discriminate.
Defined.

Section Executor.

Import Py Stdp.

Variable env : lab.
Variable self : StdpTester.
Variables chanA_seq chanB_seq : list Q.
Variable start : Q.

(** [time.sleep] accepts the dwell. *)
Hypothesis off_time_nonneg : 0 <= off_time self.

Lemma levelv_writes_app (l1 l2 : list event) :
  levelv_writes (l1 ++ l2) = levelv_writes l1 ++ levelv_writes l2.
Proof. apply flat_map_app. Qed.

Lemma switches_off_app (l1 l2 : list event) :
  switches_off (l1 ++ l2) = switches_off l1 || switches_off l2.
Proof. apply existsb_app. Qed.

(** One turn of the loop, by the fate of its two queries. *)
Lemma measure_loop_cons (i : nat) (indices : list nat) (data : list row)
    (st : smu_state) :
  let vA := nth i chanA_seq 0 in
  let vB := nth i chanB_seq 0 in
  let sourced := log st ++ [write_source_levelv smua vA;
                            write_source_levelv smub vB;
                            sleep (off_time self)] in
  measure_loop env self chanA_seq chanB_seq start (i :: indices) data st =
  match reply env (queries st) with
  | None =>
      (inl (CommError (queries st)),
       {| log := sourced ++ [query_measure_i smua];
          queries := S (queries st); ticks := ticks st |})
  | Some iA =>
      match reply env (S (queries st)) with
      | None =>
          (inl (CommError (S (queries st))),
           {| log := sourced ++ [query_measure_i smua; query_measure_i smub];
              queries := S (S (queries st)); ticks := ticks st |})
      | Some iB =>
          measure_loop env self chanA_seq chanB_seq start indices
            (data ++ [{| r_time := now env (ticks st) - start;
                         r_vA := vA; r_vB := vB; r_iA := iA; r_iB := iB |}])
            {| log := sourced ++ [query_measure_i smua; query_measure_i smub];
               queries := S (S (queries st)); ticks := S (ticks st) |}
      end
  end.
Proof.
  intros vA vB sourced. subst sourced.
  assert (Hs : Qle_bool 0 (off_time self) = true) by now apply Qle_bool_iff.
  cbn [measure_loop]. unfold bind, time_sleep, emit, query, time_time.
  cbn [log queries ticks]. rewrite Hs. cbn [log queries ticks].
  destruct (reply env (queries st)) as [iA|]; cbn [log queries ticks].
  - destruct (reply env (S (queries st))) as [iB|]; cbn [log queries ticks];
      rewrite <- ?app_assoc; reflexivity.
  - rewrite <- ?app_assoc; reflexivity.
Qed.

Lemma measure_loop_ok (indices : list nat) :
  forall (data : list row) (st : smu_state),
  (forall j, (j < 2 * length indices)%nat -> reply env (queries st + j) <> None) ->
  exists rows st',
    measure_loop env self chanA_seq chanB_seq start indices data st
      = (inr (data ++ rows), st') /\
    map (fun r => (r_vA r, r_vB r)) rows
      = map (fun i => (nth i chanA_seq 0, nth i chanB_seq 0)) indices /\
    levelv_writes (log st')
      = levelv_writes (log st)
          ++ flat_map (fun i => [(smua, nth i chanA_seq 0);
                                 (smub, nth i chanB_seq 0)]) indices /\
    switches_off (log st') = switches_off (log st) /\
    queries st' = (queries st + 2 * length indices)%nat.
Proof.
  induction indices as [|i indices IH]; intros data st Hreply.
  - exists [], st. cbn. rewrite !app_nil_r. repeat split; lia.
  - pose proof (measure_loop_cons i indices data st) as E. cbv zeta in E.
    rewrite E. clear E.
    pose proof (Hreply 0%nat) as H0. pose proof (Hreply 1%nat) as H1.
    rewrite Nat.add_0_r in H0. rewrite Nat.add_1_r in H1.
    cbn [length] in H0, H1.
    destruct (reply env (queries st)) as [iA|]; [|exfalso; apply H0; [lia|reflexivity]].
    destruct (reply env (S (queries st))) as [iB|]; [|exfalso; apply H1; [lia|reflexivity]].
    match goal with
    | |- context [measure_loop _ _ _ _ _ _ (data ++ [?r]) ?s] =>
        destruct (IH (data ++ [r]) s) as (rows & st' & Hrun & Hv & Hw & Hoff & Hq)
    end.
    { intros j Hj. cbn [queries].
      replace (S (S (queries st)) + j)%nat with (queries st + (2 + j))%nat by lia.
      apply Hreply. cbn [length]. lia. }
    cbn [queries log] in Hrun, Hw, Hoff, Hq.
    eexists. exists st'. rewrite Hrun, <- app_assoc.
    split; [reflexivity|]. cbn [map app]. rewrite Hv.
    split; [reflexivity|].
    rewrite Hw, Hoff, Hq. cbn [log queries flat_map length].
    rewrite !levelv_writes_app, !switches_off_app. cbn.
    rewrite <- !app_assoc, !orb_false_r. cbn.
    repeat split; lia.
Qed.

Lemma measure_loop_fails (indices : list nat) :
  forall (data : list row) (st : smu_state) (j : nat),
  (j < 2 * length indices)%nat ->
  reply env (queries st + j) = None ->
  (forall j', (j' < j)%nat -> reply env (queries st + j') <> None) ->
  exists st',
    measure_loop env self chanA_seq chanB_seq start indices data st
      = (inl (CommError (queries st + j)), st') /\
    switches_off (log st') = switches_off (log st).
Proof.
  induction indices as [|i indices IH]; intros data st j Hj Hnone Hsome.
  - cbn in Hj. lia.
  - pose proof (measure_loop_cons i indices data st) as E. cbv zeta in E.
    rewrite E. clear E.
    destruct j as [|[|j]].
    + rewrite Nat.add_0_r in *. rewrite Hnone.
      eexists. split; [reflexivity|]. cbn [log].
      rewrite !switches_off_app. cbn. now rewrite !orb_false_r.
    + pose proof (Hsome 0%nat ltac:(lia)) as H0.
      rewrite Nat.add_0_r in H0. rewrite Nat.add_1_r in *.
      destruct (reply env (queries st)) as [iA|]; [|congruence].
      rewrite Hnone.
      eexists. split; [reflexivity|]. cbn [log].
      rewrite !switches_off_app. cbn. now rewrite !orb_false_r.
    + pose proof (Hsome 0%nat ltac:(lia)) as H0.
      pose proof (Hsome 1%nat ltac:(lia)) as H1.
      rewrite Nat.add_0_r in H0. rewrite Nat.add_1_r in H1.
      destruct (reply env (queries st)) as [iA|]; [|congruence].
      destruct (reply env (S (queries st))) as [iB|]; [|congruence].
      match goal with
      | |- context [measure_loop _ _ _ _ _ _ (data ++ [?r]) ?s] =>
          destruct (IH (data ++ [r]) s j) as (st' & Hrun & Hoff)
      end.
      * cbn [length] in Hj. lia.
      * cbn [queries].
        replace (S (S (queries st)) + j)%nat with (queries st + S (S j))%nat by lia.
        exact Hnone.
      * intros j' Hj'. cbn [queries].
        replace (S (S (queries st)) + j')%nat with (queries st + S (S j'))%nat by lia.
        apply Hsome. lia.
      * cbn [queries log] in Hrun, Hoff.
        exists st'. split.
        -- rewrite Hrun.
           replace (S (S (queries st)) + j)%nat
             with (queries st + S (S j))%nat by lia.
           reflexivity.
        -- rewrite Hoff, !switches_off_app. cbn. now rewrite !orb_false_r.
Qed.

End Executor.

Section RunStdpTest.

Import Py Stdp.

Variable env : lab.
Variable self : StdpTester.

(** [time.sleep] accepts the dwell. *)
Hypothesis off_time_nonneg : 0 <= off_time self.

Lemma nth_seq_combine (l1 l2 : list Q) :
  map (fun i => (nth i l1 0, nth i l2 0))
      (seq 0 (Nat.min (length l1) (length l2)))
  = combine l1 l2.
Proof.
  revert l2. induction l1 as [|x l1 IH]; intros [|y l2]; cbn [length Nat.min seq map combine];
    try reflexivity.
  f_equal. rewrite <- seq_shift, map_map. apply IH.
Qed.

Lemma flat_map_through {X Y Z : Type} (g : Y -> list Z) (h : X -> Y) (l : list X) :
  flat_map (fun i => g (h i)) l = flat_map g (map h l).
Proof. induction l as [|x l IH]; cbn; congruence. Qed.

Lemma length_rebase (data : list row) : length (rebase data) = length data.
Proof. destruct data; [reflexivity|]. unfold rebase. apply length_map. Qed.

Lemma rebase_voltages (data : list row) :
  map (fun r => (r_vA r, r_vB r)) (rebase data)
  = map (fun r => (r_vA r, r_vB r)) data.
Proof.
  destruct data as [|r0 data]; [reflexivity|]. unfold rebase.
  rewrite map_map. reflexivity.
Qed.

Lemma rebase_first_zero (data : list row) :
  match rebase data with
  | [] => data = []
  | first :: _ => r_time first == 0
  end.
Proof.
  destruct data as [|r0 data]; [reflexivity|]. cbn. ring.
Qed.

(** The events sent before the loop starts. *)
Let preamble : list event :=
  [reset_device; default_setup; set_source_function "voltage"; set_level_i 0;
   set_limit_i (1 # 10000000); set_nplc (nplc self); set_output true;
   write_source_func smua; write_source_func smub;
   write_source_output smua true; write_source_output smub true].

Lemma run_stdp_test_unfold (pre_sequence post_sequence : list Q) (st : smu_state) :
  let chanA_seq := if pre_before_post self then pre_sequence else post_sequence in
  let chanB_seq := if pre_before_post self then post_sequence else pre_sequence in
  run_stdp_test env self pre_sequence post_sequence st =
  match measure_loop env self chanA_seq chanB_seq (now env (ticks st))
          (seq 0 (Nat.min (length chanA_seq) (length chanB_seq))) []
          {| log := log st ++ preamble;
             queries := queries st; ticks := S (ticks st) |} with
  | (inl e, st') => (inl e, st')
  | (inr data, st') =>
      (inr (rebase data),
       {| log := log st' ++ [write_source_output smua false;
                             write_source_output smub false];
          queries := queries st'; ticks := ticks st' |})
  end.
Proof.
  intros chanA_seq chanB_seq. subst chanA_seq chanB_seq preamble.
  unfold run_stdp_test, _reset_and_setup_keithley.
  destruct (pre_before_post self);
    unfold bind, emit, time_time, ret;
    cbn [log queries ticks]; rewrite <- !app_assoc; cbn [app];
    match goal with
    | |- context [measure_loop ?e ?s ?a ?b ?t ?i ?d ?st0] =>
        destruct (measure_loop e s a b t i d st0) as [[err|data] st']
    end; cbn [log queries ticks]; rewrite <- ?app_assoc; reflexivity.
Qed.

Lemma run_stdp_test_truncates_aux (pre_sequence post_sequence : list Q)
    (st : smu_state) :
  let n := Nat.min (length pre_sequence) (length post_sequence) in
  (forall j, (j < 2 * n)%nat -> reply env (queries st + j) <> None) ->
  exists data st',
    run_stdp_test env self pre_sequence post_sequence st = (inr data, st') /\
    length data = n /\
    match data with
    | [] => n = 0%nat
    | first :: _ => r_time first == 0
    end.
Proof.
  intros n Hreply.
  pose proof (run_stdp_test_unfold pre_sequence post_sequence st) as E.
  cbv zeta in E. rewrite E. clear E.
  match goal with
  | |- context [measure_loop _ _ ?a ?b ?t ?i ?d ?st0] =>
      destruct (measure_loop_ok env self a b t off_time_nonneg i d st0)
        as (rows & st' & Hrun & Hv & _)
  end.
  { intros j Hj. rewrite length_seq in Hj. cbn [queries]. apply Hreply.
    subst n. destruct (pre_before_post self); lia. }
  cbn [app] in Hrun. rewrite Hrun.
  assert (Hlen : length rows = n).
  { rewrite <- (length_map (fun r => (r_vA r, r_vB r)) rows), Hv, length_map,
      length_seq. subst n. destruct (pre_before_post self); lia. }
  eexists. eexists. split; [reflexivity|].
  rewrite length_rebase. split; [exact Hlen|].
  pose proof (rebase_first_zero rows) as Hz.
  destruct (rebase rows); [|exact Hz].
  subst rows. cbn in Hlen. now symmetry.
Qed.

(** C8. With an instrument that answers and a dwell [off_time] that
    [time.sleep] accepts (not negative), a dual-channel run over
    sequences of lengths [m] and [k] returns exactly [min m k] samples;
    sample [i] carries the pair of levels at index [i] of the two channel
    sequences, and the levels written are exactly those pairs, channel A
    then channel B, so no step is applied to one channel only. *)
Theorem run_stdp_test_truncates (pre_sequence post_sequence : list Q)
    (st : smu_state) :
  let chanA_seq := if pre_before_post self then pre_sequence else post_sequence in
  let chanB_seq := if pre_before_post self then post_sequence else pre_sequence in
  let n := Nat.min (length pre_sequence) (length post_sequence) in
  (forall j, (j < 2 * n)%nat -> reply env (queries st + j) <> None) ->
  exists data st',
    run_stdp_test env self pre_sequence post_sequence st = (inr data, st') /\
    length data = n /\
    map (fun r => (r_vA r, r_vB r)) data = combine chanA_seq chanB_seq /\
    levelv_writes (log st')
      = levelv_writes (log st)
          ++ flat_map (fun p => [(smua, fst p); (smub, snd p)])
               (combine chanA_seq chanB_seq) /\
    queries st' = (queries st + 2 * n)%nat.
Proof.
  intros chanA_seq chanB_seq n Hreply.
  pose proof (run_stdp_test_unfold pre_sequence post_sequence st) as E.
  cbv zeta in E. fold chanA_seq chanB_seq in E. rewrite E. clear E.
  assert (Hn : Nat.min (length chanA_seq) (length chanB_seq) = n).
  { subst chanA_seq chanB_seq n. destruct (pre_before_post self); lia. }
  rewrite Hn.
  match goal with
  | |- context [measure_loop _ _ _ _ ?t ?i ?d ?st0] =>
      destruct (measure_loop_ok env self chanA_seq chanB_seq t off_time_nonneg i d st0)
        as (rows & st' & Hrun & Hv & Hw & _ & Hq)
  end.
  { intros j Hj. rewrite length_seq in Hj. cbn [queries]. now apply Hreply. }
  cbn [queries log app] in Hrun, Hw, Hq. rewrite Hrun.
  eexists. eexists. split; [reflexivity|].
  cbn [log queries]. rewrite length_seq in Hq.
  rewrite length_rebase, rebase_voltages, Hv, <- Hn, nth_seq_combine.
  rewrite <- (length_map (fun r => (r_vA r, r_vB r)) rows), Hv, length_map, length_seq.
  rewrite !levelv_writes_app, Hw, levelv_writes_app.
  rewrite (flat_map_through (fun p => [(smua, fst p); (smub, snd p)])
             (fun i => (nth i chanA_seq 0, nth i chanB_seq 0))).
  rewrite <- Hn, nth_seq_combine. cbn. rewrite !app_nil_r.
  repeat split; lia.
Qed.

(** C3, as the code has it, for a dwell [off_time] that [time.sleep]
    accepts (not negative). A failed query raises out of the run: the
    exception reaches the caller, no sample is returned and the outputs
    are not switched off.  Samples are returned, all [min m k] of them
    and rebased so that the first one has time 0, only when every query
    is answered. *)
Theorem run_stdp_test_failure_raises (pre_sequence post_sequence : list Q)
    (st : smu_state) :
  let n := Nat.min (length pre_sequence) (length post_sequence) in
  (forall j,
      (j < 2 * n)%nat ->
      reply env (queries st + j) = None ->
      (forall j', (j' < j)%nat -> reply env (queries st + j') <> None) ->
      exists st',
        run_stdp_test env self pre_sequence post_sequence st
          = (inl (CommError (queries st + j)), st') /\
        switches_off (log st') = switches_off (log st)) /\
  ((forall j, (j < 2 * n)%nat -> reply env (queries st + j) <> None) ->
   exists data st',
     run_stdp_test env self pre_sequence post_sequence st = (inr data, st') /\
     length data = n /\
     match data with
     | [] => n = 0%nat
     | first :: _ => r_time first == 0
     end).
Proof.
  intros n. split.
  - intros j Hj Hnone Hsome.
    pose proof (run_stdp_test_unfold pre_sequence post_sequence st) as E.
    cbv zeta in E. rewrite E. clear E.
    match goal with
    | |- context [measure_loop _ _ ?a ?b ?t ?i ?d ?st0] =>
        destruct (measure_loop_fails env self a b t off_time_nonneg i d st0 j)
          as (st' & Hrun & Hoff)
    end.
    + rewrite length_seq. subst n. destruct (pre_before_post self); lia.
    + exact Hnone.
    + exact Hsome.
    + cbn [queries log] in Hrun, Hoff. rewrite Hrun.
      exists st'. split; [reflexivity|].
      rewrite Hoff, switches_off_app. cbn. apply orb_false_r.
  - intros Hreply.
    destruct (run_stdp_test_truncates_aux pre_sequence post_sequence st Hreply)
      as (data & st' & Hrun & Hlen & Hfirst).
    exists data, st'. auto.
Qed.

End RunStdpTest.

Section NegativeDwell.

Import Py Stdp.

Variable env : lab.
Variable self : StdpTester.

Hypothesis off_time_negative : off_time self < 0.

(** A negative dwell ends the run at its first step: [time.sleep] raises
    [ValueError] before any query, no sample is returned and the outputs
    stay on. *)
Lemma run_stdp_test_negative_dwell (pre_sequence post_sequence : list Q)
    (st : smu_state) :
  (1 <= Nat.min (length pre_sequence) (length post_sequence))%nat ->
  exists st',
    run_stdp_test env self pre_sequence post_sequence st
    = (inl sleep_length_error, st') /\
    queries st' = queries st /\
    switches_off (log st') = switches_off (log st).
Proof.
  intros Hn.
  pose proof (run_stdp_test_unfold env self pre_sequence post_sequence st) as E.
  cbv zeta in E. rewrite E. clear E.
  assert (Hs : Qle_bool 0 (off_time self) = false).
  { destruct (Qle_bool 0 (off_time self)) eqn:Hle; [|reflexivity].
    apply Qle_bool_iff in Hle. lra. }
  match goal with
  | |- context [seq 0 ?n] =>
      assert (Hpos : (1 <= n)%nat) by (destruct (pre_before_post self); lia);
      destruct n as [|n']; [lia|]
  end.
  cbn [seq measure_loop]. unfold bind, time_sleep, emit.
  cbn [log queries ticks]. rewrite Hs.
  eexists. split; [reflexivity|]. cbn [log queries].
  split; [reflexivity|].
  rewrite !switches_off_app. cbn. now rewrite !orb_false_r.
Qed.

End NegativeDwell.

Lemma init_off_time_nonneg : 0 <= Stdp.off_time Stdp.init.
Proof. vm_compute. discriminate. Qed.

Lemma run_stdp_test_truncates_witness :
  exists data st',
    Stdp.run_stdp_test Bench.lab_healthy Stdp.init
      [1#10; 1#2; 0] [0; 0; 1#2; 0; 0] Stdp.power_on = (inr data, st') /\
    length data = 3%nat /\
    map (fun r => (Stdp.r_vA r, Stdp.r_vB r)) data
      = [(1#10, 0); (1#2, 0); (0, 1#2)] /\
    Stdp.levelv_writes (Stdp.log st')
      = [(Stdp.smua, 1#10); (Stdp.smub, 0); (Stdp.smua, 1#2); (Stdp.smub, 0);
         (Stdp.smua, 0); (Stdp.smub, 1#2)] /\
    Stdp.queries st' = 6%nat.
Proof.
  refine (run_stdp_test_truncates Bench.lab_healthy Stdp.init
           init_off_time_nonneg
            [1#10; 1#2; 0] [0; 0; 1#2; 0; 0] Stdp.power_on _).
  intros j _. cbn. discriminate.
Defined.

(** C3, as stated, fails: when the instrument stops answering after 3 of
    10 planned steps, the run raises and returns no sample at all. *)
Lemma run_stdp_test_partial_data_lost :
  fst (Stdp.run_stdp_test (Bench.lab_failing_after 6) Stdp.init
         Bench.ten_pre Bench.ten_post Stdp.power_on)
    = inl (Py.CommError 6) /\
  ~ (exists data,
        fst (Stdp.run_stdp_test (Bench.lab_failing_after 6) Stdp.init
               Bench.ten_pre Bench.ten_post Stdp.power_on) = inr data /\
        length data = 3%nat /\
        exists first rest, data = first :: rest /\ Stdp.r_time first == 0).
Proof.
  split; [vm_compute; reflexivity|].
  intros (data & Hrun & _). vm_compute in Hrun. discriminate.
Qed.

Lemma run_stdp_test_failure_raises_witness :
  exists st',
    Stdp.run_stdp_test (Bench.lab_failing_after 6) Stdp.init
      Bench.ten_pre Bench.ten_post Stdp.power_on
      = (inl (Py.CommError 6), st') /\
    Stdp.switches_off (Stdp.log st') = false.
Proof.
  refine (proj1 (run_stdp_test_failure_raises (Bench.lab_failing_after 6)
                   Stdp.init init_off_time_nonneg
                   Bench.ten_pre Bench.ten_post Stdp.power_on)
            6%nat _ _ _).
  - cbn. lia.
  - reflexivity.
  - intros j' Hj'.
    unfold Bench.lab_failing_after, Stdp.power_on.
    cbn [Stdp.reply Stdp.queries Nat.add].
    destruct (Nat.ltb_spec j' 6); [discriminate | lia].
Defined.

Section Grouping.

Import Py Stdp.

Lemma filter_all {B : Type} (P : B -> bool) (l : list B) :
  (forall x, In x l -> P x = true) -> filter P l = l.
Proof.
  induction l as [|x l IH]; intros H; cbn; [reflexivity|].
  rewrite (H x (or_introl eq_refl)). f_equal. apply IH.
  intros y Hy. apply H. now right.
Qed.

Lemma filter_none {B : Type} (P : B -> bool) (l : list B) :
  (forall x, In x l -> P x = false) -> filter P l = [].
Proof.
  induction l as [|x l IH]; intros H; cbn; [reflexivity|].
  rewrite (H x (or_introl eq_refl)). apply IH.
  intros y Hy. apply H. now right.
Qed.

Lemma filter_map_seq_prefix {B : Type} (P : B -> bool) (g : nat -> B) (f c : nat) :
  (f <= c)%nat ->
  (forall j, (j < f)%nat -> P (g j) = true) ->
  (forall j, (f <= j < c)%nat -> P (g j) = false) ->
  filter P (map g (seq 0 c)) = map g (seq 0 f).
Proof.
  intros Hfc Htrue Hfalse.
  replace c with (f + (c - f))%nat by lia.
  rewrite seq_app, map_app, filter_app, filter_all, filter_none.
  - apply app_nil_r.
  - intros x Hx. apply in_map_iff in Hx as (j & <- & Hj).
    apply in_seq in Hj. apply Hfalse. lia.
  - intros x Hx. apply in_map_iff in Hx as (j & <- & Hj).
    apply in_seq in Hj. apply Htrue. lia.
Qed.

Lemma length_slice {B : Type} (l : list B) (a b : nat) :
  length (slice l a b) = Nat.min (b - a) (length l - a).
Proof. unfold slice. now rewrite length_firstn, length_skipn. Qed.

Lemma firstn_add {B : Type} (a b : nat) (l : list B) :
  firstn (a + b) l = firstn a l ++ firstn b (skipn a l).
Proof.
  revert l. induction a as [|a IH]; intros [|x l]; cbn; try reflexivity.
  - now rewrite firstn_nil.
  - now rewrite IH.
Qed.

Lemma concat_slices {B : Type} (l : list B) (k f : nat) :
  concat (map (fun j => slice l (j * k) (j * k + k)) (seq 0 f))
  = firstn (f * k) l.
Proof.
  induction f as [|f IH].
  - reflexivity.
  - rewrite seq_S, map_app, concat_app, IH. cbn [map concat Nat.add].
    rewrite app_nil_r. unfold slice.
    replace (f * k + k - f * k)%nat with k by lia.
    replace (S f * k)%nat with (f * k + k)%nat by lia.
    now rewrite firstn_add.
Qed.

(** The grouping loop with a positive block size [k]: the blocks are the
    consecutive length-[k] slices of its input, [len / k] of them. *)
Lemma groups_pos (d : list row) (num : Z) :
  (0 < num)%Z ->
  groups d num
  = inr (map (fun j => slice d (j * Z.to_nat num) (j * Z.to_nat num + Z.to_nat num))
             (seq 0 (length d / Z.to_nat num))).
Proof.
  intros Hnum. unfold groups, range_step.
  destruct (Z.eqb_spec num 0); [lia|].
  destruct (Z.ltb_spec num 0); [lia|].
  set (k := Z.to_nat num). assert (Hk : (0 < k)%nat) by (subst k; lia).
  rewrite map_map. f_equal.
  pose proof (Nat.Div0.mul_div_le (length d) k) as Hlo.
  pose proof (Nat.mul_succ_div_gt (length d) k ltac:(lia)) as Hhi.
  rewrite (map_ext (fun j => slice d (j * k) (Z.to_nat (Z.of_nat (j * k) + num)))
                   (fun j => slice d (j * k) (j * k + k))).
  2:{ intros j. f_equal. subst k. lia. }
  apply filter_map_seq_prefix.
  - apply Nat.Div0.div_le_mono. lia.
  - intros j Hj. rewrite length_slice. apply Z.eqb_eq. subst k. nia.
  - intros j [Hj _]. rewrite length_slice. apply Z.eqb_neq. subst k. nia.
Qed.

Lemma groups_zero (d : list row) :
  groups d 0 = inl (ValueError "range() arg 3 must not be zero").
Proof. reflexivity. Qed.

Lemma groups_neg (d : list row) (num : Z) : (num < 0)%Z -> groups d num = inr [].
Proof.
  intros Hnum. unfold groups, range_step.
  destruct (Z.eqb_spec num 0); [lia|].
  destruct (Z.ltb_spec num 0); [reflexivity|lia].
Qed.

(** C2, as the code has it. With a positive block size [k], the extractor
    first keeps every sample whose voltage is within tolerance of the
    target, whether or not they were consecutive in the stream, and cuts
    the kept samples into consecutive groups of [k]: it emits
    [n / k] blocks of exactly [k] samples, they are the first
    [k * (n / k)] kept samples in order, and only the last [n mod k] kept
    samples are dropped. *)
Theorem groups_fixed_blocks (c : column) (target : Q) (num : Z) (df : list row) :
  (0 < num)%Z ->
  let k := Z.to_nat num in
  let kept := masked c target df in
  exists blocks,
    groups kept num = inr blocks /\
    length blocks = (length kept / k)%nat /\
    Forall (fun block => length block = k) blocks /\
    concat blocks = firstn (k * (length kept / k)) kept /\
    length (concat blocks) = (k * (length kept / k))%nat.
Proof.
  intros Hnum k kept. rewrite (groups_pos kept num Hnum). fold k.
  assert (Hk : (0 < k)%nat) by (subst k; lia).
  pose proof (Nat.Div0.mul_div_le (length kept) k) as Hlo.
  eexists. split; [reflexivity|].
  split; [now rewrite length_map, length_seq|].
  split.
  - apply Forall_forall. intros block Hb.
    apply in_map_iff in Hb as (j & <- & Hj). apply in_seq in Hj.
    rewrite length_slice. nia.
  - rewrite concat_slices, (Nat.mul_comm (length kept / k)).
    split; [reflexivity|]. rewrite length_firstn. lia.
Qed.

End Grouping.

Lemma groups_fixed_blocks_witness :
  exists blocks,
    Stdp.groups (Stdp.masked Stdp.Channel_A_Voltage (1 # 10) Bench.two_iterations) 2
      = inr blocks /\
    length blocks = 3%nat /\
    Forall (fun block => length block = 2%nat) blocks /\
    concat blocks
      = firstn 6 (Stdp.masked Stdp.Channel_A_Voltage (1 # 10) Bench.two_iterations) /\
    length (concat blocks) = 6%nat.
Proof.
  refine (groups_fixed_blocks Stdp.Channel_A_Voltage (1 # 10) 2
            Bench.two_iterations _).
  reflexivity.
Defined.

(** C2, as stated, fails: two read samples separated by a spike sample
    form two runs of length 1, none of which reaches the block size 2;
    the specification's extractor emits nothing, the code emits one block
    made of the two. *)
Lemma groups_join_separate_runs :
  Stdp.read_groups Bench.pair_blocks Bench.interrupted_reads
    = inr [[Bench.sample 0 (1#10) 0 Bench.nA 0;
            Bench.sample 2 (1#10) 0 (3 * Bench.nA) 0]] /\
  Stdp.spec_windowed_extractor
    (fun r => Py.isclose (Stdp.col (Stdp.preV_col Bench.pair_blocks) r)
                (Stdp.V_read Bench.pair_blocks) (1 # 100))
    2 Bench.interrupted_reads [] = [] /\
  Stdp.read_groups Bench.pair_blocks Bench.interrupted_reads
    <> inr (Stdp.spec_windowed_extractor
              (fun r => Py.isclose (Stdp.col (Stdp.preV_col Bench.pair_blocks) r)
                          (Stdp.V_read Bench.pair_blocks) (1 # 100))
              2 Bench.interrupted_reads []).
Proof.
  split; [reflexivity|]. split; [reflexivity|].
  intros H. vm_compute in H. discriminate.
Qed.

Section Deltas.

Import Py Stdp.

Lemma Qltb_lt (a b : Q) : Qltb a b = true <-> a < b.
Proof.
  unfold Qltb. rewrite negb_true_iff. split.
  - intros H. apply Qnot_le_lt. intros Hle.
    apply Qle_bool_iff in Hle. congruence.
  - intros H. destruct (Qle_bool b a) eqn:E; [|reflexivity].
    apply Qle_bool_iff in E. exfalso. exact (Qlt_not_le _ _ H E).
Qed.

Lemma nth_error_seq0 (n i : nat) : (i < n)%nat -> nth_error (seq 0 n) i = Some i.
Proof.
  intros Hi. rewrite (nth_error_nth' _ 0%nat) by now rewrite length_seq.
  now rewrite seq_nth.
Qed.

Lemma length_delta_g_list (read_currents : list Q) :
  length (delta_g_list read_currents) = (length read_currents - 1)%nat.
Proof. unfold delta_g_list. now rewrite length_map, length_seq. Qed.

(** Entry [i] of the delta-g series, as the loop computes it. *)
Lemma delta_g_list_nth (read_currents : list Q) (i : nat) :
  (i < length read_currents - 1)%nat ->
  nth_error (delta_g_list read_currents) i
  = Some (if Qltb (Qabs (nth i read_currents 0)) tiny then NaN
          else Num ((nth (i + 1) read_currents 0 - nth i read_currents 0)
                    / nth i read_currents 0)).
Proof.
  intros Hi. unfold delta_g_list.
  now rewrite nth_error_map, nth_error_seq0.
Qed.

Lemma length_delta_t_list (self : StdpTester) (pre_times post_times : list Q) :
  length (delta_t_list self pre_times post_times)
  = Nat.min (length pre_times) (length post_times).
Proof. unfold delta_t_list. now rewrite length_map, length_seq. Qed.

Lemma delta_t_list_nth (self : StdpTester) (pre_times post_times : list Q) (i : nat) :
  (i < Nat.min (length pre_times) (length post_times))%nat ->
  nth_error (delta_t_list self pre_times post_times) i
  = Some (if pre_before_post self
          then nth i post_times 0 - nth i pre_times 0
          else - (nth i post_times 0 - nth i pre_times 0)).
Proof.
  intros Hi. unfold delta_t_list.
  rewrite nth_error_map, nth_error_seq0 by assumption.
  now destruct (pre_before_post self).
Qed.

Lemma pair_up_spec (dt : list Q) (dg : list npfloat) :
  let n_min := Nat.min (length dg) (length dt) in
  delta_t (pair_up dt dg) = firstn n_min dt /\
  delta_g (pair_up dt dg) = firstn n_min dg /\
  length (delta_t (pair_up dt dg)) = n_min /\
  length (delta_g (pair_up dt dg)) = n_min /\
  printed (pair_up dt dg) = if (n_min =? 0)%nat then [no_pairs_warning] else [].
Proof.
  intros n_min. unfold pair_up. fold n_min.
  destruct (Nat.eqb_spec n_min 0) as [E|E]; cbn [delta_t delta_g printed].
  - rewrite E. repeat split; reflexivity.
  - rewrite !length_firstn. repeat split; lia.
Qed.

Lemma groups_total (d : list row) (num : Z) :
  num <> 0%Z -> exists blocks, groups d num = inr blocks.
Proof.
  intros Hnum. destruct (Z.lt_trichotomy num 0) as [H|[H|H]]; [|lia|].
  - rewrite groups_neg by assumption. now eexists.
  - rewrite groups_pos by assumption. now eexists.
Qed.

Lemma map_snd_combine {X Y : Type} (l1 : list X) (l2 : list Y) :
  length l1 = length l2 -> map snd (combine l1 l2) = l2.
Proof.
  revert l2. induction l1 as [|x l1 IH]; intros [|y l2] H; cbn in *;
    try reflexivity; try discriminate.
  f_equal. apply IH. lia.
Qed.

Lemma DataFrame_nonempty (data : list row) :
  data <> [] -> DataFrame data = inr data.
Proof. destruct data; [contradiction|reflexivity]. Qed.

(** What [process_measurement_data] returns, in terms of its stages. *)
Lemma process_measurement_data_stages (self : StdpTester) (df : list row)
    (rgroups pre_blocks post_blocks : list (list row)) :
  df <> [] ->
  read_groups self df = inr rgroups ->
  spike_pre_groups self df = inr pre_blocks ->
  spike_post_groups self df = inr post_blocks ->
  process_measurement_data self df
  = inr (pair_up (delta_t_list self (times_of pre_blocks) (times_of post_blocks))
                 (delta_g_list (currents_of self rgroups))).
Proof.
  intros Hne Hr Hpre Hpost. unfold process_measurement_data.
  now rewrite (DataFrame_nonempty df Hne), Hr, Hpre, Hpost.
Qed.

Lemma process_measurement_data_inv (self : StdpTester) (df : list row) (out : outcome) :
  process_measurement_data self df = inr out ->
  exists rgroups pre_blocks post_blocks,
    read_groups self df = inr rgroups /\
    spike_pre_groups self df = inr pre_blocks /\
    spike_post_groups self df = inr post_blocks /\
    out = pair_up (delta_t_list self (times_of pre_blocks) (times_of post_blocks))
                  (delta_g_list (currents_of self rgroups)).
Proof.
  unfold process_measurement_data.
  destruct df as [|r0 df]; [discriminate|]. cbn [DataFrame].
  destruct (read_groups self (r0 :: df)) as [e|rgroups]; [discriminate|].
  destruct (spike_pre_groups self (r0 :: df)) as [e|pre_blocks]; [discriminate|].
  destruct (spike_post_groups self (r0 :: df)) as [e|post_blocks]; [discriminate|].
  intros [= <-]. now exists rgroups, pre_blocks, post_blocks.
Qed.



(** The empty data set never reaches the grouping loops. *)
Lemma process_measurement_data_empty (self : StdpTester) :
  process_measurement_data self [] = inl (shape_error 5).
Proof. reflexivity. Qed.

(** C1, as the code has it. On a data set of at least one row and with
    non-zero block sizes the computation returns.  The delta-g series
    over the read-block means [I] has [length I - 1] entries; entry [i] is
    [(I[i+1] - I[i]) / I[i]] when [|I[i]| >= 1e-20] and the float NaN
    when [|I[i]| < 1e-20].  The returned array is that series cut to the
    common length [n_min] of the two series, so every entry below
    [n_min], a NaN included, keeps its position; and the exported table
    holds the returned array unchanged. *)
Theorem delta_g_nan_is_kept (self : StdpTester) (df : list row) :
  df <> [] -> read_num self <> 0%Z -> spike_num self <> 0%Z ->
  exists rgroups pre_blocks post_blocks out,
    read_groups self df = inr rgroups /\
    spike_pre_groups self df = inr pre_blocks /\
    spike_post_groups self df = inr post_blocks /\
    process_measurement_data self df = inr out /\
    let I := currents_of self rgroups in
    let series := delta_g_list I in
    let n_min :=
      Nat.min (length series)
              (length (delta_t_list self (times_of pre_blocks)
                                         (times_of post_blocks))) in
    length series = (length I - 1)%nat /\
    (forall i, (i < length I - 1)%nat ->
       (Qabs (nth i I 0) < tiny -> nth_error series i = Some NaN) /\
       (~ Qabs (nth i I 0) < tiny ->
        nth_error series i
        = Some (Num ((nth (i + 1) I 0 - nth i I 0) / nth i I 0)))) /\
    delta_g out = firstn n_min series /\
    length (delta_g out) = n_min /\
    (forall i, (i < n_min)%nat ->
       nth_error (delta_g out) i = nth_error series i) /\
    map snd (snd (save_delta_csv (delta_t out) (delta_g out))) = delta_g out.
Proof.
  intros Hne Hread Hspike.
  destruct (groups_total (masked (preV_col self) (V_read self) df) _ Hread)
    as (rgroups & Hr).
  destruct (groups_total (masked (preV_col self) (V_spike self) df) _ Hspike)
    as (pre_blocks & Hpre).
  destruct (groups_total (masked (postV_col self) (V_spike self) df) _ Hspike)
    as (post_blocks & Hpost).
  exists rgroups, pre_blocks, post_blocks. eexists.
  split; [exact Hr|]. split; [exact Hpre|]. split; [exact Hpost|].
  split; [apply (process_measurement_data_stages self df _ _ _ Hne Hr Hpre Hpost)|].
  intros I series n_min.
  set (dt := delta_t_list self (times_of pre_blocks) (times_of post_blocks)) in *.
  destruct (pair_up_spec dt series) as (Ht & Hg & Hlt & Hlg & _).
  fold n_min in Ht, Hg, Hlt, Hlg.
  split; [apply length_delta_g_list|].
  split.
  { intros i Hi. subst series. rewrite delta_g_list_nth by assumption. split.
    - intros Hlt0. apply Qltb_lt in Hlt0. now rewrite Hlt0.
    - intros Hge. destruct (Qltb (Qabs (nth i I 0)) tiny) eqn:E; [|reflexivity].
      apply Qltb_lt in E. contradiction. }
  split; [exact Hg|]. split; [exact Hlg|].
  split.
  { intros i Hi.
    change (nth_error (delta_g (pair_up dt series)) i = nth_error series i).
    rewrite Hg, nth_error_firstn.
    destruct (Nat.ltb_spec i n_min); [reflexivity | lia]. }
  change (map snd (snd (save_delta_csv (delta_t (pair_up dt series))
                                       (delta_g (pair_up dt series))))
          = delta_g (pair_up dt series)).
  unfold save_delta_csv. cbn [snd]. apply map_snd_combine. lia.
Qed.

End Deltas.

Lemma delta_g_nan_is_kept_witness :
  exists rgroups pre_blocks post_blocks out,
    Stdp.read_groups Bench.single_blocks Bench.zero_current_run = inr rgroups /\
    Stdp.spike_pre_groups Bench.single_blocks Bench.zero_current_run
    = inr pre_blocks /\
    Stdp.spike_post_groups Bench.single_blocks Bench.zero_current_run
    = inr post_blocks /\
    Stdp.process_measurement_data Bench.single_blocks Bench.zero_current_run
    = inr out /\
    let I := Stdp.currents_of Bench.single_blocks rgroups in
    let series := Stdp.delta_g_list I in
    let n_min :=
      Nat.min (length series)
              (length (Stdp.delta_t_list Bench.single_blocks
                         (Stdp.times_of pre_blocks) (Stdp.times_of post_blocks))) in
    length series = (length I - 1)%nat /\
    (forall i, (i < length I - 1)%nat ->
       (Qabs (nth i I 0) < Stdp.tiny -> nth_error series i = Some Stdp.NaN) /\
       (~ Qabs (nth i I 0) < Stdp.tiny ->
        nth_error series i
        = Some (Stdp.Num ((nth (i + 1) I 0 - nth i I 0) / nth i I 0)))) /\
    Stdp.delta_g out = firstn n_min series /\
    length (Stdp.delta_g out) = n_min /\
    (forall i, (i < n_min)%nat ->
       nth_error (Stdp.delta_g out) i = nth_error series i) /\
    map snd (snd (Stdp.save_delta_csv (Stdp.delta_t out) (Stdp.delta_g out)))
    = Stdp.delta_g out.
Proof.
  refine (delta_g_nan_is_kept Bench.single_blocks Bench.zero_current_run _ _ _);
    discriminate.
Defined.

(** C1, as stated, fails: a read block whose mean current is 0 yields the
    entry NaN, which is returned in the delta-g array and written to the
    exported table; it is not excluded. *)
Lemma delta_g_nan_exported :
  Stdp.process_measurement_data Bench.single_blocks Bench.zero_current_run
    = inr {| Stdp.printed := []; Stdp.delta_t := [1];
             Stdp.delta_g := [Stdp.NaN] |} /\
  snd (Stdp.save_delta_csv [1] [Stdp.NaN]) = [(1, Stdp.NaN)] /\
  ~ (forall out,
        Stdp.process_measurement_data Bench.single_blocks Bench.zero_current_run
          = inr out ->
        ~ In Stdp.NaN (Stdp.delta_g out)).
Proof.
  split; [reflexivity|]. split; [reflexivity|].
  intros H. apply (H _ eq_refl). now left.
Qed.

Section DeltaPairs.

Import Py Stdp.


End DeltaPairs.



Section SignSymmetry.

Import Py Stdp.

Variable self : StdpTester.

(** The tester of the reversed run: same parameters, flag flipped. *)
Let mirrored : StdpTester :=
  set_pre_before_post self (negb (pre_before_post self)).


Lemma filter_map_comm {X Y : Type} (f : Y -> bool) (g : X -> Y) (l : list X) :
  filter f (map g l) = map g (filter (fun x => f (g x)) l).
Proof.
  induction l as [|x l IH]; cbn; [reflexivity|].
  destruct (f (g x)); cbn; now rewrite IH.
Qed.

Lemma groups_map (g : row -> row) (d : list row) (num : Z) :
  groups (map g d) num
  = match groups d num with
    | inl e => inl e
    | inr blocks => inr (map (map g) blocks)
    end.
Proof.
  unfold groups. rewrite length_map.
  destruct (range_step (length d) num) as [e|idxs]; [reflexivity|].
  f_equal.
  rewrite (map_ext (fun idx => slice (map g d) idx (Z.to_nat (Z.of_nat idx + num)))
                   (fun idx => map g (slice d idx (Z.to_nat (Z.of_nat idx + num))))).
  2:{ intros idx. unfold slice. now rewrite skipn_map, firstn_map. }
  rewrite <- (map_map (fun idx => slice d idx (Z.to_nat (Z.of_nat idx + num))) (map g)).
  rewrite filter_map_comm. f_equal. apply filter_ext.
  intros block. now rewrite length_map.
Qed.










End SignSymmetry.

Section Classifier.

Import Py Sin.

Ltac decide_Qltb :=
  repeat match goal with
         | |- context [Qltb ?a ?b] =>
             let E := fresh "E" in
             destruct (Qltb a b) eqn:E;
             [ apply Qltb_lt in E
             | apply not_true_iff_false in E; rewrite Qltb_lt in E ]
         end.

(** The label as a function of the two slopes. *)
Lemma classify_slopes (k1 k2 : Q) :
  let label := if Qltb k1 0 && Qltb 0 k2 then "M1"%string
               else if Qltb k1 0 && Qltb k2 0 then "M2"%string
               else if Qltb 0 k1 && Qltb k2 0 then "M3"%string
               else if Qltb 0 k1 && Qltb 0 k2 then "M4"%string
               else "M0"%string in
  (k1 < 0 /\ 0 < k2 -> label = "M1"%string) /\
  (k1 < 0 /\ k2 < 0 -> label = "M2"%string) /\
  (0 < k1 /\ k2 < 0 -> label = "M3"%string) /\
  (0 < k1 /\ 0 < k2 -> label = "M4"%string) /\
  (label = "M0"%string <-> k1 == 0 \/ k2 == 0).
Proof.
  intros label. subst label.
  repeat split; decide_Qltb; cbn [andb]; intros H;
    try reflexivity; try discriminate; try lra;
    try (destruct H; lra).
  all: try (destruct (Qlt_le_dec k1 0); [lra|]; right; lra).
Qed.

Variable np_polyfit : list Q -> list Q -> Q * Q.

Lemma fit_linear_degenerate (x : list Z) (y : list Q) :
  (length x < 2)%nat -> fit_linear np_polyfit x y = (0, 0, 0).
Proof.
  intros H. unfold fit_linear.
  destruct (Nat.ltb_spec (length x) 2); [reflexivity|lia].
Qed.

Lemma fit_linear_polyfit (x : list Z) (y : list Q) :
  (2 <= length x)%nat ->
  fst (fit_linear np_polyfit x y) = np_polyfit (map inject_Z x) y.
Proof.
  intros H. unfold fit_linear.
  destruct (Nat.ltb_spec (length x) 2); [lia|].
  now destruct (np_polyfit (map inject_Z x) y).
Qed.

End Classifier.

Section LeastSquares.

Import Py Sin.

Lemma inject_Z_of_nat_S (n : nat) :
  inject_Z (Z.of_nat (S n)) == inject_Z (Z.of_nat n) + 1.
Proof. rewrite Nat2Z.inj_succ. unfold Z.succ. now rewrite inject_Z_plus. Qed.

Lemma sum_app (l1 l2 : list Q) : sum (l1 ++ l2) == sum l1 + sum l2.
Proof.
  induction l1 as [|x l1 IH]; cbn [app sum]; [ring|]. rewrite IH. ring.
Qed.

(** The residual sum of squares as a quadratic in the line's
    coefficients. *)
Lemma residual_ss_expand (x y : list Q) (a b : Q) :
  length x = length y ->
  residual_ss x y a b
  == sum (map (fun v => v * v) y)
     - 2 * a * sum (map (fun p => fst p * snd p) (combine x y))
     - 2 * b * sum y
     + a * a * sum (map (fun v => v * v) x)
     + 2 * a * b * sum x
     + b * b * inject_Z (Z.of_nat (length x)).
Proof.
  unfold residual_ss. revert y.
  induction x as [|u x IH]; intros [|v y] Hlen; try discriminate.
  - cbn. ring.
  - cbn [combine map sum fst snd length]. rewrite inject_Z_of_nat_S.
    rewrite IH by (cbn in Hlen; lia). ring.
Qed.

Lemma Qsquare_nonneg (q : Q) : 0 <= q * q.
Proof.
  unfold Qle. cbn. rewrite Z.mul_1_r. apply Z.square_nonneg.
Qed.

Lemma shifted_squares_nonneg (x : list Q) (A B : Q) :
  0 <= A * A * sum (map (fun v => v * v) x) + 2 * A * B * sum x
       + B * B * inject_Z (Z.of_nat (length x)).
Proof.
  induction x as [|u x IH].
  - cbn. ring_simplify. apply Qle_refl.
  - cbn [map sum length]. rewrite inject_Z_of_nat_S.
    pose proof (Qsquare_nonneg (A * u + B)) as Hsq.
    lra.
Qed.

(** Where the normal equations have a unique solution, [least_squares]
    is the line of least squares. *)
Lemma least_squares_minimises (x y : list Q) (a b : Q) :
  length x = length y ->
  ~ inject_Z (Z.of_nat (length x)) == 0 ->
  ~ inject_Z (Z.of_nat (length x)) * sum (map (fun v => v * v) x)
    - sum x * sum x == 0 ->
  residual_ss x y (fst (least_squares x y)) (snd (least_squares x y))
  <= residual_ss x y a b.
Proof.
  intros Hlen HN HD.
  rewrite !residual_ss_expand by assumption.
  unfold least_squares. cbn [fst snd].
  set (N := inject_Z (Z.of_nat (length x))) in *.
  set (sx := sum x) in *. set (sy := sum y).
  set (sxx := sum (map (fun v => v * v) x)) in *.
  set (sxy := sum (map (fun p => fst p * snd p) (combine x y))).
  set (syy := sum (map (fun v => v * v) y)).
  set (m := (N * sxy - sx * sy) / (N * sxx - sx * sx)).
  set (c := (sy - m * sx) / N).
  assert (E1 : m * sx + c * N - sy == 0).
  { subst c. field. exact HN. }
  assert (E2 : m * sxx + c * sx - sxy == 0).
  { subst c m. field. split; assumption. }
  pose proof (shifted_squares_nonneg x (a - m) (b - c)) as Hq.
  fold N sx sxx in Hq.
  assert (Hdiff :
    (syy - 2 * a * sxy - 2 * b * sy + a * a * sxx + 2 * a * b * sx + b * b * N)
    - (syy - 2 * m * sxy - 2 * c * sy + m * m * sxx + 2 * m * c * sx + c * c * N)
    == ((a - m) * (a - m) * sxx + 2 * (a - m) * (b - c) * sx + (b - c) * (b - c) * N)
       + 2 * (a - m) * (m * sxx + c * sx - sxy)
       + 2 * (b - c) * (m * sx + c * N - sy)) by ring.
  rewrite E1, E2 in Hdiff.
  lra.
Qed.

(** The abscissae [1 .. n] of a half. *)
Lemma range_from_1_S (n : nat) :
  range 1 (Z.of_nat (S n) + 1)
  = range 1 (Z.of_nat n + 1) ++ [(Z.of_nat n + 1)%Z].
Proof.
  unfold range.
  replace (Z.to_nat (Z.of_nat (S n) + 1 - 1)) with (S n) by lia.
  replace (Z.to_nat (Z.of_nat n + 1 - 1)) with n by lia.
  rewrite seq_S, map_app. cbn [map Nat.add]. do 2 f_equal. lia.
Qed.

Lemma length_range_from_1 (n : nat) : length (range 1 (Z.of_nat n + 1)) = n.
Proof. unfold range. rewrite length_map, length_seq. lia. Qed.

Lemma range_from_1_indices (n : nat) :
  range 1 (Z.of_nat n + 1) = map Z.of_nat (seq 1 n).
Proof.
  unfold range. replace (Z.to_nat (Z.of_nat n + 1 - 1)) with n by lia.
  rewrite <- seq_shift, map_map. apply map_ext. intros i. lia.
Qed.

Lemma index_sums (n : nat) :
  let N := inject_Z (Z.of_nat n) in
  let x := map inject_Z (range 1 (Z.of_nat n + 1)) in
  2 * sum x == N * (N + 1) /\
  6 * sum (map (fun v => v * v) x) == N * (N + 1) * (2 * N + 1).
Proof.
  induction n as [|n [IH1 IH2]].
  - cbn. split; reflexivity.
  - cbv zeta. rewrite range_from_1_S, !map_app, !sum_app.
    cbn [map sum]. rewrite inject_Z_of_nat_S, inject_Z_plus.
    cbv zeta in IH1, IH2.
    set (N := inject_Z (Z.of_nat n)) in *.
    set (sx := sum (map inject_Z (range 1 (Z.of_nat n + 1)))) in *.
    set (sxx := sum (map (fun v => v * v)
                         (map inject_Z (range 1 (Z.of_nat n + 1))))) in *.
    change (inject_Z 1) with 1.
    split.
    + setoid_replace (2 * (sx + (N + 1 + 0))) with (2 * sx + 2 * (N + 1)) by ring.
      rewrite IH1. ring.
    + setoid_replace (6 * (sxx + ((N + 1) * (N + 1) + 0)))
        with (6 * sxx + 6 * ((N + 1) * (N + 1))) by ring.
      rewrite IH2. ring.
Qed.

Lemma index_fit_determined (n : nat) :
  (2 <= n)%nat ->
  let x := map inject_Z (range 1 (Z.of_nat n + 1)) in
  ~ inject_Z (Z.of_nat (length x)) == 0 /\
  ~ inject_Z (Z.of_nat (length x)) * sum (map (fun v => v * v) x)
    - sum x * sum x == 0.
Proof.
  intros Hn x. subst x. rewrite length_map, length_range_from_1.
  destruct (index_sums n) as [H1 H2]. cbv zeta in H1, H2.
  set (N := inject_Z (Z.of_nat n)) in *.
  set (sx := sum (map inject_Z (range 1 (Z.of_nat n + 1)))) in *.
  set (sxx := sum (map (fun v => v * v)
                       (map inject_Z (range 1 (Z.of_nat n + 1))))) in *.
  assert (HN : 2 <= N).
  { subst N. change 2 with (inject_Z 2). rewrite <- Zle_Qle. lia. }
  split; [lra|].
  intros HD.
  assert (H12 : 12 * (N * sxx - sx * sx) == N * N * ((N + 1) * (N - 1))).
  { setoid_replace (12 * (N * sxx - sx * sx))
      with (2 * N * (6 * sxx) - 3 * ((2 * sx) * (2 * sx))) by ring.
    rewrite H1, H2. ring. }
  rewrite HD in H12.
  assert (Hpos1 : 0 < N * N) by (apply Qmult_lt_0_compat; lra).
  assert (Hpos2 : 0 < (N + 1) * (N - 1)) by (apply Qmult_lt_0_compat; lra).
  pose proof (Qmult_lt_0_compat _ _ Hpos1 Hpos2) as Hpos.
  rewrite <- H12 in Hpos. lra.
Qed.

End LeastSquares.

Section DetermineMType.

Import Py Sin.

Variable np_polyfit : list Q -> list Q -> Q * Q.

(** On the indices [1 .. n] of a half of at least two points the
    least-squares line is determined, and it minimises the sum of
    squared residuals. *)
Lemma least_squares_on_indices (n : nat) (y : list Q) (a b : Q) :
  length y = n -> (2 <= n)%nat ->
  let x := map inject_Z (range 1 (Z.of_nat n + 1)) in
  residual_ss x y (fst (least_squares x y)) (snd (least_squares x y))
  <= residual_ss x y a b.
Proof.
  intros Hy Hn x.
  destruct (index_fit_determined n Hn) as [HN HD].
  apply least_squares_minimises; try assumption.
  subst x. now rewrite length_map, length_range_from_1.
Qed.

Lemma determine_m_type_label (currents : list Q) :
  let half := (length currents / 2)%nat in
  let k1 := fst (fst (fit_linear np_polyfit (range 1 (Z.of_nat half + 1))
                                 (firstn half currents))) in
  let k2 := fst (fst (fit_linear np_polyfit
                        (range 1 (Z.of_nat (length currents) - Z.of_nat half + 1))
                        (skipn half currents))) in
  determine_m_type np_polyfit currents
  = if Qltb k1 0 && Qltb 0 k2 then "M1"%string
    else if Qltb k1 0 && Qltb k2 0 then "M2"%string
    else if Qltb 0 k1 && Qltb k2 0 then "M3"%string
    else if Qltb 0 k1 && Qltb 0 k2 then "M4"%string
    else "M0"%string.
Proof.
  intros half k1 k2. subst k1 k2. unfold determine_m_type. fold half.
  destruct (fit_linear np_polyfit (range 1 (Z.of_nat half + 1))
              (firstn half currents)) as [[k1 c1] r1].
  destruct (fit_linear np_polyfit
              (range 1 (Z.of_nat (length currents) - Z.of_nat half + 1))
              (skipn half currents)) as [[k2 c2] r2].
  reflexivity.
Qed.

(** C6. The classifier splits the sequence at [len // 2] into [y1] and
    [y2] and fits each half against the indices [1 .. its length]: a
    half with fewer than 2 points gives slope 0, intercept 0 (and r2 0);
    a longer half gets the slope and intercept that [np.polyfit] returns
    for it.  With [k1] and [k2] the two slopes so obtained, the label is
    M1, M2, M3 or M4 by their sign pair, and it is M0 exactly when one of
    them is zero. *)
Theorem determine_m_type_spec (currents : list Q) :
  let half := (length currents / 2)%nat in
  let x1 := range 1 (Z.of_nat half + 1) in
  let x2 := range 1 (Z.of_nat (length currents) - Z.of_nat half + 1) in
  let y1 := firstn half currents in
  let y2 := skipn half currents in
  let fit1 := fit_linear np_polyfit x1 y1 in
  let fit2 := fit_linear np_polyfit x2 y2 in
  let k1 := fst (fst fit1) in
  let k2 := fst (fst fit2) in
  currents = y1 ++ y2 /\
  length y1 = half /\
  x1 = map Z.of_nat (seq 1 (length y1)) /\
  x2 = map Z.of_nat (seq 1 (length y2)) /\
  ((length y1 < 2)%nat -> fit1 = (0, 0, 0)) /\
  ((length y2 < 2)%nat -> fit2 = (0, 0, 0)) /\
  ((2 <= length y1)%nat -> fst fit1 = np_polyfit (map inject_Z x1) y1) /\
  ((2 <= length y2)%nat -> fst fit2 = np_polyfit (map inject_Z x2) y2) /\
  (k1 < 0 /\ 0 < k2 -> determine_m_type np_polyfit currents = "M1"%string) /\
  (k1 < 0 /\ k2 < 0 -> determine_m_type np_polyfit currents = "M2"%string) /\
  (0 < k1 /\ k2 < 0 -> determine_m_type np_polyfit currents = "M3"%string) /\
  (0 < k1 /\ 0 < k2 -> determine_m_type np_polyfit currents = "M4"%string) /\
  (determine_m_type np_polyfit currents = "M0"%string <-> k1 == 0 \/ k2 == 0).
Proof.
  intros half x1 x2 y1 y2 fit1 fit2 k1 k2.
  assert (Hhalf : (half <= length currents)%nat).
  { subst half. apply Nat.Div0.div_le_upper_bound. lia. }
  assert (Hy1 : length y1 = half).
  { subst y1. rewrite length_firstn. lia. }
  assert (Hy2 : length y2 = (length currents - half)%nat).
  { subst y2. apply length_skipn. }
  assert (Hx2 : x2 = range 1 (Z.of_nat (length currents - half) + 1)).
  { subst x2. f_equal. lia. }
  split; [subst y1 y2; symmetry; apply firstn_skipn|].
  split; [exact Hy1|].
  split; [subst x1; rewrite Hy1; apply range_from_1_indices|].
  split; [rewrite Hx2, Hy2; apply range_from_1_indices|].
  split.
  { intros H. apply fit_linear_degenerate. subst x1.
    rewrite length_range_from_1. lia. }
  split.
  { intros H. apply fit_linear_degenerate. rewrite Hx2, length_range_from_1. lia. }
  split.
  { intros H. apply fit_linear_polyfit. subst x1.
    rewrite length_range_from_1. lia. }
  split.
  { intros H. apply fit_linear_polyfit. rewrite Hx2, length_range_from_1. lia. }
  rewrite (determine_m_type_label currents).
  apply classify_slopes.
Qed.

End DetermineMType.

Section SrdpConductance.

Import Py Srdp.

Variable self : SrdpTester.

Lemma isclose_within (v target : Q) :
  Qabs (v - target) <= 1 # 100 -> isclose v target (1 # 100) = true.
Proof.
  intros H. unfold isclose, rtol. apply Qle_bool_iff.
  pose proof (Qabs_nonneg target) as Hn.
  assert (Hr : 0 <= (1 # 100000) * Qabs target).
  { apply Qmult_le_0_compat; [discriminate | exact Hn]. }
  lra.
Qed.

Lemma column_truediv_nonzero (cells : list Q) (d : Q) :
  ~ d == 0 -> column_truediv cells d = inr (map (fun c => c / d) cells).
Proof.
  intros Hd. induction cells as [|c cells IH]; cbn [column_truediv map].
  - reflexivity.
  - unfold truediv. destruct (Qeq_bool d 0) eqn:E.
    + apply Qeq_bool_iff in E. contradiction.
    + now rewrite IH.
Qed.

Lemma column_truediv_zero (c : Q) (cells : list Q) (d : Q) :
  d == 0 -> column_truediv (c :: cells) d = inl ZeroDivisionError.
Proof.
  intros Hd. cbn [column_truediv]. unfold truediv.
  apply Qeq_bool_iff in Hd. now rewrite Hd.
Qed.

Lemma srdp_DataFrame_nonempty (data : list row) :
  data <> [] -> DataFrame data = inr data.
Proof. destruct data; [contradiction|reflexivity]. Qed.

(** C10. For a data set of at least one row: with [V_read <> 0], every
    row whose measured voltage is within 0.01 V of [V_read] is a read row
    and its reported conductance is its current divided by [V_read].
    With [V_read = 0] every row within 0.01 V of zero is a read row, and
    as soon as one exists the unguarded division raises
    [ZeroDivisionError]. *)
Theorem srdp_conductance_needs_nonzero_read (df : list row) :
  df <> [] ->
  let read_data := filter (read_mask self) df in
  (~ V_read self == 0 ->
   process_measurement_data self df
   = inr (map Time read_data, map Voltage read_data, map Current read_data,
          map (fun r => Current r / V_read self) read_data) /\
   forall r, In r df -> Qabs (Voltage r - V_read self) <= 1 # 100 ->
             In r read_data) /\
  (V_read self == 0 ->
   forall r, In r df -> Qabs (Voltage r) <= 1 # 100 ->
             In r read_data /\
             process_measurement_data self df = inl ZeroDivisionError).
Proof.
  intros Hne read_data. split.
  - intros Hd. split.
    + unfold process_measurement_data.
      rewrite (srdp_DataFrame_nonempty df Hne). fold read_data.
      rewrite column_truediv_nonzero by assumption.
      now rewrite map_map.
    + intros r Hin Hclose. apply filter_In. split; [exact Hin|].
      now apply isclose_within.
  - intros Hd r Hin Hclose.
    assert (Hr : In r read_data).
    { apply filter_In. split; [exact Hin|]. apply isclose_within.
      setoid_replace (Voltage r - V_read self) with (Voltage r); [exact Hclose|].
      rewrite Hd. ring. }
    split; [exact Hr|].
    unfold process_measurement_data.
    rewrite (srdp_DataFrame_nonempty df Hne). fold read_data.
    destruct read_data as [|r0 rest]; [contradiction|].
    cbn [map]. now rewrite column_truediv_zero.
Qed.

End SrdpConductance.

Lemma srdp_conductance_needs_nonzero_read_witness :
  Srdp.process_measurement_data Srdp.init Bench.srdp_run
  = inr ([0; 2], [1 # 10; 101 # 1000], [2 * Bench.nA; 3 * Bench.nA],
         [2 * Bench.nA / (1 # 10); 3 * Bench.nA / (1 # 10)]) /\
  forall r, In r Bench.srdp_run ->
            Qabs (Srdp.Voltage r - (1 # 10)) <= 1 # 100 ->
            In r (filter (Srdp.read_mask Srdp.init) Bench.srdp_run).
Proof.
  refine (proj1 (srdp_conductance_needs_nonzero_read Srdp.init Bench.srdp_run _) _).
  - discriminate.
  - intros H. discriminate H.
Defined.

(** A run that measured nothing hands over the 1-D empty array, and the
    frame construction raises on it whatever the read voltage. *)
Example srdp_empty_data_raises :
  Srdp.process_measurement_data Srdp.init [] = inl (Py.shape_error 4).
Proof. reflexivity. Qed.

(** With a zero read voltage a run that holds one row near 0 V cannot be
    processed. *)
Example srdp_zero_read_raises :
  Srdp.process_measurement_data Bench.srdp_zero_read Bench.srdp_idle_run
  = inl Py.ZeroDivisionError.
Proof. reflexivity. Qed.

Section SameRows.

Import Py Stdp.

Variable self : StdpTester.

Lemma Forall2_map_pointwise {X Y : Type} (R : Y -> Y -> Prop) (f g : X -> Y)
    (l : list X) :
  (forall x, R (f x) (g x)) -> Forall2 R (map f l) (map g l).
Proof. intros H. induction l; cbn; constructor; auto. Qed.

(** On unchanged rows, flipping the flag alone also exchanges the columns
    that feed the pre and post spike times, and the sign correction
    cancels the exchange: the delta-t series is the same. *)
Remark delta_t_same_rows_flag_flipped (df : list row) (pre_times post_times : list Q) :
  let mirrored := set_pre_before_post self (negb (pre_before_post self)) in
  spike_pre_groups mirrored df = spike_post_groups self df /\
  spike_post_groups mirrored df = spike_pre_groups self df /\
  Forall2 Qeq (delta_t_list mirrored post_times pre_times)
              (delta_t_list self pre_times post_times).
Proof.
  intros mirrored. subst mirrored.
  unfold spike_pre_groups, spike_post_groups, preV_col, postV_col, delta_t_list.
  cbn [pre_before_post set_pre_before_post V_spike spike_num].
  rewrite (Nat.min_comm (length post_times)).
  destruct (pre_before_post self); cbn [negb];
    (split; [reflexivity|]; split; [reflexivity|]);
    apply Forall2_map_pointwise; intros i; ring.
Qed.

End SameRows.

(** ** Scenarios *)

(** Read blocks with mean currents 1.0, 1.2, 0.6 give delta-g 0.2, -0.5. *)
Example delta_g_scenario :
  exists g0 g1,
    Stdp.delta_g_list [1; 12 # 10; 6 # 10] = [Stdp.Num g0; Stdp.Num g1] /\
    g0 == 2 # 10 /\ g1 == - (5 # 10).
Proof. eexists. eexists. split; [reflexivity|]. split; reflexivity. Qed.

(** A read block whose mean current is 1e-21 gives NaN at its position. *)
Example delta_g_tiny_scenario :
  nth_error (Stdp.delta_g_list [1; 1 # 1000000000000000000000; 6 # 10]) 1
  = Some Stdp.NaN.
Proof. reflexivity. Qed.

(** Slope pairs (-1,+1), (-1,-1), (+1,-1), (+1,+1) and (0,+1), with a
    fit that returns the first slope for the half that starts at 1 and
    the second for the other half. *)
Example classification_boundary :
  let fit (k1 k2 : Q) (x y : list Q) :=
    if Qeq_bool (hd 0 y) 1 then (k1, 0) else (k2, 0) in
  Sin.determine_m_type (fit (- (1)) 1) [1; 2; 3; 4] = "M1"%string /\
  Sin.determine_m_type (fit (- (1)) (- (1))) [1; 2; 3; 4] = "M2"%string /\
  Sin.determine_m_type (fit 1 (- (1))) [1; 2; 3; 4] = "M3"%string /\
  Sin.determine_m_type (fit 1 1) [1; 2; 3; 4] = "M4"%string /\
  Sin.determine_m_type (fit 0 1) [1; 2; 3; 4] = "M0"%string.
Proof. repeat split; reflexivity. Qed.

(** Two iterations measured pre-before-post, and the same samples with
    the channels exchanged measured post-before-pre. *)
Example sign_symmetry_scenario :
  (exists dg,
      Stdp.process_measurement_data Bench.double_blocks Bench.two_iterations
      = inr {| Stdp.printed := []; Stdp.delta_t := [2; 3]; Stdp.delta_g := dg |}) /\
  (exists dg,
      Stdp.process_measurement_data
        (Stdp.set_pre_before_post Bench.double_blocks false)
        (map Stdp.swap_channels Bench.two_iterations)
      = inr {| Stdp.printed := []; Stdp.delta_t := [-2; -3]; Stdp.delta_g := dg |}).
Proof. split; eexists; vm_compute; reflexivity. Qed.

(** The default parameters and timing 5: both channels get 32 steps. *)
Example generate_step_scenario :
  length (fst (Stdp.generate_step Stdp.init ([], []) 5)) = 32%nat /\
  length (snd (Stdp.generate_step Stdp.init ([], []) 5)) = 32%nat /\
  length (fst (Stdp.generate_voltage_sequences Stdp.init)) = 106%nat.
Proof. repeat split; reflexivity. Qed.

Lemma determine_m_type_spec_witness :
  Sin.determine_m_type Sin.least_squares [2; 1; 1; 2] = "M1"%string.
Proof.
  apply (proj1 (proj2 (proj2 (proj2 (proj2 (proj2 (proj2 (proj2 (proj2
           (determine_m_type_spec Sin.least_squares [2; 1; 1; 2])))))))))).
  split; vm_compute; reflexivity.
Defined.


(** * Further properties of the STDP run *)

Section ExecutorTrace.

Import Py Stdp.

Variable env : lab.
Variable self : StdpTester.
Variables chanA_seq chanB_seq : list Q.
Variable start : Q.

(** [time.sleep] accepts the dwell. *)
Hypothesis off_time_nonneg : 0 <= off_time self.

(** The loop with an instrument that answers: every row it appends, the
    commands it sends and the counters it leaves. *)
Lemma measure_loop_trace (indices : list nat) :
  forall (data : list row) (st : smu_state),
  (forall j, (j < 2 * length indices)%nat -> reply env (queries st + j) <> None) ->
  exists rows,
    measure_loop env self chanA_seq chanB_seq start indices data st
      = (inr (data ++ rows),
         {| log := log st
                   ++ flat_map (fun i => [write_source_levelv smua (nth i chanA_seq 0);
                                          write_source_levelv smub (nth i chanB_seq 0);
                                          sleep (off_time self);
                                          query_measure_i smua;
                                          query_measure_i smub]) indices;
            queries := queries st + 2 * length indices;
            ticks := ticks st + length indices |}) /\
    length rows = length indices /\
    forall j i, nth_error indices j = Some i ->
      exists r, nth_error rows j = Some r /\
        r_time r = now env (ticks st + j) - start /\
        r_vA r = nth i chanA_seq 0 /\
        r_vB r = nth i chanB_seq 0 /\
        reply env (queries st + 2 * j) = Some (r_iA r) /\
        reply env (queries st + 2 * j + 1) = Some (r_iB r).
Proof.
  induction indices as [|i indices IH]; intros data st Hreply.
  - exists []. cbn [measure_loop flat_map length]. unfold ret.
    rewrite !app_nil_r, Nat.mul_0_r, !Nat.add_0_r.
    split; [now destruct st|]. split; [reflexivity|].
    intros j i Hj. destruct j; discriminate.
  - pose proof (measure_loop_cons env self chanA_seq chanB_seq start
                  off_time_nonneg i indices data st) as E.
    cbv zeta in E. rewrite E. clear E.
    pose proof (Hreply 0%nat) as H0. pose proof (Hreply 1%nat) as H1.
    rewrite Nat.add_0_r in H0. rewrite Nat.add_1_r in H1.
    cbn [length] in H0, H1.
    destruct (reply env (queries st)) as [iA|] eqn:EA;
      [|exfalso; apply H0; [lia|reflexivity]].
    destruct (reply env (S (queries st))) as [iB|] eqn:EB;
      [|exfalso; apply H1; [lia|reflexivity]].
    match goal with
    | |- context [measure_loop _ _ _ _ _ _ (data ++ [?r]) ?s] =>
        destruct (IH (data ++ [r]) s) as (rows & Hrun & Hlen & Hrows);
        [|exists (r :: rows)]
    end.
    { intros j Hj. cbn [queries].
      replace (S (S (queries st)) + j)%nat with (queries st + (2 + j))%nat by lia.
      apply Hreply. cbn [length]. lia. }
    cbn [queries ticks log] in Hrun, Hrows.
    rewrite Hrun, <- app_assoc. cbn [app flat_map length].
    split.
    { f_equal. f_equal.
      - now rewrite <- !app_assoc.
      - lia.
      - lia. }
    split; [now rewrite Hlen|].
    intros [|j] i' Hj.
    + cbn in Hj. injection Hj as <-. eexists. split; [reflexivity|].
      cbn [r_time r_vA r_vB r_iA r_iB].
      rewrite Nat.mul_0_r, !Nat.add_0_r, Nat.add_1_r. auto.
    + cbn [nth_error] in Hj |- *.
      destruct (Hrows j i' Hj) as (r & Hr & Ht & HvA & HvB & HiA & HiB).
      exists r. split; [exact Hr|].
      replace (ticks st + S j)%nat with (S (ticks st) + j)%nat by lia.
      replace (queries st + 2 * S j)%nat with (S (S (queries st)) + 2 * j)%nat by lia.
      auto.
Qed.

End ExecutorTrace.

Section RunStdpTestTrace.

Import Py Stdp.

Variable env : lab.
Variable self : StdpTester.

(** [time.sleep] accepts the dwell. *)
Hypothesis off_time_nonneg : 0 <= off_time self.

Lemma nth_error_rebase (rows : list row) (j : nat) (r0 r : row) :
  nth_error rows 0 = Some r0 ->
  nth_error rows j = Some r ->
  nth_error (rebase rows) j
  = Some {| r_time := r_time r - r_time r0; r_vA := r_vA r; r_vB := r_vB r;
            r_iA := r_iA r; r_iB := r_iB r |}.
Proof.
  intros H0 Hj. destruct rows as [|first rows]; [discriminate|].
  cbn in H0. injection H0 as ->. unfold rebase.
  now rewrite nth_error_map, Hj.
Qed.

(** A run with an instrument that answers, in full: the returned rows,
    the commands sent and the counters. *)
Lemma run_stdp_test_exact (pre_sequence post_sequence : list Q) (st : smu_state) :
  let chanA_seq := if pre_before_post self then pre_sequence else post_sequence in
  let chanB_seq := if pre_before_post self then post_sequence else pre_sequence in
  let n := Nat.min (length pre_sequence) (length post_sequence) in
  (forall j, (j < 2 * n)%nat -> reply env (queries st + j) <> None) ->
  exists data,
    run_stdp_test env self pre_sequence post_sequence st
    = (inr data,
       {| log := ((log st
                   ++ [reset_device; default_setup; set_source_function "voltage";
                       set_level_i 0; set_limit_i (1 # 10000000);
                       set_nplc (nplc self); set_output true;
                       write_source_func smua; write_source_func smub;
                       write_source_output smua true;
                       write_source_output smub true])
                  ++ flat_map (fun p => [write_source_levelv smua (fst p);
                                         write_source_levelv smub (snd p);
                                         sleep (off_time self);
                                         query_measure_i smua;
                                         query_measure_i smub])
                       (combine chanA_seq chanB_seq))
                 ++ [write_source_output smua false;
                     write_source_output smub false];
          queries := queries st + 2 * n;
          ticks := S (ticks st) + n |}) /\
    length data = n /\
    forall j, (j < n)%nat ->
      exists r, nth_error data j = Some r /\
        r_time r == now env (S (ticks st) + j) - now env (S (ticks st)) /\
        r_vA r = nth j chanA_seq 0 /\
        r_vB r = nth j chanB_seq 0 /\
        reply env (queries st + 2 * j) = Some (r_iA r) /\
        reply env (queries st + 2 * j + 1) = Some (r_iB r).
Proof.
  intros chanA_seq chanB_seq n Hreply.
  pose proof (run_stdp_test_unfold env self pre_sequence post_sequence st) as E.
  cbv zeta in E. fold chanA_seq chanB_seq in E. rewrite E. clear E.
  assert (Hn : Nat.min (length chanA_seq) (length chanB_seq) = n).
  { subst chanA_seq chanB_seq n. destruct (pre_before_post self); lia. }
  rewrite Hn.
  match goal with
  | |- context [measure_loop _ _ _ _ ?t ?i ?d ?st0] =>
      destruct (measure_loop_trace env self chanA_seq chanB_seq t off_time_nonneg i d st0)
        as (rows & Hrun & Hlen & Hrows)
  end.
  { intros j Hj. rewrite length_seq in Hj. cbn [queries]. now apply Hreply. }
  cbn [queries ticks log app] in Hrun, Hrows. rewrite length_seq in Hrun, Hlen.
  rewrite Hrun. cbn [log queries ticks].
  rewrite (flat_map_through
             (fun p => [write_source_levelv smua (fst p);
                        write_source_levelv smub (snd p);
                        sleep (off_time self);
                        query_measure_i smua; query_measure_i smub])
             (fun i => (nth i chanA_seq 0, nth i chanB_seq 0))).
  assert (Hc : map (fun i => (nth i chanA_seq 0, nth i chanB_seq 0)) (seq 0 n)
               = combine chanA_seq chanB_seq).
  { rewrite <- Hn. apply nth_seq_combine. }
  rewrite Hc.
  exists (rebase rows). split; [reflexivity|].
  split; [now rewrite length_rebase|].
  intros j Hj.
  destruct (Hrows j j (nth_error_seq0 n j Hj))
    as (r & Hr & Ht & HvA & HvB & HiA & HiB).
  destruct (Hrows 0%nat 0%nat (nth_error_seq0 n 0 ltac:(lia)))
    as (r0 & Hr0 & Ht0 & _).
  eexists. split; [apply (nth_error_rebase rows j r0 r Hr0 Hr)|].
  cbn [r_time r_vA r_vB r_iA r_iB]. rewrite Ht, Ht0, Nat.add_0_r.
  split; [ring|]. auto.
Qed.

(** Row [j] of a completed run with a non-negative dwell [off_time]:
    its time is the clock difference to the first row's stamp, its levels are those at index [j] of the channel
    sequences, and its currents are the replies to queries [2j] (channel
    A) and [2j+1] (channel B). *)
Theorem run_stdp_test_samples (pre_sequence post_sequence : list Q)
    (st : smu_state) :
  let chanA_seq := if pre_before_post self then pre_sequence else post_sequence in
  let chanB_seq := if pre_before_post self then post_sequence else pre_sequence in
  let n := Nat.min (length pre_sequence) (length post_sequence) in
  (forall j, (j < 2 * n)%nat -> reply env (queries st + j) <> None) ->
  exists data,
    fst (run_stdp_test env self pre_sequence post_sequence st) = inr data /\
    length data = n /\
    forall j, (j < n)%nat ->
      exists r, nth_error data j = Some r /\
        r_time r == now env (S (ticks st) + j) - now env (S (ticks st)) /\
        r_vA r = nth j chanA_seq 0 /\
        r_vB r = nth j chanB_seq 0 /\
        reply env (queries st + 2 * j) = Some (r_iA r) /\
        reply env (queries st + 2 * j + 1) = Some (r_iB r).
Proof.
  intros chanA_seq chanB_seq n Hreply.
  destruct (run_stdp_test_exact pre_sequence post_sequence st Hreply)
    as (data & Hrun & Hlen & Hrows).
  exists data. rewrite Hrun. auto.
Qed.

(** With a clock that never runs backwards and a non-negative dwell
    [off_time], the times of a completed run are non-negative and
    non-decreasing in acquisition order. *)
Theorem run_stdp_test_times_monotone (pre_sequence post_sequence : list Q)
    (st : smu_state) :
  let n := Nat.min (length pre_sequence) (length post_sequence) in
  (forall j, (j < 2 * n)%nat -> reply env (queries st + j) <> None) ->
  (forall a b, (a <= b)%nat -> now env a <= now env b) ->
  exists data,
    fst (run_stdp_test env self pre_sequence post_sequence st) = inr data /\
    forall j k r r', (j <= k)%nat ->
      nth_error data j = Some r -> nth_error data k = Some r' ->
      0 <= r_time r /\ r_time r <= r_time r'.
Proof.
  intros n Hreply Hclock.
  destruct (run_stdp_test_exact pre_sequence post_sequence st Hreply)
    as (data & Hrun & Hlen & Hrows).
  exists data. rewrite Hrun. split; [reflexivity|].
  intros j k r r' Hjk Hj Hk.
  assert (Hkd : (k < length data)%nat) by (apply nth_error_Some; congruence).
  assert (Hkn : (k < n)%nat) by lia.
  destruct (Hrows j ltac:(lia)) as (rj & Hrj & Htj & _).
  destruct (Hrows k Hkn) as (rk & Hrk & Htk & _).
  assert (rj = r) by congruence. assert (rk = r') by congruence. subst rj rk.
  rewrite Htj, Htk.
  pose proof (Hclock (S (ticks st)) (S (ticks st) + j)%nat ltac:(lia)).
  pose proof (Hclock (S (ticks st) + j)%nat (S (ticks st) + k)%nat ltac:(lia)).
  split; lra.
Qed.

(** The commands of a completed run with a non-negative dwell
    [off_time], in order: the setup, then per step
    the two levels, the dwell and the two current queries, then both
    outputs off; it makes two queries per step and reads the clock once
    before the loop and once per step. *)
Theorem run_stdp_test_command_trace (pre_sequence post_sequence : list Q)
    (st : smu_state) :
  let chanA_seq := if pre_before_post self then pre_sequence else post_sequence in
  let chanB_seq := if pre_before_post self then post_sequence else pre_sequence in
  let n := Nat.min (length pre_sequence) (length post_sequence) in
  (forall j, (j < 2 * n)%nat -> reply env (queries st + j) <> None) ->
  snd (run_stdp_test env self pre_sequence post_sequence st)
  = {| log := ((log st
                ++ [reset_device; default_setup; set_source_function "voltage";
                    set_level_i 0; set_limit_i (1 # 10000000);
                    set_nplc (nplc self); set_output true;
                    write_source_func smua; write_source_func smub;
                    write_source_output smua true;
                    write_source_output smub true])
               ++ flat_map (fun p => [write_source_levelv smua (fst p);
                                      write_source_levelv smub (snd p);
                                      sleep (off_time self);
                                      query_measure_i smua;
                                      query_measure_i smub])
                    (combine chanA_seq chanB_seq))
              ++ [write_source_output smua false;
                  write_source_output smub false];
       queries := queries st + 2 * n;
       ticks := S (ticks st) + n |}.
Proof.
  intros chanA_seq chanB_seq n Hreply.
  destruct (run_stdp_test_exact pre_sequence post_sequence st Hreply)
    as (data & Hrun & _).
  now rewrite Hrun.
Qed.

End RunStdpTestTrace.

Lemma lab_healthy_answers (n q : nat) :
  forall j, (j < n)%nat -> Stdp.reply Bench.lab_healthy (q + j) <> None.
Proof. intros j _. cbn. discriminate. Qed.

Lemma lab_healthy_clock (a b : nat) :
  (a <= b)%nat -> Stdp.now Bench.lab_healthy a <= Stdp.now Bench.lab_healthy b.
Proof.
  intros H. unfold Bench.lab_healthy. cbn [Stdp.now].
  apply Qplus_le_r. rewrite <- Zle_Qle. lia.
Qed.

Lemma run_stdp_test_samples_witness :
  exists data,
    fst (Stdp.run_stdp_test Bench.lab_healthy Stdp.init
           [1#10; 1#2; 0] [0; 0; 1#2; 0; 0] Stdp.power_on) = inr data /\
    length data = 3%nat /\
    forall j, (j < 3)%nat ->
      exists r, nth_error data j = Some r /\
        Stdp.r_time r == Stdp.now Bench.lab_healthy (1 + j)
                         - Stdp.now Bench.lab_healthy 1 /\
        Stdp.r_vA r = nth j [1#10; 1#2; 0] 0 /\
        Stdp.r_vB r = nth j [0; 0; 1#2; 0; 0] 0 /\
        Stdp.reply Bench.lab_healthy (0 + 2 * j) = Some (Stdp.r_iA r) /\
        Stdp.reply Bench.lab_healthy (0 + 2 * j + 1) = Some (Stdp.r_iB r).
Proof.
  exact (run_stdp_test_samples Bench.lab_healthy Stdp.init
           init_off_time_nonneg
           [1#10; 1#2; 0] [0; 0; 1#2; 0; 0] Stdp.power_on
           (lab_healthy_answers 6 0)).
Defined.

Lemma run_stdp_test_times_monotone_witness :
  exists data,
    fst (Stdp.run_stdp_test Bench.lab_healthy Stdp.init
           [1#10; 1#2; 0] [0; 0; 1#2; 0; 0] Stdp.power_on) = inr data /\
    forall j k r r', (j <= k)%nat ->
      nth_error data j = Some r -> nth_error data k = Some r' ->
      0 <= Stdp.r_time r /\ Stdp.r_time r <= Stdp.r_time r'.
Proof.
  exact (run_stdp_test_times_monotone Bench.lab_healthy Stdp.init
           init_off_time_nonneg
           [1#10; 1#2; 0] [0; 0; 1#2; 0; 0] Stdp.power_on
           (lab_healthy_answers 6 0) lab_healthy_clock).
Defined.

Lemma run_stdp_test_command_trace_witness :
  Stdp.switches_off
    (Stdp.log (snd (Stdp.run_stdp_test Bench.lab_healthy Stdp.init
                      [1#10; 1#2; 0] [0; 0; 1#2; 0; 0] Stdp.power_on))) = true /\
  Stdp.queries (snd (Stdp.run_stdp_test Bench.lab_healthy Stdp.init
                       [1#10; 1#2; 0] [0; 0; 1#2; 0; 0] Stdp.power_on)) = 6%nat /\
  Stdp.ticks (snd (Stdp.run_stdp_test Bench.lab_healthy Stdp.init
                     [1#10; 1#2; 0] [0; 0; 1#2; 0; 0] Stdp.power_on)) = 4%nat.
Proof.
  rewrite (run_stdp_test_command_trace Bench.lab_healthy Stdp.init
           init_off_time_nonneg
             [1#10; 1#2; 0] [0; 0; 1#2; 0; 0] Stdp.power_on
             (lab_healthy_answers 6 0)).
  repeat split.
Defined.

(** * Further properties of the delta computation *)

Section TimeOrigin.

Import Py Stdp.

Variable self : StdpTester.
Variable t0 : Q.

(** A row with its time moved by [t0], as [rebase] does to every row. *)
Let shifted (r : row) : row :=
  {| r_time := r_time r - t0; r_vA := r_vA r; r_vB := r_vB r;
     r_iA := r_iA r; r_iB := r_iB r |}.

Lemma groups_blocks_nonempty (d : list row) (num : Z) (blocks : list (list row)) :
  groups d num = inr blocks -> Forall (fun block => block <> []) blocks.
Proof.
  unfold groups, range_step.
  destruct (Z.eqb_spec num 0); [discriminate|].
  destruct (num <? 0)%Z.
  - intros [= <-]. constructor.
  - intros [= <-]. apply Forall_forall. intros block Hin.
    apply filter_In in Hin as [_ Hlen]. apply Z.eqb_eq in Hlen.
    intros ->. cbn in Hlen. congruence.
Qed.

Lemma masked_shifted (c : column) (target : Q) (df : list row) :
  c <> Time_s ->
  masked c target (map shifted df) = map shifted (masked c target df).
Proof.
  intros Hc. unfold masked. rewrite filter_map_comm. f_equal.
  apply filter_ext. intros r. destruct c; try reflexivity. contradiction.
Qed.

Lemma currents_of_shifted (blocks : list (list row)) :
  currents_of self (map (map shifted) blocks) = currents_of self blocks.
Proof.
  unfold currents_of. rewrite map_map. apply map_ext. intros block.
  rewrite map_map. f_equal. apply map_ext. intros r.
  unfold preI_col. now destruct (pre_before_post self).
Qed.

Lemma times_of_shifted (blocks : list (list row)) :
  Forall (fun block => block <> []) blocks ->
  times_of (map (map shifted) blocks) = map (fun t => t - t0) (times_of blocks).
Proof.
  intros Hne. unfold times_of. rewrite !map_map.
  apply map_ext_in. intros block Hin.
  rewrite Forall_forall in Hne. specialize (Hne block Hin).
  destruct block as [|r block]; [contradiction|]. reflexivity.
Qed.

Lemma nth_map_in_range {X Y : Type} (g : X -> Y) (l : list X) (i : nat) (dx : X) (dy : Y) :
  (i < length l)%nat -> nth i (map g l) dy = g (nth i l dx).
Proof.
  intros Hi. rewrite (nth_indep _ dy (g dx)) by now rewrite length_map.
  apply map_nth.
Qed.

Lemma Forall2_map_in {X Y : Type} (R : Y -> Y -> Prop) (f g : X -> Y) (l : list X) :
  (forall x, In x l -> R (f x) (g x)) -> Forall2 R (map f l) (map g l).
Proof.
  induction l as [|x l IH]; intros H; cbn; constructor.
  - apply H. now left.
  - apply IH. intros y Hy. apply H. now right.
Qed.

Lemma Forall2_firstn {X : Type} (R : X -> X -> Prop) (n : nat) (l1 l2 : list X) :
  Forall2 R l1 l2 -> Forall2 R (firstn n l1) (firstn n l2).
Proof.
  intros H. revert n. induction H; intros [|n]; cbn; constructor; auto.
Qed.

Lemma delta_t_list_shifted (pre_times post_times : list Q) :
  Forall2 Qeq
    (delta_t_list self (map (fun t => t - t0) pre_times)
                       (map (fun t => t - t0) post_times))
    (delta_t_list self pre_times post_times).
Proof.
  unfold delta_t_list. rewrite !length_map.
  apply Forall2_map_in. intros i Hi. apply in_seq in Hi.
  rewrite (nth_map_in_range _ post_times i 0 0) by lia.
  rewrite (nth_map_in_range _ pre_times i 0 0) by lia.
  destruct (pre_before_post self); cbn [negb]; ring.
Qed.

Lemma pair_up_Qeq (dt dt' : list Q) (dg : list npfloat) :
  Forall2 Qeq dt' dt ->
  Forall2 Qeq (delta_t (pair_up dt' dg)) (delta_t (pair_up dt dg)) /\
  delta_g (pair_up dt' dg) = delta_g (pair_up dt dg) /\
  printed (pair_up dt' dg) = printed (pair_up dt dg).
Proof.
  intros H. unfold pair_up. rewrite (Forall2_length H).
  destruct (Nat.min (length dg) (length dt) =? 0)%nat; cbn [delta_t delta_g printed].
  - repeat split. constructor.
  - repeat split. now apply Forall2_firstn.
Qed.

Lemma process_measurement_data_shifted (df : list row) :
  match process_measurement_data self df,
        process_measurement_data self (map shifted df) with
  | inr o, inr o' =>
      Forall2 Qeq (delta_t o') (delta_t o) /\
      delta_g o' = delta_g o /\
      printed o' = printed o
  | inl e, inl e' => e = e'
  | _, _ => False
  end.
Proof.
  destruct df as [|r0 df]; [reflexivity|].
  unfold process_measurement_data.
  rewrite !DataFrame_nonempty by discriminate.
  unfold read_groups, spike_pre_groups, spike_post_groups.
  set (d := r0 :: df).
  assert (HpreV : preV_col self <> Time_s)
    by (unfold preV_col; destruct (pre_before_post self); discriminate).
  assert (HpostV : postV_col self <> Time_s)
    by (unfold postV_col; destruct (pre_before_post self); discriminate).
  rewrite !masked_shifted by assumption. rewrite !groups_map.
  destruct (groups (masked (preV_col self) (V_read self) d) (read_num self))
    as [e|rgroups]; [reflexivity|].
  destruct (groups (masked (preV_col self) (V_spike self) d) (spike_num self))
    as [e|pre_blocks] eqn:Epre; [reflexivity|].
  destruct (groups (masked (postV_col self) (V_spike self) d) (spike_num self))
    as [e|post_blocks] eqn:Epost; [reflexivity|].
  rewrite currents_of_shifted.
  rewrite !times_of_shifted by (eapply groups_blocks_nonempty; eassumption).
  apply pair_up_Qeq, delta_t_list_shifted.
Qed.

End TimeOrigin.

Section RebaseInvariance.

Import Py Stdp.

(** Rebasing the times of a data set changes neither delta series: the
    delta-t values are equal as numbers, the delta-g values and the
    warning are identical, and an error is the same error. *)
Theorem process_measurement_data_rebase_invariant (self : StdpTester)
    (df : list row) :
  match process_measurement_data self df,
        process_measurement_data self (rebase df) with
  | inr o, inr o' =>
      Forall2 Qeq (delta_t o') (delta_t o) /\
      delta_g o' = delta_g o /\
      printed o' = printed o
  | inl e, inl e' => e = e'
  | _, _ => False
  end.
Proof.
  destruct df as [|first df].
  - cbn [rebase]. destruct (process_measurement_data self []) as [e|o].
    + reflexivity.
    + repeat split. clear. induction (delta_t o); constructor; [reflexivity|assumption].
  - apply (process_measurement_data_shifted self (r_time first) (first :: df)).
Qed.

End RebaseInvariance.

Section PairCounts.

Import Py Stdp.

Variable self : StdpTester.

Lemma length_groups_pos (d : list row) (num : Z) :
  (0 < num)%Z ->
  exists blocks, groups d num = inr blocks /\
                 length blocks = (length d / Z.to_nat num)%nat.
Proof.
  intros H. rewrite groups_pos by assumption. eexists. split; [reflexivity|].
  now rewrite length_map, length_seq.
Qed.

(** With positive block sizes and at least one row of data, the number
    of delta pairs returned is the smaller of: the number of complete read
    blocks minus one, and the number of complete spike blocks on either
    channel. *)
Theorem delta_pairs_count (df : list row) :
  df <> [] -> (0 < read_num self)%Z -> (0 < spike_num self)%Z ->
  let reads := length (masked (preV_col self) (V_read self) df) in
  let pre_spikes := length (masked (preV_col self) (V_spike self) df) in
  let post_spikes := length (masked (postV_col self) (V_spike self) df) in
  let r := Z.to_nat (read_num self) in
  let s := Z.to_nat (spike_num self) in
  let pairs := Nat.min (reads / r - 1) (Nat.min (pre_spikes / s) (post_spikes / s)) in
  exists out,
    process_measurement_data self df = inr out /\
    length (delta_t out) = pairs /\
    length (delta_g out) = pairs.
Proof.
  intros Hne Hr Hs reads pre_spikes post_spikes r s pairs.
  destruct (length_groups_pos (masked (preV_col self) (V_read self) df) _ Hr)
    as (rgroups & Hrg & Hlr).
  destruct (length_groups_pos (masked (preV_col self) (V_spike self) df) _ Hs)
    as (pre_blocks & Hpre & Hlpre).
  destruct (length_groups_pos (masked (postV_col self) (V_spike self) df) _ Hs)
    as (post_blocks & Hpost & Hlpost).
  eexists.
  split; [apply (process_measurement_data_stages self df _ _ _ Hne Hrg Hpre Hpost)|].
  match goal with
  | |- context [pair_up ?dt ?dg] =>
      destruct (pair_up_spec dt dg) as (_ & _ & Hlt & Hlg & _)
  end.
  rewrite Hlt, Hlg, length_delta_g_list, length_delta_t_list.
  unfold currents_of, times_of. rewrite !length_map, Hlr, Hlpre, Hlpost.
  split; reflexivity.
Qed.

(** On a data set of at least one row, a block size of zero makes the
    grouping loop raise; a negative one makes it find no block, which
    ends in the empty result and the warning. *)
Theorem process_measurement_data_degenerate_block_size (df : list row) :
  df <> [] ->
  (read_num self = 0%Z \/ spike_num self = 0%Z ->
   process_measurement_data self df
   = inl (ValueError "range() arg 3 must not be zero")) /\
  (read_num self <> 0%Z -> spike_num self <> 0%Z ->
   (read_num self < 0)%Z \/ (spike_num self < 0)%Z ->
   process_measurement_data self df
   = inr {| printed := [no_pairs_warning]; delta_t := []; delta_g := [] |}).
Proof.
  intros Hne. split.
  - intros Hzero. unfold process_measurement_data, read_groups, spike_pre_groups.
    rewrite (DataFrame_nonempty df Hne).
    destruct (Z.eq_dec (read_num self) 0) as [E|E].
    + now rewrite E, groups_zero.
    + destruct Hzero as [Hz|Hz]; [contradiction|].
      destruct (groups_total (masked (preV_col self) (V_read self) df) _ E)
        as (rgroups & ->).
      now rewrite Hz, groups_zero.
  - intros Hr Hs Hneg.
    destruct (groups_total (masked (preV_col self) (V_read self) df) _ Hr)
      as (rgroups & Hrg).
    destruct (groups_total (masked (preV_col self) (V_spike self) df) _ Hs)
      as (pre_blocks & Hpre).
    destruct (groups_total (masked (postV_col self) (V_spike self) df) _ Hs)
      as (post_blocks & Hpost).
    rewrite (process_measurement_data_stages self df _ _ _ Hne Hrg Hpre Hpost).
    destruct Hneg as [Hn|Hn].
    + unfold read_groups in Hrg. rewrite groups_neg in Hrg by assumption.
      injection Hrg as <-. reflexivity.
    + unfold spike_pre_groups in Hpre. rewrite groups_neg in Hpre by assumption.
      injection Hpre as <-. cbn [times_of map].
      unfold delta_t_list, pair_up. cbn [length Nat.min seq map].
      now rewrite Nat.min_0_r.
Qed.

End PairCounts.

Section NanPositions.

Import Py Stdp.

(** The delta-g series holds a NaN exactly when some read current other
    than the last one is smaller than 1e-20 in magnitude. *)
Theorem delta_g_nan_iff (read_currents : list Q) :
  In NaN (delta_g_list read_currents) <->
  exists i, (i + 1 < length read_currents)%nat /\
            Qabs (nth i read_currents 0) < tiny.
Proof.
  unfold delta_g_list. rewrite in_map_iff. split.
  - intros (i & Hi & Hin). apply in_seq in Hin. exists i. split; [lia|].
    destruct (Qltb (Qabs (nth i read_currents 0)) tiny) eqn:E; [|discriminate].
    now apply Qltb_lt.
  - intros (i & Hi & Hlt). exists i. split.
    + apply Qltb_lt in Hlt. now rewrite Hlt.
    + apply in_seq. lia.
Qed.

End NanPositions.

Lemma delta_pairs_count_witness :
  exists out,
    Stdp.process_measurement_data Bench.double_blocks Bench.two_iterations = inr out /\
    length (Stdp.delta_t out) = 2%nat /\
    length (Stdp.delta_g out) = 2%nat.
Proof.
  refine (delta_pairs_count Bench.double_blocks Bench.two_iterations _ _ _);
    [discriminate | reflexivity | reflexivity].
Defined.

Lemma process_measurement_data_degenerate_block_size_witness :
  Stdp.process_measurement_data (Stdp.set_block_sizes Stdp.init 5 0)
    Bench.two_iterations
  = inl (Py.ValueError "range() arg 3 must not be zero").
Proof.
  refine (proj1 (process_measurement_data_degenerate_block_size
                   (Stdp.set_block_sizes Stdp.init 5 0) Bench.two_iterations _) _).
  - discriminate.
  - right. reflexivity.
Defined.

Lemma delta_g_nan_iff_witness :
  In Stdp.NaN (Stdp.delta_g_list [0; 1; 2]).
Proof.
  apply (proj2 (delta_g_nan_iff [0; 1; 2])).
  exists 0%nat. split; [cbn; lia | reflexivity].
Defined.

(** * Further properties of the sequence generators *)

Section GeneratorLength.

Import Py Stdp.

Variable self : StdpTester.

Hypothesis read_num_nonneg : (0 <= read_num self)%Z.
Hypothesis spike_num_nonneg : (0 <= spike_num self)%Z.
Hypothesis active_num_nonneg : (0 <= active_num self)%Z.

(** With non-negative segment counts both generated sequences have the
    same number of steps: for each timing value [t], twice the read,
    spike and active counts, the stop count and [int(t)] hold steps (none
    when [t] is negative). *)
Theorem generate_voltage_sequences_length :
  let steps_of t :=
    (2 * Z.to_nat (read_num self) + 2 * Z.to_nat (spike_num self)
     + 2 * Z.to_nat (active_num self) + Z.to_nat (stop_num self)
     + Z.to_nat (int t))%nat in
  length (fst (generate_voltage_sequences self))
    = list_sum (map steps_of (time_num self)) /\
  length (snd (generate_voltage_sequences self))
    = list_sum (map steps_of (time_num self)).
Proof.
  intros steps_of.
  rewrite generate_voltage_sequences_concat. cbn [fst snd].
  induction (time_num self) as [|t ts [IH1 IH2]]; cbn [map concat list_sum].
  - split; reflexivity.
  - rewrite !length_app, IH1, IH2.
    rewrite <- (generate_step_same_length self read_num_nonneg spike_num_nonneg
                  active_num_nonneg t).
    rewrite generate_step_layout. cbn [fst].
    rewrite !length_app, !repeat_length.
    rewrite !Z2Nat.inj_add by assumption.
    subst steps_of. cbn beta. unfold list_sum. cbn [fold_right]. split; lia.
Qed.

End GeneratorLength.

Lemma generate_voltage_sequences_length_witness :
  length (fst (Stdp.generate_voltage_sequences Stdp.init)) = 106%nat /\
  length (snd (Stdp.generate_voltage_sequences Stdp.init)) = 106%nat.
Proof.
  refine (generate_voltage_sequences_length Stdp.init _ _ _);
    vm_compute; discriminate.
Defined.

(** * Further properties of the sine tester *)

Section PeakCurrents.

Import Py Sin.

Lemma length_filter_disjoint {X : Type} (p q : X -> bool) (l : list X) :
  (forall x, In x l -> p x = true -> q x = true -> False) ->
  (length (filter p l) + length (filter q l) <= length l)%nat.
Proof.
  induction l as [|x l IH]; intros H; cbn [filter length]; [lia|].
  assert (IH' : (length (filter p l) + length (filter q l) <= length l)%nat).
  { apply IH. intros y Hy. apply H. now right. }
  pose proof (H x (or_introl eq_refl)) as Hx.
  destruct (p x), (q x); cbn [length]; try lia.
Qed.

(** Two targets at least [2 * tol] apart never select the same row, so
    the two extractions together hold at most as many currents as there
    are rows. *)
Theorem extract_peak_currents_disjoint (data : list sample) (t1 t2 tol : Q) :
  2 * tol <= Qabs (t1 - t2) ->
  (forall row, In row data ->
     ~ (Qabs (s_voltage row - t1) < tol /\ Qabs (s_voltage row - t2) < tol)) /\
  (length (extract_peak_currents data t1 tol)
   + length (extract_peak_currents data t2 tol) <= length data)%nat.
Proof.
  intros Hapart.
  assert (Hrow : forall v, Qabs (v - t1) < tol -> Qabs (v - t2) < tol -> False).
  { intros v H1 H2.
    pose proof (Qabs_triangle (v - t2) (- (v - t1))) as Htri.
    rewrite Qabs_opp in Htri.
    assert (E : v - t2 + - (v - t1) == t1 - t2) by ring.
    rewrite E in Htri. lra. }
  split.
  - intros row _ [H1 H2]. exact (Hrow _ H1 H2).
  - unfold extract_peak_currents. rewrite !length_map.
    apply length_filter_disjoint.
    intros row _ H1 H2. apply Qltb_lt in H1, H2. exact (Hrow _ H1 H2).
Qed.

End PeakCurrents.

Lemma extract_peak_currents_disjoint_witness :
  (forall row,
      In row [ {| Sin.s_time := 0; Sin.s_voltage := 1; Sin.s_current := 2 |};
               {| Sin.s_time := 1; Sin.s_voltage := -1; Sin.s_current := 3 |} ] ->
      ~ (Qabs (Sin.s_voltage row - 1) < 1 # 20 /\
         Qabs (Sin.s_voltage row - - (1)) < 1 # 20)) /\
  (length (Sin.extract_peak_currents
             [ {| Sin.s_time := 0; Sin.s_voltage := 1; Sin.s_current := 2 |};
               {| Sin.s_time := 1; Sin.s_voltage := -1; Sin.s_current := 3 |} ]
             1 (1 # 20))
   + length (Sin.extract_peak_currents
               [ {| Sin.s_time := 0; Sin.s_voltage := 1; Sin.s_current := 2 |};
                 {| Sin.s_time := 1; Sin.s_voltage := -1; Sin.s_current := 3 |} ]
               (- (1)) (1 # 20)) <= 2)%nat.
Proof.
  refine (extract_peak_currents_disjoint _ 1 (- (1)) (1 # 20) _).
  vm_compute. discriminate.
Defined.

Section ClassifierEdges.

Import Py Sin.

Variable np_polyfit : list Q -> list Q -> Q * Q.

(** A sequence of fewer than four currents is always labelled M0: its
    first half has fewer than two points, so its slope is 0. *)
Theorem determine_m_type_short (currents : list Q) :
  (length currents < 4)%nat ->
  determine_m_type np_polyfit currents = "M0"%string.
Proof.
  intros Hlen. rewrite determine_m_type_label.
  set (half := (length currents / 2)%nat).
  assert (Hhalf : (half < 2)%nat).
  { subst half. apply Nat.Div0.div_lt_upper_bound. lia. }
  rewrite (fit_linear_degenerate np_polyfit (range 1 (Z.of_nat half + 1))
             (firstn half currents))
    by (rewrite length_range_from_1; exact Hhalf).
  cbn [fst]. reflexivity.
Qed.

Lemma sum_affine (x : list Q) (a b : Q) :
  sum (map (fun v => a * v + b) x)
  == a * sum x + b * inject_Z (Z.of_nat (length x)).
Proof.
  induction x as [|u x IH].
  - cbn. ring.
  - cbn [map sum length]. rewrite inject_Z_of_nat_S, IH. ring.
Qed.

Lemma sum_products_affine (x : list Q) (a b : Q) :
  sum (map (fun p => fst p * snd p) (combine x (map (fun v => a * v + b) x)))
  == a * sum (map (fun v => v * v) x) + b * sum x.
Proof.
  induction x as [|u x IH].
  - cbn. ring.
  - cbn [map combine sum fst snd]. rewrite IH. ring.
Qed.

(** On points that lie on a line, the least-squares line is that line. *)
Lemma least_squares_affine (x : list Q) (a b : Q) :
  ~ inject_Z (Z.of_nat (length x)) == 0 ->
  ~ inject_Z (Z.of_nat (length x)) * sum (map (fun v => v * v) x)
    - sum x * sum x == 0 ->
  fst (least_squares x (map (fun v => a * v + b) x)) == a /\
  snd (least_squares x (map (fun v => a * v + b) x)) == b.
Proof.
  intros HN HD. unfold least_squares. cbn [fst snd].
  rewrite sum_products_affine, sum_affine.
  set (N := inject_Z (Z.of_nat (length x))) in *.
  set (sx := sum x) in *.
  set (sxx := sum (map (fun v => v * v) x)) in *.
  assert (Hslope : (N * (a * sxx + b * sx) - sx * (a * sx + b * N))
                   / (N * sxx - sx * sx) == a).
  { field. exact HD. }
  split; [exact Hslope|].
  rewrite Hslope. field. exact HN.
Qed.

Lemma least_squares_segment (n : nat) (a b : Q) :
  (2 <= n)%nat ->
  let x := range 1 (Z.of_nat n + 1) in
  let y := map (fun i => a * inject_Z i + b) x in
  fst (least_squares (map inject_Z x) y) == a /\
  snd (least_squares (map inject_Z x) y) == b.
Proof.
  intros Hn x y.
  destruct (index_fit_determined n Hn) as [HN HD]. fold x in HN, HD.
  assert (Hy : y = map (fun v => a * v + b) (map inject_Z x)).
  { subst y. now rewrite map_map. }
  rewrite Hy. now apply least_squares_affine.
Qed.

(** Currents that lie exactly on the line [a * i + b] over the indices
    [1 .. n], [n >= 2], have that line as their least-squares line; so
    [fit_linear] returns a slope within [eps] of [a] and an intercept
    within [eps] of [b] whenever the slope and intercept that
    [np.polyfit] returns for them are within [eps] of the least-squares
    ones.  The third component is the r2 score of that returned line. *)
Theorem fit_linear_recovers_line (n : nat) (a b eps : Q) :
  (2 <= n)%nat ->
  let x := range 1 (Z.of_nat n + 1) in
  let y := map (fun i => a * inject_Z i + b) x in
  let exact := least_squares (map inject_Z x) y in
  let fit := fit_linear np_polyfit x y in
  Qabs (fst (np_polyfit (map inject_Z x) y) - fst exact) <= eps ->
  Qabs (snd (np_polyfit (map inject_Z x) y) - snd exact) <= eps ->
  Qabs (fst (fst fit) - a) <= eps /\
  Qabs (snd (fst fit) - b) <= eps /\
  snd fit
  = r2_score y (map (fun v => fst (fst fit) * v + snd (fst fit))
                    (map inject_Z x)).
Proof.
  intros Hn x y exact fit Hslope Hicpt.
  destruct (least_squares_segment n a b Hn) as [Ha Hb].
  fold x in Ha, Hb. fold y in Ha, Hb. fold exact in Ha, Hb.
  assert (Hfit : fst fit = np_polyfit (map inject_Z x) y).
  { subst fit. apply fit_linear_polyfit. subst x.
    rewrite length_range_from_1. exact Hn. }
  split; [|split].
  - rewrite Hfit. now rewrite <- Ha.
  - rewrite Hfit. now rewrite <- Hb.
  - subst fit. unfold fit_linear.
    destruct (Nat.ltb_spec (length x) 2) as [Hlt|_].
    { subst x. rewrite length_range_from_1 in Hlt. lia. }
    now destruct (np_polyfit (map inject_Z x) y).
Qed.

Lemma Qltb_compat (a a' b b' : Q) :
  a == a' -> b == b' -> Qltb a b = Qltb a' b'.
Proof.
  intros Ha Hb.
  destruct (Qltb a b) eqn:E1, (Qltb a' b') eqn:E2; try reflexivity.
  - apply Qltb_lt in E1. rewrite Ha, Hb in E1. apply Qltb_lt in E1. congruence.
  - apply Qltb_lt in E2. rewrite <- Ha, <- Hb in E2. apply Qltb_lt in E2. congruence.
Qed.

(** A slope known to within [eps] of a value larger than [eps] in
    magnitude has the sign of that value. *)
Lemma sign_within (k a eps : Q) :
  Qabs (k - a) <= eps -> eps < Qabs a ->
  (a < 0 -> k < 0) /\ (0 < a -> 0 < k).
Proof.
  intros Hk Ha. apply Qabs_Qle_condition in Hk. destruct Hk as [Hk1 Hk2].
  split; intros Hs.
  - rewrite (Qabs_neg a) in Ha by lra. lra.
  - rewrite (Qabs_pos a) in Ha by lra. lra.
Qed.

(** A sequence made of two exact line segments, the first over [h >= 2]
    points with slope [a1] and the second over [h] or [h + 1] points with
    slope [a2], is labelled by the signs of [a1] and [a2] whenever the
    slopes that [np.polyfit] returns for the two segments are within
    [eps] of the least-squares slopes and [a1], [a2] are larger than
    [eps] in magnitude; the label is then never M0. *)
Theorem determine_m_type_two_segments (h h2 : nat) (a1 b1 a2 b2 eps : Q) :
  (2 <= h)%nat -> h2 = h \/ h2 = S h ->
  let x1 := map inject_Z (range 1 (Z.of_nat h + 1)) in
  let x2 := map inject_Z (range 1 (Z.of_nat h2 + 1)) in
  let seg1 := map (fun v => a1 * v + b1) x1 in
  let seg2 := map (fun v => a2 * v + b2) x2 in
  let currents := seg1 ++ seg2 in
  Qabs (fst (np_polyfit x1 seg1) - fst (least_squares x1 seg1)) <= eps ->
  Qabs (fst (np_polyfit x2 seg2) - fst (least_squares x2 seg2)) <= eps ->
  eps < Qabs a1 -> eps < Qabs a2 ->
  (a1 < 0 /\ 0 < a2 -> determine_m_type np_polyfit currents = "M1"%string) /\
  (a1 < 0 /\ a2 < 0 -> determine_m_type np_polyfit currents = "M2"%string) /\
  (0 < a1 /\ a2 < 0 -> determine_m_type np_polyfit currents = "M3"%string) /\
  (0 < a1 /\ 0 < a2 -> determine_m_type np_polyfit currents = "M4"%string) /\
  determine_m_type np_polyfit currents <> "M0"%string.
Proof.
  intros Hh Hh2 x1 x2 seg1 seg2 currents Hacc1 Hacc2 He1 He2.
  assert (Hh2' : (2 <= h2)%nat) by (destruct Hh2; lia).
  assert (Hl1 : length seg1 = h)
    by (subst seg1 x1; now rewrite !length_map, length_range_from_1).
  assert (Hl2 : length seg2 = h2)
    by (subst seg2 x2; now rewrite !length_map, length_range_from_1).
  assert (Hlen : length currents = (h + h2)%nat)
    by (subst currents; rewrite length_app; lia).
  assert (Hhalf : (length currents / 2 = h)%nat).
  { rewrite Hlen. destruct Hh2 as [-> | ->].
    - replace (h + h)%nat with (h * 2)%nat by lia. now apply Nat.div_mul.
    - replace (h + S h)%nat with (1 + h * 2)%nat by lia.
      now rewrite Nat.div_add. }
  assert (Hf : firstn h currents = seg1).
  { subst currents. rewrite <- Hl1. rewrite firstn_app, Nat.sub_diag, firstn_all.
    cbn. apply app_nil_r. }
  assert (Hs : skipn h currents = seg2).
  { subst currents. rewrite <- Hl1. rewrite skipn_app, Nat.sub_diag, skipn_all.
    reflexivity. }
  assert (Hx2 : (Z.of_nat (length currents) - Z.of_nat h + 1 = Z.of_nat h2 + 1)%Z)
    by lia.
  assert (Hseg1 : seg1 = map (fun i => a1 * inject_Z i + b1) (range 1 (Z.of_nat h + 1)))
    by (subst seg1 x1; now rewrite map_map).
  assert (Hseg2 : seg2 = map (fun i => a2 * inject_Z i + b2) (range 1 (Z.of_nat h2 + 1)))
    by (subst seg2 x2; now rewrite map_map).
  destruct (least_squares_segment h a1 b1 Hh) as [Ha1 _].
  destruct (least_squares_segment h2 a2 b2 Hh2') as [Ha2 _].
  rewrite <- Hseg1 in Ha1. rewrite <- Hseg2 in Ha2.
  fold x1 in Ha1. fold x2 in Ha2.
  rewrite Ha1 in Hacc1. rewrite Ha2 in Hacc2.
  pose proof (determine_m_type_label np_polyfit currents) as Hlabel.
  cbv zeta in Hlabel. rewrite Hhalf, Hf, Hs, Hx2 in Hlabel.
  assert (Hk1 : fst (fst (fit_linear np_polyfit (range 1 (Z.of_nat h + 1)) seg1))
                = fst (np_polyfit x1 seg1)).
  { rewrite fit_linear_polyfit by (now rewrite length_range_from_1). reflexivity. }
  assert (Hk2 : fst (fst (fit_linear np_polyfit (range 1 (Z.of_nat h2 + 1)) seg2))
                = fst (np_polyfit x2 seg2)).
  { rewrite fit_linear_polyfit by (now rewrite length_range_from_1). reflexivity. }
  rewrite Hk1, Hk2 in Hlabel.
  set (k1 := fst (np_polyfit x1 seg1)) in *.
  set (k2 := fst (np_polyfit x2 seg2)) in *.
  destruct (sign_within k1 a1 eps Hacc1 He1) as [Hn1 Hp1].
  destruct (sign_within k2 a2 eps Hacc2 He2) as [Hn2 Hp2].
  destruct (classify_slopes k1 k2) as (HM1 & HM2 & HM3 & HM4 & HM0).
  cbv zeta in HM1, HM2, HM3, HM4, HM0.
  rewrite <- Hlabel in HM1, HM2, HM3, HM4, HM0.
  split; [intros [H1 H2]; apply HM1; auto|].
  split; [intros [H1 H2]; apply HM2; auto|].
  split; [intros [H1 H2]; apply HM3; auto|].
  split; [intros [H1 H2]; apply HM4; auto|].
  intros HM. apply HM0 in HM.
  assert (Hne1 : ~ a1 == 0).
  { intros E. rewrite E in He1. pose proof (Qabs_nonneg (k1 - a1)).
    change (Qabs 0) with 0 in He1. lra. }
  assert (Hne2 : ~ a2 == 0).
  { intros E. rewrite E in He2. pose proof (Qabs_nonneg (k2 - a2)).
    change (Qabs 0) with 0 in He2. lra. }
  destruct HM as [HM|HM].
  - destruct (Q_dec a1 0) as [[Hlt|Hgt]|Heq]; [| |contradiction].
    + apply Hn1 in Hlt. lra.
    + apply Hp1 in Hgt. lra.
  - destruct (Q_dec a2 0) as [[Hlt|Hgt]|Heq]; [| |contradiction].
    + apply Hn2 in Hlt. lra.
    + apply Hp2 in Hgt. lra.
Qed.

End ClassifierEdges.

Lemma determine_m_type_short_witness :
  Sin.determine_m_type Sin.least_squares [1; 2; 3] = "M0"%string.
Proof.
  apply (determine_m_type_short Sin.least_squares [1; 2; 3]). cbn. lia.
Defined.

Lemma fit_linear_recovers_line_witness :
  let x := Py.range 1 (Z.of_nat 3 + 1) in
  let y := map (fun i => (1 # 2) * inject_Z i + 3) x in
  let fit := Sin.fit_linear Bench.perturbed_fit x y in
  Qabs (fst (fst fit) - (1 # 2)) <= 1 # 1000000000000000 /\
  Qabs (snd (fst fit) - 3) <= 1 # 1000000000000000 /\
  snd fit
  = Sin.r2_score y (map (fun v => fst (fst fit) * v + snd (fst fit))
                        (map inject_Z x)).
Proof.
  apply (fit_linear_recovers_line Bench.perturbed_fit 3 (1 # 2) 3
           (1 # 1000000000000000)).
  - lia.
  - vm_compute. discriminate.
  - vm_compute. discriminate.
Defined.

Lemma determine_m_type_two_segments_witness :
  Sin.determine_m_type Bench.perturbed_fit
    (map (fun v => - (1) * v + 5) (map inject_Z (Py.range 1 (Z.of_nat 2 + 1)))
     ++ map (fun v => 2 * v + 1) (map inject_Z (Py.range 1 (Z.of_nat 3 + 1))))
  = "M1"%string.
Proof.
  refine (proj1 (determine_m_type_two_segments Bench.perturbed_fit 2 3 (- (1)) 5 2 1
                   (1 # 1000000000000000)
                   ltac:(lia) (or_intror eq_refl) _ _ _ _) _).
  - vm_compute. discriminate.
  - vm_compute. discriminate.
  - reflexivity.
  - reflexivity.
  - split; reflexivity.
Defined.

Section SineDegenerate.

Import Py Sin.

Variable np_sin : Q -> Q.
Variable np_pi : Q.

Lemma list_mul_nil {X : Type} (n : Z) : list_mul (@nil X) n = [].
Proof. unfold list_mul. induction (Z.to_nat n); cbn; auto. Qed.

Lemma list_mul_nonpositive {X : Type} (l : list X) (n : Z) :
  (n <= 0)%Z -> list_mul l n = [].
Proof.
  intros H. unfold list_mul. replace (Z.to_nat n) with 0%nat by lia. reflexivity.
Qed.

(** Without a positive number of points per half period, or of cycles,
    the generated sequence is the trailing zero alone, scaled by the
    amplitude. *)
Theorem generate_custom_sine_points_degenerate (amplitude : Q) (n c : Z) :
  (n <= 0)%Z \/ (c <= 0)%Z ->
  generate_custom_sine_points np_sin np_pi amplitude n c = [amplitude * 0].
Proof.
  intros [Hn|Hc]; unfold generate_custom_sine_points.
  - unfold range.
    replace (Z.to_nat (n - 0)) with 0%nat by lia.
    replace (Z.to_nat (2 * n - n)) with 0%nat by lia.
    cbn [seq map]. now rewrite !list_mul_nil.
  - now rewrite !list_mul_nonpositive by assumption.
Qed.

End SineDegenerate.

Lemma generate_custom_sine_points_degenerate_witness :
  Sin.generate_custom_sine_points Bench.sin_approx Bench.pi_approx 1 6 0 = [1 * 0].
Proof.
  apply (generate_custom_sine_points_degenerate Bench.sin_approx Bench.pi_approx 1 6 0).
  right. reflexivity.
Defined.

(** * The sine run *)

Section SineLoop.

Import Py Keithley Sin.

Variable env : bench.
Variables pw off_time : Q.

Lemma output_state_app (l1 l2 : list event) :
  output_state (l1 ++ l2)
  = match output_state l2 with
    | Some on => Some on
    | None => output_state l1
    end.
Proof.
  unfold output_state.
  enough (H : forall acc,
             fold_left (fun acc e => match e with
                                     | set_output on => Some on
                                     | _ => acc
                                     end) l2 acc
             = match fold_left (fun acc e => match e with
                                             | set_output on => Some on
                                             | _ => acc
                                             end) l2 None with
               | Some on => Some on
               | None => acc
               end).
  { rewrite fold_left_app. apply H. }
  induction l2 as [|e l2 IH]; intros acc; cbn [fold_left]; [reflexivity|].
  rewrite IH. rewrite (IH (match e with set_output on => Some on | _ => None end)).
  destruct (fold_left _ l2 None); [reflexivity|].
  destruct e; reflexivity.
Qed.

Lemma total_sleep_app (l1 l2 : list event) :
  total_sleep (l1 ++ l2) == total_sleep l1 + total_sleep l2.
Proof. unfold total_sleep. rewrite flat_map_app. apply sum_app. Qed.

(** [time.sleep] accepts both durations. *)
Hypothesis pw_nonneg : 0 <= pw.
Hypothesis off_time_nonneg : 0 <= off_time.

(** One turn of the loop, by the fate of its measurement. *)
Lemma sine_loop_cons (v : Q) (voltage_points : list Q) (data : list sample)
    (st : state) :
  sine_loop env (v :: voltage_points) pw off_time data st =
  match measured env (measures st) with
  | None =>
      (inl (CommError (measures st)),
       {| log := log st ++ [set_level_v v; sleep pw; measure_iv];
          measures := S (measures st); ticks := ticks st |})
  | Some iv =>
      sine_loop env voltage_points pw off_time
        (data ++ [{| s_time := now env (ticks st); s_voltage := snd iv;
                     s_current := fst iv |}])
        {| log := log st ++ [set_level_v v; sleep pw; measure_iv; sleep off_time];
           measures := S (measures st); ticks := S (ticks st) |}
  end.
Proof.
  assert (Hp : Qle_bool 0 pw = true) by now apply Qle_bool_iff.
  assert (Ho : Qle_bool 0 off_time = true) by now apply Qle_bool_iff.
  cbn [sine_loop]. unfold bind, time_sleep, emit, do_measure_iv, time_time.
  cbn [log measures ticks]. rewrite Hp. cbn [log measures ticks].
  destruct (measured env (measures st)) as [iv|]; cbn [log measures ticks];
    rewrite ?Ho; cbn [log measures ticks]; rewrite <- ?app_assoc; reflexivity.
Qed.

Lemma sine_loop_ok (voltage_points : list Q) :
  forall (data : list sample) (st : state),
  (forall j, (j < length voltage_points)%nat ->
             measured env (measures st + j) <> None) ->
  exists rows,
    sine_loop env voltage_points pw off_time data st
    = (inr (data ++ rows),
       {| log := log st
                 ++ flat_map (fun v => [set_level_v v; sleep pw; measure_iv;
                                        sleep off_time]) voltage_points;
          measures := measures st + length voltage_points;
          ticks := ticks st + length voltage_points |}) /\
    length rows = length voltage_points /\
    forall j, (j < length voltage_points)%nat ->
      exists r, nth_error rows j = Some r /\
        s_time r = now env (ticks st + j) /\
        measured env (measures st + j) = Some (s_current r, s_voltage r).
Proof.
  induction voltage_points as [|v vps IH]; intros data st Hm.
  - exists []. cbn [sine_loop flat_map length]. unfold ret.
    rewrite !app_nil_r, !Nat.add_0_r.
    split; [now destruct st|]. split; [reflexivity|]. intros j Hj. lia.
  - rewrite sine_loop_cons.
    pose proof (Hm 0%nat ltac:(cbn; lia)) as H0. rewrite Nat.add_0_r in H0.
    destruct (measured env (measures st)) as [iv|] eqn:E; [|congruence].
    match goal with
    | |- context [sine_loop _ _ _ _ (data ++ [?r]) ?s] =>
        destruct (IH (data ++ [r]) s) as (rows & Hrun & Hlen & Hrows);
        [|exists (r :: rows)]
    end.
    { intros j Hj. cbn [measures].
      replace (S (measures st) + j)%nat with (measures st + S j)%nat by lia.
      apply Hm. cbn [length]. lia. }
    cbn [log measures ticks] in Hrun, Hrows.
    rewrite Hrun, <- app_assoc. cbn [app flat_map length].
    split.
    { f_equal. f_equal; [now rewrite <- !app_assoc | lia | lia]. }
    split; [now rewrite Hlen|].
    intros [|j] Hj.
    + eexists. split; [reflexivity|]. cbn [s_time s_current s_voltage].
      rewrite !Nat.add_0_r. split; [reflexivity|]. now destruct iv.
    + destruct (Hrows j ltac:(lia)) as (r & Hr & Ht & Hmr).
      exists r. cbn [nth_error]. split; [exact Hr|].
      replace (ticks st + S j)%nat with (S (ticks st) + j)%nat by lia.
      replace (measures st + S j)%nat with (S (measures st) + j)%nat by lia.
      auto.
Qed.

Lemma sine_loop_fails (voltage_points : list Q) :
  forall (data : list sample) (st : state) (j : nat),
  (j < length voltage_points)%nat ->
  measured env (measures st + j) = None ->
  (forall j', (j' < j)%nat -> measured env (measures st + j') <> None) ->
  exists st',
    sine_loop env voltage_points pw off_time data st
    = (inl (CommError (measures st + j)), st') /\
    output_state (log st') = output_state (log st).
Proof.
  induction voltage_points as [|v vps IH]; intros data st j Hj Hnone Hsome.
  - cbn in Hj. lia.
  - rewrite sine_loop_cons. destruct j as [|j].
    + rewrite Nat.add_0_r in *. rewrite Hnone.
      eexists. split; [reflexivity|]. cbn [log].
      now rewrite output_state_app.
    + pose proof (Hsome 0%nat ltac:(lia)) as H0. rewrite Nat.add_0_r in H0.
      destruct (measured env (measures st)) as [iv|]; [|congruence].
      match goal with
      | |- context [sine_loop _ _ _ _ (data ++ [?r]) ?s] =>
          destruct (IH (data ++ [r]) s j) as (st' & Hrun & Hout)
      end.
      * cbn [length] in Hj. lia.
      * cbn [measures].
        replace (S (measures st) + j)%nat with (measures st + S j)%nat by lia.
        exact Hnone.
      * intros j' Hj'. cbn [measures].
        replace (S (measures st) + j')%nat with (measures st + S j')%nat by lia.
        apply Hsome. lia.
      * cbn [measures log] in Hrun, Hout. exists st'. split.
        -- rewrite Hrun.
           replace (S (measures st) + j)%nat with (measures st + S j)%nat by lia.
           reflexivity.
        -- rewrite Hout. now rewrite output_state_app.
Qed.

End SineLoop.

Section RunSineTest.

Import Py Keithley Sin.

Variable env : bench.
Variable self : SinTester.
Variables pw off_time : Q.

(** [time.sleep] accepts both durations. *)
Hypothesis pw_nonneg : 0 <= pw.
Hypothesis off_time_nonneg : 0 <= off_time.

Lemma run_sine_test_unfold (voltage_points : list Q) (st : state) :
  run_sine_test env self voltage_points pw off_time st =
  match sine_loop env voltage_points pw off_time []
          {| log := log st
                    ++ [reset_device; default_setup; set_source_function "voltage";
                        set_level_i 0; set_limit_i (1 # 10000000);
                        set_nplc (nplc self); set_output true;
                        smu_write "smua.measure.rangei = 1e-7";
                        smu_write "smua.measure.autorangei = smua.AUTORANGE_OFF"];
             measures := measures st; ticks := ticks st |} with
  | (inl e, st') => (inl e, st')
  | (inr data, st') =>
      (inr (rebase data),
       {| log := log st' ++ [set_output false];
          measures := measures st'; ticks := ticks st' |})
  end.
Proof.
  unfold run_sine_test, bind, emit, ret.
  cbn [log measures ticks]. rewrite <- !app_assoc. cbn [app].
  match goal with
  | |- context [sine_loop ?e ?v ?p ?o ?d ?st0] =>
      destruct (sine_loop e v p o d st0) as [[err|data] st']
  end; reflexivity.
Qed.

Lemma nth_error_rebase_samples (rows : list sample) (j : nat) (r0 r : sample) :
  nth_error rows 0 = Some r0 ->
  nth_error rows j = Some r ->
  nth_error (rebase rows) j
  = Some {| s_time := s_time r - s_time r0; s_voltage := s_voltage r;
            s_current := s_current r |}.
Proof.
  intros H0 Hj. destruct rows as [|first rows]; [discriminate|].
  cbn in H0. injection H0 as ->. unfold rebase.
  now rewrite nth_error_map, Hj.
Qed.

Lemma length_rebase_samples (rows : list sample) :
  length (rebase rows) = length rows.
Proof. destruct rows; [reflexivity|]. unfold rebase. apply length_map. Qed.

Lemma total_sleep_sine_steps (voltage_points : list Q) :
  total_sleep (flat_map (fun v => [set_level_v v; sleep pw; measure_iv;
                                   sleep off_time]) voltage_points)
  == inject_Z (Z.of_nat (length voltage_points)) * (pw + off_time).
Proof.
  induction voltage_points as [|v vps IH].
  - cbn. ring.
  - cbn [flat_map length].
    change ([set_level_v v; sleep pw; measure_iv; sleep off_time] ++ ?l)
      with ([set_level_v v; sleep pw; measure_iv; sleep off_time] ++ l).
    rewrite total_sleep_app, IH, inject_Z_of_nat_S.
    unfold total_sleep. cbn. ring.
Qed.

(** A sine run whose measurements all succeed, in full. *)
Lemma run_sine_test_exact (voltage_points : list Q) (st : state) :
  (forall j, (j < length voltage_points)%nat ->
             measured env (measures st + j) <> None) ->
  exists data st',
    run_sine_test env self voltage_points pw off_time st = (inr data, st') /\
    length data = length voltage_points /\
    (forall j, (j < length voltage_points)%nat ->
       exists r, nth_error data j = Some r /\
         s_time r == now env (ticks st + j) - now env (ticks st) /\
         measured env (measures st + j) = Some (s_current r, s_voltage r)) /\
    output_state (log st') = Some false /\
    total_sleep (log st')
    == total_sleep (log st)
       + inject_Z (Z.of_nat (length voltage_points)) * (pw + off_time) /\
    measures st' = (measures st + length voltage_points)%nat.
Proof.
  intros Hm. rewrite run_sine_test_unfold.
  match goal with
  | |- context [sine_loop _ _ _ _ ?d ?st0] =>
      destruct (sine_loop_ok env pw off_time pw_nonneg off_time_nonneg
                  voltage_points d st0)
        as (rows & Hrun & Hlen & Hrows)
  end.
  { intros j Hj. cbn [measures]. now apply Hm. }
  cbn [log measures ticks app] in Hrun, Hrows. rewrite Hrun.
  eexists. eexists. split; [reflexivity|].
  split; [now rewrite length_rebase_samples|].
  split.
  { intros j Hj.
    destruct (Hrows j Hj) as (r & Hr & Ht & Hmr).
    destruct (Hrows 0%nat ltac:(lia)) as (r0 & Hr0 & Ht0 & _).
    eexists. split; [apply (nth_error_rebase_samples rows j r0 r Hr0 Hr)|].
    cbn [s_time s_voltage s_current]. rewrite Ht, Ht0, Nat.add_0_r.
    split; [reflexivity|exact Hmr]. }
  cbn [log measures].
  split; [now rewrite output_state_app|].
  split; [|reflexivity].
  rewrite !total_sleep_app, total_sleep_sine_steps.
  repeat match goal with
         | |- context [total_sleep (?e :: ?l)] =>
             let H := fresh "H" in
             assert (H : total_sleep (e :: l) == 0) by reflexivity;
             rewrite H; clear H
         end.
  ring.
Qed.

(** With non-negative [pw] and [off_time], a completed sine run
    returns one row per voltage point; row [j]
    holds the current and the voltage of the [j]-th measurement (the
    measured voltage, not the commanded one) and the clock reading of
    its step minus that of the first step. *)
Theorem run_sine_test_samples (voltage_points : list Q) (st : state) :
  (forall j, (j < length voltage_points)%nat ->
             measured env (measures st + j) <> None) ->
  exists data,
    fst (run_sine_test env self voltage_points pw off_time st) = inr data /\
    length data = length voltage_points /\
    forall j, (j < length voltage_points)%nat ->
      exists r, nth_error data j = Some r /\
        s_time r == now env (ticks st + j) - now env (ticks st) /\
        measured env (measures st + j) = Some (s_current r, s_voltage r).
Proof.
  intros Hm.
  destruct (run_sine_test_exact voltage_points st Hm)
    as (data & st' & Hrun & Hlen & Hrows & _).
  exists data. rewrite Hrun. auto.
Qed.

(** With non-negative [pw] and [off_time], a completed sine run leaves
    the output switched off, has made one measurement per voltage point
    and has slept [pw + off_time] seconds per voltage point. *)
Theorem run_sine_test_completes (voltage_points : list Q) (st : state) :
  (forall j, (j < length voltage_points)%nat ->
             measured env (measures st + j) <> None) ->
  let st' := snd (run_sine_test env self voltage_points pw off_time st) in
  output_state (log st') = Some false /\
  measures st' = (measures st + length voltage_points)%nat /\
  total_sleep (log st')
  == total_sleep (log st)
     + inject_Z (Z.of_nat (length voltage_points)) * (pw + off_time).
Proof.
  intros Hm.
  destruct (run_sine_test_exact voltage_points st Hm)
    as (data & st' & Hrun & _ & _ & Hout & Hsleep & Hmeas).
  rewrite Hrun. cbn [snd]. auto.
Qed.

(** With non-negative [pw] and [off_time], a sine run whose [j]-th
    measurement fails raises that failure: no row is returned and the
    output is left switched on. *)
Theorem run_sine_test_failure_leaves_output_on (voltage_points : list Q)
    (st : state) (j : nat) :
  (j < length voltage_points)%nat ->
  measured env (measures st + j) = None ->
  (forall j', (j' < j)%nat -> measured env (measures st + j') <> None) ->
  exists st',
    run_sine_test env self voltage_points pw off_time st
    = (inl (CommError (measures st + j)), st') /\
    output_state (log st') = Some true.
Proof.
  intros Hj Hnone Hsome. rewrite run_sine_test_unfold.
  match goal with
  | |- context [sine_loop _ _ _ _ ?d ?st0] =>
      destruct (sine_loop_fails env pw off_time pw_nonneg off_time_nonneg
                  voltage_points d st0 j)
        as (st' & Hrun & Hout); try assumption
  end.
  cbn [log measures] in Hrun, Hout. rewrite Hrun.
  exists st'. split; [reflexivity|].
  rewrite Hout. now rewrite output_state_app.
Qed.

End RunSineTest.

Lemma bench_healthy_answers (n m : nat) :
  forall j, (j < n)%nat -> Keithley.measured Bench.bench_healthy (m + j) <> None.
Proof. intros j _. cbn. discriminate. Qed.

Lemma bench_failing_after_answers (k m : nat) :
  forall j, (m + j < k)%nat ->
            Keithley.measured (Bench.bench_failing_after k) (m + j) <> None.
Proof.
  intros j Hj. unfold Bench.bench_failing_after. cbn [Keithley.measured].
  destruct (Nat.ltb_spec (m + j) k); [discriminate | lia].
Qed.

Lemma run_sine_test_samples_witness :
  exists data,
    fst (Sin.run_sine_test Bench.bench_healthy Sin.init [0; 1 # 2; 1]
           (1 # 10) (1 # 100) Keithley.power_on) = inr data /\
    length data = 3%nat /\
    forall j, (j < 3)%nat ->
      exists r, nth_error data j = Some r /\
        Sin.s_time r == Keithley.now Bench.bench_healthy (0 + j)
                        - Keithley.now Bench.bench_healthy 0 /\
        Keithley.measured Bench.bench_healthy (0 + j)
        = Some (Sin.s_current r, Sin.s_voltage r).
Proof.
  refine (run_sine_test_samples Bench.bench_healthy Sin.init (1 # 10) (1 # 100)
            _ _ [0; 1 # 2; 1] Keithley.power_on (bench_healthy_answers 3 0));
    vm_compute; discriminate.
Defined.

Lemma run_sine_test_completes_witness :
  let st' := snd (Sin.run_sine_test Bench.bench_healthy Sin.init [0; 1 # 2; 1]
                    (1 # 10) (1 # 100) Keithley.power_on) in
  Keithley.output_state (Keithley.log st') = Some false /\
  Keithley.measures st' = 3%nat /\
  Keithley.total_sleep (Keithley.log st')
  == 0 + inject_Z 3 * ((1 # 10) + (1 # 100)).
Proof.
  refine (run_sine_test_completes Bench.bench_healthy Sin.init (1 # 10) (1 # 100)
            _ _ [0; 1 # 2; 1] Keithley.power_on (bench_healthy_answers 3 0));
    vm_compute; discriminate.
Defined.

Lemma run_sine_test_failure_leaves_output_on_witness :
  exists st',
    Sin.run_sine_test (Bench.bench_failing_after 2) Sin.init [0; 1 # 2; 1]
      (1 # 10) (1 # 100) Keithley.power_on
    = (inl (Py.CommError 2), st') /\
    Keithley.output_state (Keithley.log st') = Some true.
Proof.
  refine (run_sine_test_failure_leaves_output_on
            (Bench.bench_failing_after 2) Sin.init (1 # 10) (1 # 100)
            _ _ [0; 1 # 2; 1] Keithley.power_on 2 _ _ _).
  - vm_compute. discriminate.
  - vm_compute. discriminate.
  - cbn. lia.
  - reflexivity.
  - intros j' Hj'. apply (bench_failing_after_answers 2 0). lia.
Defined.

(** * The SRDP run *)

Section PulseLoop.

Import Py Keithley Srdp.

Variable env : bench.
Variable self : SrdpTester.
Variable start_time : Q.
Variable idx : nat.
Variable space_val : Q.

(** [time.sleep] accepts the three durations. *)
Hypothesis pulse_width_nonneg : 0 <= pulse_width self.
Hypothesis off_time_nonneg : 0 <= off_time self.
Hypothesis space_val_nonneg : 0 <= space_val.

(** One turn of the pulse loop, by the fate of its two measurements. *)
Lemma pulse_loop_cons (p_idx : Z) (p_indices : list Z) (data : list row)
    (st : state) :
  pulse_loop env self start_time idx space_val (p_idx :: p_indices) data st =
  match measured env (measures st) with
  | None =>
      (inl (CommError (measures st)),
       {| log := log st ++ [set_level_v (V_read self); sleep (pulse_width self);
                            measure_iv];
          measures := S (measures st); ticks := ticks st |})
  | Some iv_read =>
      match measured env (S (measures st)) with
      | None =>
          (inl (CommError (S (measures st))),
           {| log := log st ++ [set_level_v (V_read self);
                                sleep (pulse_width self); measure_iv;
                                set_output false; sleep (off_time self);
                                set_output true;
                                set_level_v (V_write self);
                                sleep (pulse_width self); measure_iv];
              measures := S (S (measures st)); ticks := S (ticks st) |})
      | Some iv_write =>
          pulse_loop env self start_time idx space_val p_indices
            ((data ++ [{| Time := now env (ticks st) - start_time;
                          Voltage := snd iv_read; Current := fst iv_read;
                          Label := read_label idx p_idx |}])
                  ++ [{| Time := now env (S (ticks st)) - start_time;
                         Voltage := snd iv_write; Current := fst iv_write;
                         Label := write_label idx p_idx |}])
            {| log := log st ++ [set_level_v (V_read self);
                                 sleep (pulse_width self); measure_iv;
                                 set_output false; sleep (off_time self);
                                 set_output true;
                                 set_level_v (V_write self);
                                 sleep (pulse_width self); measure_iv]
                             ++ gap_events self space_val p_idx;
               measures := S (S (measures st)); ticks := S (S (ticks st)) |}
      end
  end.
Proof.
  assert (Hp : Qle_bool 0 (pulse_width self) = true) by now apply Qle_bool_iff.
  assert (Ho : Qle_bool 0 (off_time self) = true) by now apply Qle_bool_iff.
  assert (Hs : Qle_bool 0 space_val = true) by now apply Qle_bool_iff.
  cbn [pulse_loop].
  unfold bind, time_sleep, emit, do_measure_iv, time_time, gap_events.
  cbn [log measures ticks]. rewrite ?Hp, ?Ho, ?Hs. cbn [log measures ticks].
  destruct (measured env (measures st)) as [iv_read|]; cbn [log measures ticks];
    [|rewrite <- ?app_assoc; reflexivity].
  destruct (measured env (S (measures st))) as [iv_write|];
    cbn [log measures ticks]; [|rewrite <- ?app_assoc; reflexivity].
  destruct (p_idx <? pulse_num self - 1)%Z; unfold ret; cbn [log measures ticks];
    rewrite <- ?app_assoc; cbn [app]; rewrite ?app_nil_r; reflexivity.
Qed.

Lemma total_sleep_pulse (p_idx : Z) :
  total_sleep ([set_level_v (V_read self); sleep (pulse_width self); measure_iv;
                set_output false; sleep (off_time self); set_output true;
                set_level_v (V_write self); sleep (pulse_width self); measure_iv]
               ++ gap_events self space_val p_idx)
  == pulse_sleep self space_val p_idx.
Proof.
  unfold gap_events, pulse_sleep, total_sleep.
  destruct (p_idx <? pulse_num self - 1)%Z; cbn; ring.
Qed.

Lemma output_state_pulse (p_idx : Z) (l : list event) :
  output_state (l ++ [set_level_v (V_read self); sleep (pulse_width self);
                      measure_iv; set_output false; sleep (off_time self);
                      set_output true; set_level_v (V_write self);
                      sleep (pulse_width self); measure_iv]
                  ++ gap_events self space_val p_idx)
  = Some true.
Proof.
  rewrite output_state_app. unfold gap_events.
  now destruct (p_idx <? pulse_num self - 1)%Z.
Qed.

Lemma div2_SS (k : nat) : (S (S k) / 2 = S (k / 2))%nat.
Proof.
  replace (S (S k)) with (1 * 2 + k)%nat by lia.
  now rewrite Nat.div_add_l.
Qed.

Lemma pulse_loop_ok (p_indices : list Z) :
  forall (data : list row) (st : state),
  (forall j, (j < 2 * length p_indices)%nat ->
             measured env (measures st + j) <> None) ->
  exists rows st',
    pulse_loop env self start_time idx space_val p_indices data st
    = (inr (data ++ rows), st') /\
    length rows = (2 * length p_indices)%nat /\
    (forall k, (k < 2 * length p_indices)%nat ->
       exists r, nth_error rows k = Some r /\
         Time r = now env (ticks st + k) - start_time /\
         measured env (measures st + k) = Some (Current r, Voltage r) /\
         Label r = (if Nat.even k then read_label idx (nth (k / 2) p_indices 0%Z)
                    else write_label idx (nth (k / 2) p_indices 0%Z))) /\
    measures st' = (measures st + 2 * length p_indices)%nat /\
    ticks st' = (ticks st + 2 * length p_indices)%nat /\
    (output_state (log st) = Some true -> output_state (log st') = Some true) /\
    total_sleep (log st') == total_sleep (log st) + sum (map (pulse_sleep self space_val) p_indices).
Proof.
  induction p_indices as [|p ps IH]; intros data st Hm.
  - exists [], st. cbn [pulse_loop length map sum]. unfold ret.
    rewrite app_nil_r, Nat.mul_0_r, !Nat.add_0_r.
    repeat split; auto; try ring. intros k Hk. lia.
  - rewrite pulse_loop_cons.
    pose proof (Hm 0%nat ltac:(cbn; lia)) as H0. rewrite Nat.add_0_r in H0.
    pose proof (Hm 1%nat ltac:(cbn; lia)) as H1. rewrite Nat.add_1_r in H1.
    destruct (measured env (measures st)) as [iv1|] eqn:E1; [|congruence].
    destruct (measured env (S (measures st))) as [iv2|] eqn:E2; [|congruence].
    match goal with
    | |- context [pulse_loop _ _ _ _ _ _ ((data ++ [?r1]) ++ [?r2]) ?s] =>
        destruct (IH ((data ++ [r1]) ++ [r2]) s)
          as (rows & st' & Hrun & Hlen & Hrows & Hmeas & Hticks & Hout & Hsleep);
        [|exists (r1 :: r2 :: rows), st']
    end.
    { intros j Hj. cbn [measures].
      replace (S (S (measures st)) + j)%nat with (measures st + (2 + j))%nat by lia.
      apply Hm. cbn [length]. lia. }
    cbn [log measures ticks] in Hrun, Hrows, Hmeas, Hticks, Hout, Hsleep.
    rewrite Hrun, <- !app_assoc. cbn [app length].
    split; [reflexivity|]. split; [lia|].
    split.
    { intros [|[|k]] Hk.
      - eexists. split; [reflexivity|]. cbn [Time Current Voltage Label Nat.even].
        rewrite !Nat.add_0_r. split; [reflexivity|]. split; [now destruct iv1|].
        reflexivity.
      - eexists. split; [reflexivity|]. cbn [Time Current Voltage Label Nat.even].
        rewrite !Nat.add_1_r. split; [reflexivity|]. split; [now destruct iv2|].
        reflexivity.
      - destruct (Hrows k ltac:(lia)) as (r & Hr & Ht & Hmr & Hl).
        exists r. cbn [nth_error]. split; [exact Hr|].
        replace (ticks st + S (S k))%nat with (S (S (ticks st)) + k)%nat by lia.
        replace (measures st + S (S k))%nat with (S (S (measures st)) + k)%nat by lia.
        split; [exact Ht|]. split; [exact Hmr|].
        rewrite div2_SS. cbn [Nat.even nth]. exact Hl. }
    split; [lia|]. split; [lia|].
    split.
    { intros _. apply Hout. apply output_state_pulse. }
    rewrite Hsleep. cbn [map sum].
    rewrite total_sleep_app, total_sleep_pulse. ring.
Qed.

Lemma pulse_loop_fails (p_indices : list Z) :
  forall (data : list row) (st : state) (j : nat),
  (j < 2 * length p_indices)%nat ->
  measured env (measures st + j) = None ->
  (forall j', (j' < j)%nat -> measured env (measures st + j') <> None) ->
  output_state (log st) = Some true ->
  exists st',
    pulse_loop env self start_time idx space_val p_indices data st
    = (inl (CommError (measures st + j)), st') /\
    output_state (log st') = Some true.
Proof.
  induction p_indices as [|p ps IH]; intros data st j Hj Hnone Hsome Hon.
  - cbn in Hj. lia.
  - rewrite pulse_loop_cons. destruct j as [|[|j]].
    + rewrite Nat.add_0_r in *. rewrite Hnone.
      eexists. split; [reflexivity|]. cbn [log].
      now rewrite output_state_app.
    + pose proof (Hsome 0%nat ltac:(lia)) as H0.
      rewrite Nat.add_0_r in H0. rewrite Nat.add_1_r in *.
      destruct (measured env (measures st)) as [iv1|]; [|congruence].
      rewrite Hnone.
      eexists. split; [reflexivity|]. cbn [log].
      now rewrite output_state_app.
    + pose proof (Hsome 0%nat ltac:(lia)) as H0.
      pose proof (Hsome 1%nat ltac:(lia)) as H1.
      rewrite Nat.add_0_r in H0. rewrite Nat.add_1_r in H1.
      destruct (measured env (measures st)) as [iv1|]; [|congruence].
      destruct (measured env (S (measures st))) as [iv2|]; [|congruence].
      match goal with
      | |- context [pulse_loop _ _ _ _ _ _ ((data ++ [?r1]) ++ [?r2]) ?s] =>
          destruct (IH ((data ++ [r1]) ++ [r2]) s j) as (st' & Hrun & Hout)
      end.
      * cbn [length] in Hj. lia.
      * cbn [measures].
        replace (S (S (measures st)) + j)%nat with (measures st + S (S j))%nat by lia.
        exact Hnone.
      * intros j' Hj'. cbn [measures].
        replace (S (S (measures st)) + j')%nat with (measures st + S (S j'))%nat by lia.
        apply Hsome. lia.
      * cbn [log]. apply output_state_pulse.
      * cbn [measures] in Hrun. exists st'. split; [|exact Hout].
        rewrite Hrun.
        replace (S (S (measures st)) + j)%nat with (measures st + S (S j))%nat by lia.
        reflexivity.
Qed.

End PulseLoop.

Section RangeFacts.

Import Py.

Lemma length_range0 (n : Z) : length (range 0 n) = Z.to_nat n.
Proof. unfold range. rewrite length_map, length_seq. f_equal. lia. Qed.

Lemma nth_range0 (n : Z) (j : nat) :
  (j < Z.to_nat n)%nat -> nth j (range 0 n) 0%Z = Z.of_nat j.
Proof.
  intros Hj. unfold range.
  rewrite (nth_map_in_range _ _ j 0%nat 0%Z) by (rewrite length_seq; lia).
  rewrite seq_nth by lia. reflexivity.
Qed.

Lemma Forall_snd_combine {X Y : Type} (P : Y -> Prop) (l1 : list X) (l2 : list Y) :
  Forall P l2 -> Forall (fun s => P (snd s)) (combine l1 l2).
Proof.
  intros H. revert l1. induction H as [|y l2 Hy H IH]; intros [|x l1];
    cbn [combine]; constructor; auto.
Qed.

End RangeFacts.

Section SpaceLoop.

Import Py Keithley Srdp.

Variable env : bench.
Variable self : SrdpTester.
Variable start_time : Q.

(** [time.sleep] accepts the dwell and the rest. *)
Hypothesis pulse_width_nonneg : 0 <= pulse_width self.
Hypothesis off_time_nonneg : 0 <= off_time self.

(** Pulses per space value. *)
Let P : nat := Z.to_nat (pulse_num self).

Lemma even_add_block (w k : nat) : Nat.even (2 * w + k) = Nat.even k.
Proof.
  rewrite Nat.even_add, Nat.even_mul. cbn [Nat.even orb].
  now destruct (Nat.even k).
Qed.

Lemma space_loop_cons (i : nat) (space_val : Q) (spaces : list (nat * Q))
    (data : list row) (st : state) :
  space_loop env self start_time ((i, space_val) :: spaces) data st =
  match pulse_loop env self start_time i space_val (range 0 (pulse_num self)) data
          {| log := log st ++ [print (using_space space_val (pulse_num self))];
             measures := measures st; ticks := ticks st |} with
  | (inl e, st') => (inl e, st')
  | (inr data', st') => space_loop env self start_time spaces data' st'
  end.
Proof. cbn [space_loop]. unfold bind, emit. reflexivity. Qed.

Lemma space_loop_ok (spaces : list (nat * Q)) :
  forall (data : list row) (st : state),
  Forall (fun s => 0 <= snd s) spaces ->
  (forall j, (j < 2 * P * length spaces)%nat ->
             measured env (measures st + j) <> None) ->
  exists rows st',
    space_loop env self start_time spaces data st = (inr (data ++ rows), st') /\
    length rows = (2 * P * length spaces)%nat /\
    (forall k, (k < 2 * P * length spaces)%nat ->
       exists r, nth_error rows k = Some r /\
         Time r = now env (ticks st + k) - start_time /\
         measured env (measures st + k) = Some (Current r, Voltage r) /\
         Label r = (if Nat.even k
                    then read_label (fst (nth (k / (2 * P)) spaces (0%nat, 0)))
                                    (Z.of_nat (k mod (2 * P) / 2))
                    else write_label (fst (nth (k / (2 * P)) spaces (0%nat, 0)))
                                     (Z.of_nat (k mod (2 * P) / 2)))) /\
    measures st' = (measures st + 2 * P * length spaces)%nat /\
    ticks st' = (ticks st + 2 * P * length spaces)%nat /\
    (output_state (log st) = Some true -> output_state (log st') = Some true) /\
    total_sleep (log st')
    == total_sleep (log st)
       + sum (map (fun s => sum (map (pulse_sleep self (snd s))
                                     (range 0 (pulse_num self)))) spaces).
Proof.
  induction spaces as [|[i space_val] spaces IH]; intros data st Hsp Hm.
  - exists [], st. cbn [space_loop length map sum]. unfold ret.
    rewrite app_nil_r, Nat.mul_0_r, !Nat.add_0_r.
    repeat split; auto; try ring. intros k Hk. lia.
  - rewrite space_loop_cons.
    apply Forall_cons_iff in Hsp as [Hs0 Hsp]. cbn [snd] in Hs0.
    match goal with
    | |- context [pulse_loop _ _ _ _ _ ?ps ?d ?s] =>
        destruct (pulse_loop_ok env self start_time i space_val
                    pulse_width_nonneg off_time_nonneg Hs0 ps d s)
          as (rows1 & st1 & Hrun1 & Hlen1 & Hrows1 & Hmeas1 & Hticks1 & Hout1 & Hsleep1)
    end.
    { intros j Hj. rewrite length_range0 in Hj. fold P in Hj. cbn [measures].
      apply Hm. cbn [length]. nia. }
    rewrite length_range0 in Hlen1, Hrows1, Hmeas1, Hticks1. fold P in Hlen1, Hrows1, Hmeas1, Hticks1.
    cbn [log measures ticks] in Hrows1, Hmeas1, Hticks1, Hout1, Hsleep1.
    rewrite Hrun1.
    destruct (IH (data ++ rows1) st1 Hsp)
      as (rows2 & st2 & Hrun2 & Hlen2 & Hrows2 & Hmeas2 & Hticks2 & Hout2 & Hsleep2).
    { intros j Hj. rewrite Hmeas1.
      replace (measures st + 2 * P + j)%nat with (measures st + (2 * P + j))%nat by lia.
      apply Hm. cbn [length]. nia. }
    exists (rows1 ++ rows2), st2. rewrite Hrun2, <- app_assoc.
    split; [reflexivity|].
    split; [rewrite length_app, Hlen1, Hlen2; cbn [length]; nia|].
    split.
    { intros k Hk. destruct (Nat.lt_ge_cases k (2 * P)) as [Hlt|Hge].
      - destruct (Hrows1 k Hlt) as (r & Hr & Ht & Hmr & Hl).
        exists r. split; [rewrite nth_error_app1 by lia; exact Hr|].
        split; [exact Ht|]. split; [exact Hmr|].
        rewrite Nat.div_small, Nat.mod_small by lia. cbn [nth fst].
        rewrite nth_range0 in Hl. 2:{ fold P. apply Nat.Div0.div_lt_upper_bound. lia. }
        exact Hl.
      - assert (HP : (0 < 2 * P)%nat) by (cbn [length] in Hk; nia).
        set (k' := (k - 2 * P)%nat).
        assert (Hk' : k = (2 * P + k')%nat) by (subst k'; lia).
        destruct (Hrows2 k') as (r & Hr & Ht & Hmr & Hl).
        { cbn [length] in Hk. nia. }
        exists r. split.
        { rewrite nth_error_app2 by lia. rewrite Hlen1. exact Hr. }
        rewrite Hticks1 in Ht. rewrite Hmeas1 in Hmr.
        replace (ticks st + 2 * P + k')%nat with (ticks st + k)%nat in Ht by lia.
        replace (measures st + 2 * P + k')%nat with (measures st + k)%nat in Hmr by lia.
        split; [exact Ht|]. split; [exact Hmr|].
        rewrite Hk' at 1. rewrite even_add_block.
        assert (Hdiv : (k / (2 * P) = S (k' / (2 * P)))%nat).
        { rewrite Hk'. replace (2 * P + k')%nat with (1 * (2 * P) + k')%nat by lia.
          rewrite Nat.div_add_l by lia. reflexivity. }
        assert (Hmod : (k mod (2 * P) = k' mod (2 * P))%nat).
        { rewrite Hk'. replace (2 * P + k')%nat with (k' + 1 * (2 * P))%nat by lia.
          apply Nat.Div0.mod_add. }
        rewrite Hdiv, Hmod. cbn [nth]. exact Hl. }
    split; [rewrite Hmeas2, Hmeas1; cbn [length]; nia|].
    split; [rewrite Hticks2, Hticks1; cbn [length]; nia|].
    split.
    { intros Hon. apply Hout2, Hout1. now rewrite output_state_app. }
    rewrite Hsleep2, Hsleep1, total_sleep_app. cbn [map sum snd].
    assert (Hp : total_sleep [print (using_space space_val (pulse_num self))] == 0)
      by reflexivity.
    rewrite Hp. ring.
Qed.

Lemma space_loop_fails (spaces : list (nat * Q)) :
  forall (data : list row) (st : state) (j : nat),
  Forall (fun s => 0 <= snd s) spaces ->
  (j < 2 * P * length spaces)%nat ->
  measured env (measures st + j) = None ->
  (forall j', (j' < j)%nat -> measured env (measures st + j') <> None) ->
  output_state (log st) = Some true ->
  exists st',
    space_loop env self start_time spaces data st
    = (inl (CommError (measures st + j)), st') /\
    output_state (log st') = Some true.
Proof.
  induction spaces as [|[i space_val] spaces IH];
    intros data st j Hsp Hj Hnone Hsome Hon.
  - cbn in Hj. lia.
  - rewrite space_loop_cons.
    apply Forall_cons_iff in Hsp as [Hs0 Hsp]. cbn [snd] in Hs0.
    destruct (Nat.lt_ge_cases j (2 * P)) as [Hlt|Hge].
    + match goal with
      | |- context [pulse_loop _ _ _ _ _ ?ps ?d ?s] =>
          destruct (pulse_loop_fails env self start_time i space_val
                      pulse_width_nonneg off_time_nonneg Hs0 ps d s j)
            as (st' & Hrun & Hout)
      end.
      * rewrite length_range0. exact Hlt.
      * exact Hnone.
      * exact Hsome.
      * cbn [log]. now rewrite output_state_app.
      * cbn [measures] in Hrun. rewrite Hrun. now exists st'.
    + match goal with
      | |- context [pulse_loop _ _ _ _ _ ?ps ?d ?s] =>
          destruct (pulse_loop_ok env self start_time i space_val
                      pulse_width_nonneg off_time_nonneg Hs0 ps d s)
            as (rows1 & st1 & Hrun1 & _ & _ & Hmeas1 & _ & Hout1 & _)
      end.
      { intros j' Hj'. rewrite length_range0 in Hj'. fold P in Hj'.
        cbn [measures]. apply Hsome. lia. }
      rewrite length_range0 in Hmeas1. fold P in Hmeas1.
      cbn [log measures] in Hmeas1, Hout1. rewrite Hrun1.
      destruct (IH (data ++ rows1) st1 (j - 2 * P)%nat Hsp) as (st' & Hrun & Hout).
      * cbn [length] in Hj. nia.
      * rewrite Hmeas1.
        replace (measures st + 2 * P + (j - 2 * P))%nat with (measures st + j)%nat by lia.
        exact Hnone.
      * intros j' Hj'. rewrite Hmeas1.
        replace (measures st + 2 * P + j')%nat with (measures st + (2 * P + j'))%nat by lia.
        apply Hsome. lia.
      * apply Hout1. now rewrite output_state_app.
      * exists st'. split; [|exact Hout]. rewrite Hrun, Hmeas1.
        replace (measures st + 2 * P + (j - 2 * P))%nat with (measures st + j)%nat by lia.
        reflexivity.
Qed.

End SpaceLoop.

Section RunSrdpTest.

Import Py Keithley Srdp.

Variable env : bench.
Variable self : SrdpTester.

(** [time.sleep] accepts the dwell and the rest. *)
Hypothesis pulse_width_nonneg : 0 <= pulse_width self.
Hypothesis off_time_nonneg : 0 <= off_time self.

Lemma run_srdp_test_unfold (space_array : list Q) (st : state) :
  run_srdp_test env self space_array st =
  match space_loop env self (now env (ticks st))
          (combine (seq 0 (length space_array)) space_array) []
          {| log := log st
                    ++ [reset_device; default_setup; set_source_function "voltage";
                        set_level_i 0; set_limit_i (1 # 10000000);
                        set_nplc (nplc self); set_output true];
             measures := measures st; ticks := S (ticks st) |} with
  | (inl e, st') => (inl e, st')
  | (inr data, st') =>
      (inr (rebase data),
       {| log := log st' ++ [set_output false];
          measures := measures st'; ticks := ticks st' |})
  end.
Proof.
  unfold run_srdp_test, _reset_and_setup_keithley, bind, emit, time_time, ret.
  cbn [log measures ticks]. rewrite <- !app_assoc. cbn [app].
  match goal with
  | |- context [space_loop ?e ?s ?t ?sp ?d ?st0] =>
      destruct (space_loop e s t sp d st0) as [[err|data] st']
  end; reflexivity.
Qed.

Lemma nth_error_rebase_rows (rows : list row) (k : nat) (r0 r : row) :
  nth_error rows 0 = Some r0 ->
  nth_error rows k = Some r ->
  nth_error (rebase rows) k
  = Some {| Time := Time r - Time r0; Voltage := Voltage r;
            Current := Current r; Label := Label r |}.
Proof.
  intros H0 Hk. destruct rows as [|first rows]; [discriminate|].
  cbn in H0. injection H0 as ->. unfold rebase.
  now rewrite nth_error_map, Hk.
Qed.

Lemma length_rebase_rows (rows : list row) : length (rebase rows) = length rows.
Proof. destruct rows; [reflexivity|]. unfold rebase. apply length_map. Qed.

Lemma fst_nth_enumerate (l : list Q) (q : nat) :
  (q < length l)%nat -> fst (nth q (combine (seq 0 (length l)) l) (0%nat, 0)) = q.
Proof.
  intros Hq. rewrite combine_nth by now rewrite length_seq.
  cbn [fst]. now rewrite seq_nth.
Qed.

(** An SRDP run whose measurements all succeed, in full. *)
Lemma run_srdp_test_exact (space_array : list Q) (st : state) :
  let P := Z.to_nat (pulse_num self) in
  let n := (2 * P * length space_array)%nat in
  Forall (fun space_val => 0 <= space_val) space_array ->
  (forall j, (j < n)%nat -> measured env (measures st + j) <> None) ->
  exists data st',
    run_srdp_test env self space_array st = (inr data, st') /\
    length data = n /\
    (forall k, (k < n)%nat ->
       exists r, nth_error data k = Some r /\
         Time r == now env (S (ticks st) + k) - now env (S (ticks st)) /\
         measured env (measures st + k) = Some (Current r, Voltage r) /\
         Label r = (if Nat.even k
                    then read_label (k / (2 * P)) (Z.of_nat (k mod (2 * P) / 2))
                    else write_label (k / (2 * P)) (Z.of_nat (k mod (2 * P) / 2)))) /\
    output_state (log st') = Some false /\
    measures st' = (measures st + n)%nat /\
    total_sleep (log st')
    == total_sleep (log st)
       + sum (map (fun space_val =>
                     sum (map (pulse_sleep self space_val)
                              (range 0 (pulse_num self)))) space_array).
Proof.
  intros P n Hsp Hm. rewrite run_srdp_test_unfold.
  match goal with
  | |- context [space_loop _ _ ?t ?sp ?d ?st0] =>
      pose proof (space_loop_ok env self t pulse_width_nonneg off_time_nonneg
                    sp d st0 (Forall_snd_combine _ _ _ Hsp)) as Hloop
  end.
  cbv zeta in Hloop. fold P in Hloop.
  rewrite length_combine, length_seq, Nat.min_id in Hloop. fold n in Hloop.
  destruct Hloop
    as (rows & st1 & Hrun & Hlen & Hrows & Hmeas & _ & _ & Hsleep).
  { intros j Hj. cbn [measures]. now apply Hm. }
  cbn [log measures ticks app] in Hrun, Hrows, Hmeas, Hsleep. rewrite Hrun.
  eexists. eexists. split; [reflexivity|].
  split; [now rewrite length_rebase_rows|].
  split.
  { intros k Hk.
    destruct (Hrows k Hk) as (r & Hr & Ht & Hmr & Hl).
    destruct (Hrows 0%nat ltac:(lia)) as (r0 & Hr0 & Ht0 & _).
    eexists. split; [apply (nth_error_rebase_rows rows k r0 r Hr0 Hr)|].
    cbn [Time Voltage Current Label]. rewrite Ht, Ht0, Nat.add_0_r.
    split; [ring|]. split; [exact Hmr|].
    rewrite fst_nth_enumerate in Hl; [exact Hl|].
    apply Nat.Div0.div_lt_upper_bound. subst n. nia. }
  cbn [log measures].
  split; [now rewrite output_state_app|].
  split; [exact Hmeas|].
  rewrite total_sleep_app, Hsleep, total_sleep_app.
  repeat match goal with
         | |- context [total_sleep (?e :: ?l)] =>
             let H := fresh "H" in
             assert (H : total_sleep (e :: l) == 0) by reflexivity;
             rewrite H; clear H
         end.
  rewrite <- (map_map snd (fun space_val =>
                sum (map (pulse_sleep self space_val) (range 0 (pulse_num self))))).
  rewrite map_snd_combine by now rewrite length_seq.
  ring.
Qed.

End RunSrdpTest.

Section SrdpTheorems.

Import Py Keithley Srdp.

Variable env : bench.
Variable self : SrdpTester.

(** [time.sleep] accepts the dwell and the rest. *)
Hypothesis pulse_width_nonneg : 0 <= pulse_width self.
Hypothesis off_time_nonneg : 0 <= off_time self.

Lemma sum_constant (l : list Z) (f : Z -> Q) (c : Q) :
  (forall p, In p l -> f p == c) ->
  sum (map f l) == inject_Z (Z.of_nat (length l)) * c.
Proof.
  induction l as [|p l IH]; intros H.
  - cbn. ring.
  - cbn [map sum length]. rewrite inject_Z_of_nat_S, IH, (H p (or_introl eq_refl)).
    + ring.
    + intros q Hq. apply H. now right.
Qed.

(** The seconds slept for one space value: every pulse dwells twice and
    rests once, and every pulse but the last adds a rest and the space. *)
Lemma pulse_sleep_total (space_val : Q) :
  (1 <= pulse_num self)%Z ->
  sum (map (pulse_sleep self space_val) (range 0 (pulse_num self)))
  == inject_Z (pulse_num self) * (2 * pulse_width self + off_time self)
     + (inject_Z (pulse_num self) - 1) * (off_time self + space_val).
Proof.
  intros Hp. unfold range.
  replace (Z.to_nat (pulse_num self - 0)) with (S (Z.to_nat (pulse_num self - 1))) by lia.
  rewrite seq_S, !map_app, sum_app. cbn [map sum Nat.add].
  rewrite (sum_constant _ _ (2 * pulse_width self + off_time self
                             + (off_time self + space_val))).
  - rewrite length_map, length_seq.
    unfold pulse_sleep.
    destruct (Z.ltb_spec (0 + Z.of_nat (Z.to_nat (pulse_num self - 1)))
                         (pulse_num self - 1)); [lia|].
    rewrite Z2Nat.id by lia.
    replace (pulse_num self - 1)%Z with (pulse_num self + - 1)%Z by lia.
    rewrite inject_Z_plus. change (inject_Z (-1)) with (- (1)). ring.
  - intros p Hin. apply in_map_iff in Hin as (j & <- & Hj). apply in_seq in Hj.
    unfold pulse_sleep.
    destruct (Z.ltb_spec (0 + Z.of_nat j) (pulse_num self - 1)); [reflexivity|lia].
Qed.

(** With non-negative [pulse_width], [off_time] and space values, a
    completed SRDP run returns two rows per pulse, a read row then a
    write row, [pulse_num] pulses per space value.  Row [k] holds the
    current and voltage of the [k]-th measurement, the clock reading of
    its step minus that of the first row, and the label made of its
    1-based space index and pulse index. *)
Theorem run_srdp_test_samples (space_array : list Q) (st : state) :
  let P := Z.to_nat (pulse_num self) in
  let n := (2 * P * length space_array)%nat in
  Forall (fun space_val => 0 <= space_val) space_array ->
  (forall j, (j < n)%nat -> measured env (measures st + j) <> None) ->
  exists data,
    fst (run_srdp_test env self space_array st) = inr data /\
    length data = n /\
    forall k, (k < n)%nat ->
      exists r, nth_error data k = Some r /\
        Time r == now env (S (ticks st) + k) - now env (S (ticks st)) /\
        measured env (measures st + k) = Some (Current r, Voltage r) /\
        Label r = (if Nat.even k
                   then read_label (k / (2 * P)) (Z.of_nat (k mod (2 * P) / 2))
                   else write_label (k / (2 * P)) (Z.of_nat (k mod (2 * P) / 2))).
Proof.
  intros P n Hsp Hm.
  destruct (run_srdp_test_exact env self pulse_width_nonneg off_time_nonneg
              space_array st Hsp Hm)
    as (data & st' & Hrun & Hlen & Hrows & _).
  exists data. rewrite Hrun. auto.
Qed.

(** With non-negative [pulse_width], [off_time] and space values, a
    completed SRDP run with at least one pulse per space value leaves
    the output switched off and has slept, for each space value,
    [pulse_num * (2 * pulse_width + off_time)
     + (pulse_num - 1) * (off_time + space)] seconds: the space delay is
    skipped after the last pulse of each space value. *)
Theorem run_srdp_test_completes (space_array : list Q) (st : state) :
  (1 <= pulse_num self)%Z ->
  Forall (fun space_val => 0 <= space_val) space_array ->
  (forall j, (j < 2 * Z.to_nat (pulse_num self) * length space_array)%nat ->
             measured env (measures st + j) <> None) ->
  let st' := snd (run_srdp_test env self space_array st) in
  output_state (log st') = Some false /\
  measures st'
  = (measures st + 2 * Z.to_nat (pulse_num self) * length space_array)%nat /\
  total_sleep (log st')
  == total_sleep (log st)
     + sum (map (fun space_val =>
                   inject_Z (pulse_num self)
                   * (2 * pulse_width self + off_time self)
                   + (inject_Z (pulse_num self) - 1) * (off_time self + space_val))
                space_array).
Proof.
  intros Hp Hsp Hm.
  destruct (run_srdp_test_exact env self pulse_width_nonneg off_time_nonneg
              space_array st Hsp Hm)
    as (data & st' & Hrun & _ & _ & Hout & Hmeas & Hsleep).
  rewrite Hrun. cbn [snd]. split; [exact Hout|]. split; [exact Hmeas|].
  rewrite Hsleep. apply Qplus_comp; [reflexivity|].
  clear - Hp. induction space_array as [|sp l IH]; cbn [map sum]; [reflexivity|].
  rewrite IH. apply Qplus_comp; [|reflexivity].
  apply pulse_sleep_total. assumption.
Qed.

(** With non-negative [pulse_width], [off_time] and space values, an
    SRDP run whose [j]-th measurement fails raises that failure: no row
    is returned and the output is left switched on. *)
Theorem run_srdp_test_failure_leaves_output_on (space_array : list Q)
    (st : state) (j : nat) :
  Forall (fun space_val => 0 <= space_val) space_array ->
  (j < 2 * Z.to_nat (pulse_num self) * length space_array)%nat ->
  measured env (measures st + j) = None ->
  (forall j', (j' < j)%nat -> measured env (measures st + j') <> None) ->
  exists st',
    run_srdp_test env self space_array st
    = (inl (CommError (measures st + j)), st') /\
    output_state (log st') = Some true.
Proof.
  intros Hsp Hj Hnone Hsome. rewrite run_srdp_test_unfold.
  match goal with
  | |- context [space_loop _ _ ?t ?sp ?d ?st0] =>
      pose proof (space_loop_fails env self t pulse_width_nonneg off_time_nonneg
                    sp d st0 j (Forall_snd_combine _ _ _ Hsp)) as Hloop
  end.
  cbv zeta in Hloop.
  rewrite length_combine, length_seq, Nat.min_id in Hloop.
  destruct (Hloop Hj Hnone Hsome) as (st' & Hrun & Hout).
  { cbn [log]. now rewrite output_state_app. }
  cbn [measures] in Hrun. rewrite Hrun. now exists st'.
Qed.

End SrdpTheorems.

Section SrdpPipeline.

Import Py Keithley Srdp.

Variable env : bench.
Variable self : SrdpTester.

(** [time.sleep] accepts the dwell and the rest. *)
Hypothesis pulse_width_nonneg : 0 <= pulse_width self.
Hypothesis off_time_nonneg : 0 <= off_time self.

Lemma filter_even_positions {X : Type} (f : X -> bool) (d : X) (n : nat) :
  forall l : list X,
  length l = (2 * n)%nat ->
  (forall k, (k < 2 * n)%nat -> f (nth k l d) = Nat.even k) ->
  filter f l = map (fun q => nth (2 * q) l d) (seq 0 n).
Proof.
  induction n as [|n IH]; intros l Hlen Hf.
  - destruct l; [reflexivity|discriminate].
  - destruct l as [|a [|b l]]; try (cbn in Hlen; lia).
    pose proof (Hf 0%nat ltac:(lia)) as Ha. pose proof (Hf 1%nat ltac:(lia)) as Hb.
    cbn [nth Nat.even] in Ha, Hb.
    cbn [filter]. rewrite Ha, Hb. cbn [seq map]. f_equal.
    rewrite <- seq_shift, map_map. rewrite (IH l).
    + apply map_ext. intros q. replace (2 * S q)%nat with (S (S (2 * q))) by lia.
      reflexivity.
    + cbn [length] in Hlen. lia.
    + intros k Hk. specialize (Hf (S (S k)) ltac:(lia)). exact Hf.
Qed.

Lemma isclose_outside (v target : Q) :
  (1 # 100) + rtol * Qabs target < Qabs (v - target) ->
  isclose v target (1 # 100) = false.
Proof.
  intros H. unfold isclose. destruct (Qle_bool _ _) eqn:E; [|reflexivity].
  apply Qle_bool_iff in E. lra.
Qed.

(** With non-negative [pulse_width], [off_time] and space values,
    processing a completed SRDP run of at least one pulse whose read
    steps are measured within 0.01 V of [V_read] and whose write steps
    are measured outside the tolerance gives one conductance value per
    pulse: the current of that pulse's read measurement divided by
    [V_read]. *)
Theorem run_srdp_test_then_process (space_array : list Q) (st : state) :
  let pulses := (Z.to_nat (pulse_num self) * length space_array)%nat in
  (0 < pulses)%nat ->
  ~ V_read self == 0 ->
  Forall (fun space_val => 0 <= space_val) space_array ->
  (forall j, (j < 2 * Z.to_nat (pulse_num self) * length space_array)%nat ->
             measured env (measures st + j) <> None) ->
  (forall k i v, (k < 2 * pulses)%nat ->
     measured env (measures st + k) = Some (i, v) ->
     if Nat.even k then Qabs (v - V_read self) <= 1 # 100
     else (1 # 100) + rtol * Qabs (V_read self) < Qabs (v - V_read self)) ->
  exists data times volts currents conductance,
    fst (run_srdp_test env self space_array st) = inr data /\
    process_measurement_data self data
    = inr (times, volts, currents, conductance) /\
    length conductance = pulses /\
    forall q, (q < pulses)%nat ->
      exists i v, measured env (measures st + 2 * q) = Some (i, v) /\
                  nth_error conductance q = Some (i / V_read self).
Proof.
  intros pulses Hpos HV Hsp Hm Hlevels.
  destruct (run_srdp_test_exact env self pulse_width_nonneg off_time_nonneg
              space_array st Hsp Hm)
    as (data & st' & Hrun & Hlen & Hrows & _).
  assert (Hlen' : length data = (2 * pulses)%nat) by (subst pulses; lia).
  set (d := {| Time := 0; Voltage := 0; Current := 0; Label := "" |}).
  assert (Hrow : forall k, (k < 2 * pulses)%nat ->
            measured env (measures st + k)
            = Some (Current (nth k data d), Voltage (nth k data d))).
  { intros k Hk. destruct (Hrows k ltac:(subst pulses; lia)) as (r & Hr & _ & Hmr & _).
    now rewrite (nth_error_nth _ _ d Hr). }
  assert (Hmask : forall k, (k < 2 * pulses)%nat ->
            read_mask self (nth k data d) = Nat.even k).
  { intros k Hk. specialize (Hlevels k _ _ Hk (Hrow k Hk)). unfold read_mask.
    destruct (Nat.even k).
    - now apply isclose_within.
    - now apply isclose_outside. }
  pose proof (filter_even_positions (read_mask self) d pulses data Hlen' Hmask) as Hfilter.
  assert (Hne : data <> []) by (intros ->; cbn [length] in Hlen'; lia).
  exists data. do 4 eexists. rewrite Hrun. split; [reflexivity|].
  unfold process_measurement_data. rewrite (srdp_DataFrame_nonempty data Hne).
  rewrite column_truediv_nonzero by assumption. rewrite Hfilter.
  split; [reflexivity|].
  split; [now rewrite !length_map, length_seq|].
  intros q Hq. exists (Current (nth (2 * q) data d)), (Voltage (nth (2 * q) data d)).
  split; [apply Hrow; lia|].
  rewrite !nth_error_map, nth_error_seq0 by assumption. reflexivity.
Qed.

End SrdpPipeline.

Lemma srdp_init_pulse_width_nonneg : 0 <= Srdp.pulse_width Srdp.init.
Proof. vm_compute. discriminate. Qed.

Lemma srdp_init_off_time_nonneg : 0 <= Srdp.off_time Srdp.init.
Proof. vm_compute. discriminate. Qed.

Lemma spaces_2_5_nonneg : Forall (fun space_val => 0 <= space_val) [2; 5].
Proof. repeat constructor; vm_compute; discriminate. Qed.

Lemma run_srdp_test_samples_witness :
  exists data,
    fst (Srdp.run_srdp_test Bench.bench_healthy Srdp.init [2; 5]
           Keithley.power_on) = inr data /\
    length data = 40%nat /\
    forall k, (k < 40)%nat ->
      exists r, nth_error data k = Some r /\
        Srdp.Time r == Keithley.now Bench.bench_healthy (1 + k)
                       - Keithley.now Bench.bench_healthy 1 /\
        Keithley.measured Bench.bench_healthy (0 + k)
        = Some (Srdp.Current r, Srdp.Voltage r) /\
        Srdp.Label r
        = (if Nat.even k
           then Srdp.read_label (k / 20) (Z.of_nat (k mod 20 / 2))
           else Srdp.write_label (k / 20) (Z.of_nat (k mod 20 / 2))).
Proof.
  exact (run_srdp_test_samples Bench.bench_healthy Srdp.init
           srdp_init_pulse_width_nonneg srdp_init_off_time_nonneg
           [2; 5] Keithley.power_on spaces_2_5_nonneg
           (bench_healthy_answers 40 0)).
Defined.

Lemma run_srdp_test_completes_witness :
  let st' := snd (Srdp.run_srdp_test Bench.bench_healthy Srdp.init [2; 5]
                    Keithley.power_on) in
  Keithley.output_state (Keithley.log st') = Some false /\
  Keithley.measures st' = 40%nat /\
  Keithley.total_sleep (Keithley.log st')
  == 0 + Py.sum (map (fun space_val =>
                        inject_Z 10 * (2 * (2 # 10) + (1 # 10000))
                        + (inject_Z 10 - 1) * ((1 # 10000) + space_val))
                     [2; 5]).
Proof.
  refine (run_srdp_test_completes Bench.bench_healthy Srdp.init
            srdp_init_pulse_width_nonneg srdp_init_off_time_nonneg
            [2; 5] Keithley.power_on _ spaces_2_5_nonneg
            (bench_healthy_answers 40 0)).
  vm_compute. discriminate.
Defined.

Lemma run_srdp_test_failure_leaves_output_on_witness :
  exists st',
    Srdp.run_srdp_test (Bench.bench_failing_after 7) Srdp.init [2; 5]
      Keithley.power_on
    = (inl (Py.CommError 7), st') /\
    Keithley.output_state (Keithley.log st') = Some true.
Proof.
  refine (run_srdp_test_failure_leaves_output_on
            (Bench.bench_failing_after 7) Srdp.init
            srdp_init_pulse_width_nonneg srdp_init_off_time_nonneg
            [2; 5] Keithley.power_on 7 spaces_2_5_nonneg _ _ _).
  - cbn. lia.
  - reflexivity.
  - intros j' Hj'. apply (bench_failing_after_answers 7 0). lia.
Defined.

Lemma bench_healthy_levels (k : nat) (i v : Q) :
  Keithley.measured Bench.bench_healthy (0 + k) = Some (i, v) ->
  if Nat.even k then Qabs (v - (1 # 10)) <= 1 # 100
  else (1 # 100) + Py.rtol * Qabs (1 # 10) < Qabs (v - (1 # 10)).
Proof.
  unfold Bench.bench_healthy. cbn [Keithley.measured Nat.add].
  intros [= _ <-]. destruct (Nat.even k); vm_compute; [discriminate|reflexivity].
Qed.

Lemma run_srdp_test_then_process_witness :
  exists data times volts currents conductance,
    fst (Srdp.run_srdp_test Bench.bench_healthy Srdp.init [2; 5]
           Keithley.power_on) = inr data /\
    Srdp.process_measurement_data Srdp.init data
    = inr (times, volts, currents, conductance) /\
    length conductance = 20%nat /\
    forall q, (q < 20)%nat ->
      exists i v, Keithley.measured Bench.bench_healthy (0 + 2 * q) = Some (i, v) /\
                  nth_error conductance q = Some (i / (1 # 10)).
Proof.
  refine (run_srdp_test_then_process Bench.bench_healthy Srdp.init
            srdp_init_pulse_width_nonneg srdp_init_off_time_nonneg
            [2; 5] Keithley.power_on _ _ spaces_2_5_nonneg
            (bench_healthy_answers 40 0) _).
  - vm_compute. lia.
  - intros H. discriminate H.
  - intros k i v _. apply bench_healthy_levels.
Defined.

(** * The LTM run *)

Section LtmPulseLoop.

Import Py Keithley Srdp.

Variable env : bench.
Variable self : SrdpTester.
Variable ltm_pulse_count : Z.
Variable start_time : Q.
Variable idx : nat.
Variable space_val : Q.

(** [time.sleep] accepts the three durations. *)
Hypothesis pulse_width_nonneg : 0 <= pulse_width self.
Hypothesis off_time_nonneg : 0 <= off_time self.
Hypothesis space_val_nonneg : 0 <= space_val.

(** One turn of the LTM pulse loop, by the fate of its measurement. *)
Lemma ltm_pulse_loop_cons (p_idx : Z) (p_indices : list Z) (data : list row)
    (st : state) :
  ltm_pulse_loop env self ltm_pulse_count start_time idx space_val
    (p_idx :: p_indices) data st =
  match measured env (measures st) with
  | None =>
      (inl (CommError (measures st)),
       {| log := log st ++ [set_level_v (V_write self); sleep (pulse_width self);
                            measure_iv];
          measures := S (measures st); ticks := ticks st |})
  | Some iv_write =>
      ltm_pulse_loop env self ltm_pulse_count start_time idx space_val p_indices
        (data ++ [{| Time := now env (ticks st) - start_time;
                     Voltage := snd iv_write; Current := fst iv_write;
                     Label := ltm_label idx p_idx |}])
        {| log := log st ++ [set_level_v (V_write self);
                             sleep (pulse_width self); measure_iv;
                             set_output false; sleep (off_time self);
                             set_output true]
                         ++ ltm_gap_events ltm_pulse_count space_val p_idx;
           measures := S (measures st); ticks := S (ticks st) |}
  end.
Proof.
  assert (Hp : Qle_bool 0 (pulse_width self) = true) by now apply Qle_bool_iff.
  assert (Ho : Qle_bool 0 (off_time self) = true) by now apply Qle_bool_iff.
  assert (Hs : Qle_bool 0 space_val = true) by now apply Qle_bool_iff.
  cbn [ltm_pulse_loop].
  unfold bind, time_sleep, emit, do_measure_iv, time_time, ltm_gap_events.
  cbn [log measures ticks]. rewrite ?Hp, ?Ho, ?Hs. cbn [log measures ticks].
  destruct (measured env (measures st)) as [iv_write|]; cbn [log measures ticks];
    [|rewrite <- ?app_assoc; reflexivity].
  destruct (p_idx <? ltm_pulse_count - 1)%Z; unfold ret; cbn [log measures ticks];
    rewrite <- ?app_assoc; cbn [app]; rewrite ?app_nil_r; reflexivity.
Qed.

Lemma total_sleep_ltm_pulse (p_idx : Z) :
  total_sleep ([set_level_v (V_write self); sleep (pulse_width self); measure_iv;
                set_output false; sleep (off_time self); set_output true]
               ++ ltm_gap_events ltm_pulse_count space_val p_idx)
  == ltm_pulse_sleep self ltm_pulse_count space_val p_idx.
Proof.
  unfold ltm_gap_events, ltm_pulse_sleep, total_sleep.
  destruct (p_idx <? ltm_pulse_count - 1)%Z; cbn; ring.
Qed.

Lemma output_state_ltm_pulse (p_idx : Z) (l : list event) :
  output_state (l ++ [set_level_v (V_write self); sleep (pulse_width self);
                      measure_iv; set_output false; sleep (off_time self);
                      set_output true]
                  ++ ltm_gap_events ltm_pulse_count space_val p_idx)
  = Some true.
Proof.
  rewrite output_state_app. unfold ltm_gap_events.
  now destruct (p_idx <? ltm_pulse_count - 1)%Z.
Qed.

Lemma ltm_pulse_loop_ok (p_indices : list Z) :
  forall (data : list row) (st : state),
  (forall j, (j < length p_indices)%nat ->
             measured env (measures st + j) <> None) ->
  exists rows st',
    ltm_pulse_loop env self ltm_pulse_count start_time idx space_val
      p_indices data st
    = (inr (data ++ rows), st') /\
    length rows = length p_indices /\
    (forall k, (k < length p_indices)%nat ->
       exists r, nth_error rows k = Some r /\
         Time r = now env (ticks st + k) - start_time /\
         measured env (measures st + k) = Some (Current r, Voltage r) /\
         Label r = ltm_label idx (nth k p_indices 0%Z)) /\
    measures st' = (measures st + length p_indices)%nat /\
    ticks st' = (ticks st + length p_indices)%nat /\
    (output_state (log st) = Some true -> output_state (log st') = Some true) /\
    total_sleep (log st')
    == total_sleep (log st)
       + sum (map (ltm_pulse_sleep self ltm_pulse_count space_val) p_indices).
Proof.
  induction p_indices as [|p ps IH]; intros data st Hm.
  - exists [], st. cbn [ltm_pulse_loop length map sum]. unfold ret.
    rewrite app_nil_r, !Nat.add_0_r.
    repeat split; auto; try ring. intros k Hk. lia.
  - rewrite ltm_pulse_loop_cons.
    pose proof (Hm 0%nat ltac:(cbn; lia)) as H0. rewrite Nat.add_0_r in H0.
    destruct (measured env (measures st)) as [iv|] eqn:E1; [|congruence].
    match goal with
    | |- context [ltm_pulse_loop _ _ _ _ _ _ _ (data ++ [?r1]) ?s] =>
        destruct (IH (data ++ [r1]) s)
          as (rows & st' & Hrun & Hlen & Hrows & Hmeas & Hticks & Hout & Hsleep);
        [|exists (r1 :: rows), st']
    end.
    { intros j Hj. cbn [measures].
      replace (S (measures st) + j)%nat with (measures st + S j)%nat by lia.
      apply Hm. cbn [length]. lia. }
    cbn [log measures ticks] in Hrun, Hrows, Hmeas, Hticks, Hout, Hsleep.
    rewrite Hrun, <- !app_assoc. cbn [app length].
    split; [reflexivity|]. split; [lia|].
    split.
    { intros [|k] Hk.
      - eexists. split; [reflexivity|]. cbn [Time Current Voltage Label nth].
        rewrite !Nat.add_0_r. split; [reflexivity|]. split; [now destruct iv|].
        reflexivity.
      - destruct (Hrows k ltac:(lia)) as (r & Hr & Ht & Hmr & Hl).
        exists r. cbn [nth_error nth]. split; [exact Hr|].
        replace (ticks st + S k)%nat with (S (ticks st) + k)%nat by lia.
        replace (measures st + S k)%nat with (S (measures st) + k)%nat by lia.
        auto. }
    split; [lia|]. split; [lia|].
    split.
    { intros _. apply Hout. apply output_state_ltm_pulse. }
    rewrite Hsleep. cbn [map sum].
    rewrite total_sleep_app, total_sleep_ltm_pulse. ring.
Qed.

Lemma ltm_pulse_loop_fails (p_indices : list Z) :
  forall (data : list row) (st : state) (j : nat),
  (j < length p_indices)%nat ->
  measured env (measures st + j) = None ->
  (forall j', (j' < j)%nat -> measured env (measures st + j') <> None) ->
  output_state (log st) = Some true ->
  exists st',
    ltm_pulse_loop env self ltm_pulse_count start_time idx space_val
      p_indices data st
    = (inl (CommError (measures st + j)), st') /\
    output_state (log st') = Some true.
Proof.
  induction p_indices as [|p ps IH]; intros data st j Hj Hnone Hsome Hon.
  - cbn in Hj. lia.
  - rewrite ltm_pulse_loop_cons. destruct j as [|j].
    + rewrite Nat.add_0_r in *. rewrite Hnone.
      eexists. split; [reflexivity|]. cbn [log].
      now rewrite output_state_app.
    + pose proof (Hsome 0%nat ltac:(lia)) as H0.
      rewrite Nat.add_0_r in H0.
      destruct (measured env (measures st)) as [iv|]; [|congruence].
      match goal with
      | |- context [ltm_pulse_loop _ _ _ _ _ _ _ (data ++ [?r1]) ?s] =>
          destruct (IH (data ++ [r1]) s j) as (st' & Hrun & Hout)
      end.
      * cbn [length] in Hj. lia.
      * cbn [measures].
        replace (S (measures st) + j)%nat with (measures st + S j)%nat by lia.
        exact Hnone.
      * intros j' Hj'. cbn [measures].
        replace (S (measures st) + j')%nat with (measures st + S j')%nat by lia.
        apply Hsome. lia.
      * cbn [log]. apply output_state_ltm_pulse.
      * cbn [measures] in Hrun. exists st'. split; [|exact Hout].
        rewrite Hrun.
        replace (S (measures st) + j)%nat with (measures st + S j)%nat by lia.
        reflexivity.
Qed.

End LtmPulseLoop.

Section LtmSpaceLoop.

Import Py Keithley Srdp.

Variable env : bench.
Variable self : SrdpTester.
Variable ltm_pulse_count : Z.
Variable start_time : Q.

(** [time.sleep] accepts the dwell and the rest. *)
Hypothesis pulse_width_nonneg : 0 <= pulse_width self.
Hypothesis off_time_nonneg : 0 <= off_time self.

(** Pulses per space value. *)
Let P : nat := Z.to_nat ltm_pulse_count.

Lemma ltm_space_loop_cons (i : nat) (space_val : Q) (spaces : list (nat * Q))
    (data : list row) (st : state) :
  ltm_space_loop env self ltm_pulse_count start_time ((i, space_val) :: spaces)
    data st =
  match ltm_pulse_loop env self ltm_pulse_count start_time i space_val
          (range 0 ltm_pulse_count) data
          {| log := log st ++ [print (ltm_space space_val ltm_pulse_count)];
             measures := measures st; ticks := ticks st |} with
  | (inl e, st') => (inl e, st')
  | (inr data', st') =>
      ltm_space_loop env self ltm_pulse_count start_time spaces data' st'
  end.
Proof. cbn [ltm_space_loop]. unfold bind, emit. reflexivity. Qed.

Lemma ltm_space_loop_ok (spaces : list (nat * Q)) :
  forall (data : list row) (st : state),
  Forall (fun s => 0 <= snd s) spaces ->
  (forall j, (j < P * length spaces)%nat ->
             measured env (measures st + j) <> None) ->
  exists rows st',
    ltm_space_loop env self ltm_pulse_count start_time spaces data st
    = (inr (data ++ rows), st') /\
    length rows = (P * length spaces)%nat /\
    (forall k, (k < P * length spaces)%nat ->
       exists r, nth_error rows k = Some r /\
         Time r = now env (ticks st + k) - start_time /\
         measured env (measures st + k) = Some (Current r, Voltage r) /\
         Label r = ltm_label (fst (nth (k / P) spaces (0%nat, 0)))
                             (Z.of_nat (k mod P))) /\
    measures st' = (measures st + P * length spaces)%nat /\
    ticks st' = (ticks st + P * length spaces)%nat /\
    (output_state (log st) = Some true -> output_state (log st') = Some true) /\
    total_sleep (log st')
    == total_sleep (log st)
       + sum (map (fun s => sum (map (ltm_pulse_sleep self ltm_pulse_count (snd s))
                                     (range 0 ltm_pulse_count))) spaces).
Proof.
  induction spaces as [|[i space_val] spaces IH]; intros data st Hsp Hm.
  - exists [], st. cbn [ltm_space_loop length map sum]. unfold ret.
    rewrite app_nil_r, Nat.mul_0_r, !Nat.add_0_r.
    repeat split; auto; try ring. intros k Hk. lia.
  - rewrite ltm_space_loop_cons.
    apply Forall_cons_iff in Hsp as [Hs0 Hsp]. cbn [snd] in Hs0.
    match goal with
    | |- context [ltm_pulse_loop _ _ _ _ _ _ ?ps ?d ?s] =>
        destruct (ltm_pulse_loop_ok env self ltm_pulse_count start_time i
                    space_val pulse_width_nonneg off_time_nonneg Hs0 ps d s)
          as (rows1 & st1 & Hrun1 & Hlen1 & Hrows1 & Hmeas1 & Hticks1 & Hout1 & Hsleep1)
    end.
    { intros j Hj. rewrite length_range0 in Hj. fold P in Hj. cbn [measures].
      apply Hm. cbn [length]. nia. }
    rewrite length_range0 in Hlen1, Hrows1, Hmeas1, Hticks1.
    fold P in Hlen1, Hrows1, Hmeas1, Hticks1.
    cbn [log measures ticks] in Hrows1, Hmeas1, Hticks1, Hout1, Hsleep1.
    rewrite Hrun1.
    destruct (IH (data ++ rows1) st1 Hsp)
      as (rows2 & st2 & Hrun2 & Hlen2 & Hrows2 & Hmeas2 & Hticks2 & Hout2 & Hsleep2).
    { intros j Hj. rewrite Hmeas1.
      replace (measures st + P + j)%nat with (measures st + (P + j))%nat by lia.
      apply Hm. cbn [length]. nia. }
    exists (rows1 ++ rows2), st2. rewrite Hrun2, <- app_assoc.
    split; [reflexivity|].
    split; [rewrite length_app, Hlen1, Hlen2; cbn [length]; nia|].
    split.
    { intros k Hk. destruct (Nat.lt_ge_cases k P) as [Hlt|Hge].
      - destruct (Hrows1 k Hlt) as (r & Hr & Ht & Hmr & Hl).
        exists r. split; [rewrite nth_error_app1 by lia; exact Hr|].
        split; [exact Ht|]. split; [exact Hmr|].
        rewrite Nat.div_small, Nat.mod_small by lia. cbn [nth fst].
        rewrite nth_range0 in Hl by (fold P; lia).
        exact Hl.
      - assert (HP : (0 < P)%nat) by (cbn [length] in Hk; nia).
        set (k' := (k - P)%nat).
        assert (Hk' : k = (P + k')%nat) by (subst k'; lia).
        destruct (Hrows2 k') as (r & Hr & Ht & Hmr & Hl).
        { cbn [length] in Hk. nia. }
        exists r. split.
        { rewrite nth_error_app2 by lia. rewrite Hlen1. exact Hr. }
        rewrite Hticks1 in Ht. rewrite Hmeas1 in Hmr.
        replace (ticks st + P + k')%nat with (ticks st + k)%nat in Ht by lia.
        replace (measures st + P + k')%nat with (measures st + k)%nat in Hmr by lia.
        split; [exact Ht|]. split; [exact Hmr|].
        assert (Hdiv : (k / P = S (k' / P))%nat).
        { rewrite Hk'. replace (P + k')%nat with (1 * P + k')%nat by lia.
          rewrite Nat.div_add_l by lia. reflexivity. }
        assert (Hmod : (k mod P = k' mod P)%nat).
        { rewrite Hk'. replace (P + k')%nat with (k' + 1 * P)%nat by lia.
          apply Nat.Div0.mod_add. }
        rewrite Hdiv, Hmod. cbn [nth]. exact Hl. }
    split; [rewrite Hmeas2, Hmeas1; cbn [length]; nia|].
    split; [rewrite Hticks2, Hticks1; cbn [length]; nia|].
    split.
    { intros Hon. apply Hout2, Hout1. now rewrite output_state_app. }
    rewrite Hsleep2, Hsleep1, total_sleep_app. cbn [map sum snd].
    assert (Hp : total_sleep [print (ltm_space space_val ltm_pulse_count)] == 0)
      by reflexivity.
    rewrite Hp. ring.
Qed.

Lemma ltm_space_loop_fails (spaces : list (nat * Q)) :
  forall (data : list row) (st : state) (j : nat),
  Forall (fun s => 0 <= snd s) spaces ->
  (j < P * length spaces)%nat ->
  measured env (measures st + j) = None ->
  (forall j', (j' < j)%nat -> measured env (measures st + j') <> None) ->
  output_state (log st) = Some true ->
  exists st',
    ltm_space_loop env self ltm_pulse_count start_time spaces data st
    = (inl (CommError (measures st + j)), st') /\
    output_state (log st') = Some true.
Proof.
  induction spaces as [|[i space_val] spaces IH];
    intros data st j Hsp Hj Hnone Hsome Hon.
  - cbn in Hj. lia.
  - rewrite ltm_space_loop_cons.
    apply Forall_cons_iff in Hsp as [Hs0 Hsp]. cbn [snd] in Hs0.
    destruct (Nat.lt_ge_cases j P) as [Hlt|Hge].
    + match goal with
      | |- context [ltm_pulse_loop _ _ _ _ _ _ ?ps ?d ?s] =>
          destruct (ltm_pulse_loop_fails env self ltm_pulse_count start_time i
                      space_val pulse_width_nonneg off_time_nonneg Hs0 ps d s j)
            as (st' & Hrun & Hout)
      end.
      * rewrite length_range0. exact Hlt.
      * exact Hnone.
      * exact Hsome.
      * cbn [log]. now rewrite output_state_app.
      * cbn [measures] in Hrun. rewrite Hrun. now exists st'.
    + match goal with
      | |- context [ltm_pulse_loop _ _ _ _ _ _ ?ps ?d ?s] =>
          destruct (ltm_pulse_loop_ok env self ltm_pulse_count start_time i
                      space_val pulse_width_nonneg off_time_nonneg Hs0 ps d s)
            as (rows1 & st1 & Hrun1 & _ & _ & Hmeas1 & _ & Hout1 & _)
      end.
      { intros j' Hj'. rewrite length_range0 in Hj'. fold P in Hj'.
        cbn [measures]. apply Hsome. lia. }
      rewrite length_range0 in Hmeas1. fold P in Hmeas1.
      cbn [log measures] in Hmeas1, Hout1. rewrite Hrun1.
      destruct (IH (data ++ rows1) st1 (j - P)%nat Hsp) as (st' & Hrun & Hout).
      * cbn [length] in Hj. nia.
      * rewrite Hmeas1.
        replace (measures st + P + (j - P))%nat with (measures st + j)%nat by lia.
        exact Hnone.
      * intros j' Hj'. rewrite Hmeas1.
        replace (measures st + P + j')%nat with (measures st + (P + j'))%nat by lia.
        apply Hsome. lia.
      * apply Hout1. now rewrite output_state_app.
      * exists st'. split; [|exact Hout]. rewrite Hrun, Hmeas1.
        replace (measures st + P + (j - P))%nat with (measures st + j)%nat by lia.
        reflexivity.
Qed.

End LtmSpaceLoop.

Section RunLtmTest.

Import Py Keithley Srdp.

Variable env : bench.
Variable self : SrdpTester.
Variable ltm_pulse_count : Z.

(** [time.sleep] accepts the dwell and the rest. *)
Hypothesis pulse_width_nonneg : 0 <= pulse_width self.
Hypothesis off_time_nonneg : 0 <= off_time self.

Lemma run_ltm_test_unfold (space_values : list Q) (st : state) :
  run_ltm_test env self ltm_pulse_count space_values st =
  match ltm_space_loop env self ltm_pulse_count (now env (ticks st))
          (combine (seq 0 (length space_values)) space_values) []
          {| log := log st
                    ++ [reset_device; default_setup; set_source_function "voltage";
                        set_level_i 0; set_limit_i (1 # 10000000);
                        set_nplc (nplc self); set_output true];
             measures := measures st; ticks := S (ticks st) |} with
  | (inl e, st') => (inl e, st')
  | (inr data, st') =>
      (inr (rebase data),
       {| log := log st' ++ [set_output false];
          measures := measures st'; ticks := ticks st' |})
  end.
Proof.
  unfold run_ltm_test, _reset_and_setup_keithley, bind, emit, time_time, ret.
  cbn [log measures ticks]. rewrite <- !app_assoc. cbn [app].
  match goal with
  | |- context [ltm_space_loop ?e ?s ?c ?t ?sp ?d ?st0] =>
      destruct (ltm_space_loop e s c t sp d st0) as [[err|data] st']
  end; reflexivity.
Qed.

(** An LTM run whose measurements all succeed, in full. *)
Lemma run_ltm_test_exact (space_values : list Q) (st : state) :
  let P := Z.to_nat ltm_pulse_count in
  let n := (P * length space_values)%nat in
  Forall (fun space_val => 0 <= space_val) space_values ->
  (forall j, (j < n)%nat -> measured env (measures st + j) <> None) ->
  exists data st',
    run_ltm_test env self ltm_pulse_count space_values st = (inr data, st') /\
    length data = n /\
    (forall k, (k < n)%nat ->
       exists r, nth_error data k = Some r /\
         Time r == now env (S (ticks st) + k) - now env (S (ticks st)) /\
         measured env (measures st + k) = Some (Current r, Voltage r) /\
         Label r = ltm_label (k / P) (Z.of_nat (k mod P))) /\
    output_state (log st') = Some false /\
    measures st' = (measures st + n)%nat /\
    total_sleep (log st')
    == total_sleep (log st)
       + sum (map (fun space_val =>
                     sum (map (ltm_pulse_sleep self ltm_pulse_count space_val)
                              (range 0 ltm_pulse_count))) space_values).
Proof.
  intros P n Hsp Hm. rewrite run_ltm_test_unfold.
  match goal with
  | |- context [ltm_space_loop _ _ _ ?t ?sp ?d ?st0] =>
      pose proof (ltm_space_loop_ok env self ltm_pulse_count t
                    pulse_width_nonneg off_time_nonneg
                    sp d st0 (Forall_snd_combine _ _ _ Hsp)) as Hloop
  end.
  cbv zeta in Hloop. fold P in Hloop.
  rewrite length_combine, length_seq, Nat.min_id in Hloop. fold n in Hloop.
  destruct Hloop
    as (rows & st1 & Hrun & Hlen & Hrows & Hmeas & _ & _ & Hsleep).
  { intros j Hj. cbn [measures]. now apply Hm. }
  cbn [log measures ticks app] in Hrun, Hrows, Hmeas, Hsleep. rewrite Hrun.
  eexists. eexists. split; [reflexivity|].
  split; [now rewrite length_rebase_rows|].
  split.
  { intros k Hk.
    destruct (Hrows k Hk) as (r & Hr & Ht & Hmr & Hl).
    destruct (Hrows 0%nat ltac:(lia)) as (r0 & Hr0 & Ht0 & _).
    eexists. split; [apply (nth_error_rebase_rows rows k r0 r Hr0 Hr)|].
    cbn [Time Voltage Current Label]. rewrite Ht, Ht0, Nat.add_0_r.
    split; [ring|]. split; [exact Hmr|].
    rewrite fst_nth_enumerate in Hl; [exact Hl|].
    apply Nat.Div0.div_lt_upper_bound. subst n. nia. }
  cbn [log measures].
  split; [now rewrite output_state_app|].
  split; [exact Hmeas|].
  rewrite total_sleep_app, Hsleep, total_sleep_app.
  repeat match goal with
         | |- context [total_sleep (?e :: ?l)] =>
             let H := fresh "H" in
             assert (H : total_sleep (e :: l) == 0) by reflexivity;
             rewrite H; clear H
         end.
  rewrite <- (map_map snd (fun space_val =>
                sum (map (ltm_pulse_sleep self ltm_pulse_count space_val)
                         (range 0 ltm_pulse_count)))).
  rewrite map_snd_combine by now rewrite length_seq.
  ring.
Qed.

(** The seconds slept for one space value of an LTM run: every pulse
    dwells once and rests once, and every pulse but the last waits for
    the space. *)
Lemma ltm_pulse_sleep_total (space_val : Q) :
  (1 <= ltm_pulse_count)%Z ->
  sum (map (ltm_pulse_sleep self ltm_pulse_count space_val)
           (range 0 ltm_pulse_count))
  == inject_Z ltm_pulse_count * (pulse_width self + off_time self)
     + (inject_Z ltm_pulse_count - 1) * space_val.
Proof.
  intros Hp. unfold range.
  replace (Z.to_nat (ltm_pulse_count - 0))
    with (S (Z.to_nat (ltm_pulse_count - 1))) by lia.
  rewrite seq_S, !map_app, sum_app. cbn [map sum Nat.add].
  rewrite (sum_constant _ _ (pulse_width self + off_time self + space_val)).
  - rewrite length_map, length_seq.
    unfold ltm_pulse_sleep.
    destruct (Z.ltb_spec (0 + Z.of_nat (Z.to_nat (ltm_pulse_count - 1)))
                         (ltm_pulse_count - 1)); [lia|].
    rewrite Z2Nat.id by lia.
    replace (ltm_pulse_count - 1)%Z with (ltm_pulse_count + - 1)%Z by lia.
    rewrite inject_Z_plus. change (inject_Z (-1)) with (- (1)). ring.
  - intros p Hin. apply in_map_iff in Hin as (j & <- & Hj). apply in_seq in Hj.
    unfold ltm_pulse_sleep.
    destruct (Z.ltb_spec (0 + Z.of_nat j) (ltm_pulse_count - 1)); [reflexivity|lia].
Qed.

(** With non-negative [pulse_width], [off_time] and space values, a
    completed LTM run returns one row per pulse, [ltm_pulse_count]
    pulses per space value.  Row [k] holds the current and voltage of
    the [k]-th measurement, the clock reading of its step minus that of
    the first row, and the label made of its 1-based space index and
    pulse index. *)
Theorem run_ltm_test_samples (space_values : list Q) (st : state) :
  let P := Z.to_nat ltm_pulse_count in
  let n := (P * length space_values)%nat in
  Forall (fun space_val => 0 <= space_val) space_values ->
  (forall j, (j < n)%nat -> measured env (measures st + j) <> None) ->
  exists data,
    fst (run_ltm_test env self ltm_pulse_count space_values st) = inr data /\
    length data = n /\
    forall k, (k < n)%nat ->
      exists r, nth_error data k = Some r /\
        Time r == now env (S (ticks st) + k) - now env (S (ticks st)) /\
        measured env (measures st + k) = Some (Current r, Voltage r) /\
        Label r = ltm_label (k / P) (Z.of_nat (k mod P)).
Proof.
  intros P n Hsp Hm.
  destruct (run_ltm_test_exact space_values st Hsp Hm)
    as (data & st' & Hrun & Hlen & Hrows & _).
  exists data. rewrite Hrun. auto.
Qed.

(** With non-negative [pulse_width], [off_time] and space values, a
    completed LTM run with at least one pulse per space value leaves
    the output switched off and has slept, for each space value,
    [ltm_pulse_count * (pulse_width + off_time)
     + (ltm_pulse_count - 1) * space] seconds: the output is cycled after
    every pulse, the space delay is skipped after the last one. *)
Theorem run_ltm_test_completes (space_values : list Q) (st : state) :
  (1 <= ltm_pulse_count)%Z ->
  Forall (fun space_val => 0 <= space_val) space_values ->
  (forall j, (j < Z.to_nat ltm_pulse_count * length space_values)%nat ->
             measured env (measures st + j) <> None) ->
  let st' := snd (run_ltm_test env self ltm_pulse_count space_values st) in
  output_state (log st') = Some false /\
  measures st'
  = (measures st + Z.to_nat ltm_pulse_count * length space_values)%nat /\
  total_sleep (log st')
  == total_sleep (log st)
     + sum (map (fun space_val =>
                   inject_Z ltm_pulse_count * (pulse_width self + off_time self)
                   + (inject_Z ltm_pulse_count - 1) * space_val)
                space_values).
Proof.
  intros Hp Hsp Hm.
  destruct (run_ltm_test_exact space_values st Hsp Hm)
    as (data & st' & Hrun & _ & _ & Hout & Hmeas & Hsleep).
  rewrite Hrun. cbn [snd]. split; [exact Hout|]. split; [exact Hmeas|].
  rewrite Hsleep. apply Qplus_comp; [reflexivity|].
  clear - Hp. induction space_values as [|sp l IH]; cbn [map sum]; [reflexivity|].
  rewrite IH. apply Qplus_comp; [|reflexivity].
  apply ltm_pulse_sleep_total. assumption.
Qed.

(** With non-negative [pulse_width], [off_time] and space values, an
    LTM run whose [j]-th measurement fails raises that failure: no row
    is returned and the output is left switched on. *)
Theorem run_ltm_test_failure_leaves_output_on (space_values : list Q)
    (st : state) (j : nat) :
  Forall (fun space_val => 0 <= space_val) space_values ->
  (j < Z.to_nat ltm_pulse_count * length space_values)%nat ->
  measured env (measures st + j) = None ->
  (forall j', (j' < j)%nat -> measured env (measures st + j') <> None) ->
  exists st',
    run_ltm_test env self ltm_pulse_count space_values st
    = (inl (CommError (measures st + j)), st') /\
    output_state (log st') = Some true.
Proof.
  intros Hsp Hj Hnone Hsome. rewrite run_ltm_test_unfold.
  match goal with
  | |- context [ltm_space_loop _ _ _ ?t ?sp ?d ?st0] =>
      pose proof (ltm_space_loop_fails env self ltm_pulse_count t
                    pulse_width_nonneg off_time_nonneg
                    sp d st0 j (Forall_snd_combine _ _ _ Hsp)) as Hloop
  end.
  cbv zeta in Hloop.
  rewrite length_combine, length_seq, Nat.min_id in Hloop.
  destruct (Hloop Hj Hnone Hsome) as (st' & Hrun & Hout).
  { cbn [log]. now rewrite output_state_app. }
  cbn [measures] in Hrun. rewrite Hrun. now exists st'.
Qed.

(** [run_test] hands the LTM data to [process_measurement_data], which
    keeps the rows measured near [V_read].  An LTM run only applies
    [V_write]: when the durations slept are non-negative, the run has at
    least one pulse and every voltage it
    reads back lies outside the tolerance around [V_read], the four
    processed arrays are empty, whatever [V_read] is. *)
Theorem run_ltm_test_then_process (space_values : list Q) (st : state) :
  let n := (Z.to_nat ltm_pulse_count * length space_values)%nat in
  (0 < n)%nat ->
  Forall (fun space_val => 0 <= space_val) space_values ->
  (forall j, (j < n)%nat -> measured env (measures st + j) <> None) ->
  (forall k i v, (k < n)%nat ->
     measured env (measures st + k) = Some (i, v) ->
     (1 # 100) + rtol * Qabs (V_read self) < Qabs (v - V_read self)) ->
  exists data,
    fst (run_ltm_test env self ltm_pulse_count space_values st) = inr data /\
    length data = n /\
    process_measurement_data self data = inr ([], [], [], []).
Proof.
  intros n Hpos Hsp Hm Hlevels.
  destruct (run_ltm_test_exact space_values st Hsp Hm)
    as (data & st' & Hrun & Hlen & Hrows & _).
  assert (Hne : data <> []) by (intros ->; cbn [length] in Hlen; lia).
  exists data. rewrite Hrun. split; [reflexivity|]. split; [exact Hlen|].
  unfold process_measurement_data. rewrite (srdp_DataFrame_nonempty data Hne).
  rewrite filter_none; [reflexivity|].
  intros r Hin. apply In_nth_error in Hin as (k & Hk).
  assert (Hkn : (k < n)%nat).
  { assert (Hkd : (k < length data)%nat) by (apply nth_error_Some; congruence).
    lia. }
  destruct (Hrows k Hkn) as (r' & Hr' & _ & Hmr & _).
  assert (r' = r) by congruence. subst r'.
  unfold read_mask. apply isclose_outside. exact (Hlevels k _ _ Hkn Hmr).
Qed.

End RunLtmTest.

Lemma bench_write_only_answers (n q : nat) :
  forall j, (j < n)%nat ->
    Keithley.measured Bench.bench_write_only (q + j) <> None.
Proof. intros j _. cbn. discriminate. Qed.

Lemma run_ltm_test_samples_witness :
  exists data,
    fst (Srdp.run_ltm_test Bench.bench_write_only Srdp.init 3 [2; 5]
           Keithley.power_on) = inr data /\
    length data = 6%nat /\
    forall k, (k < 6)%nat ->
      exists r, nth_error data k = Some r /\
        Srdp.Time r == Keithley.now Bench.bench_write_only (1 + k)
                       - Keithley.now Bench.bench_write_only 1 /\
        Keithley.measured Bench.bench_write_only (0 + k)
        = Some (Srdp.Current r, Srdp.Voltage r) /\
        Srdp.Label r = Srdp.ltm_label (k / 3) (Z.of_nat (k mod 3)).
Proof.
  exact (run_ltm_test_samples Bench.bench_write_only Srdp.init 3
           srdp_init_pulse_width_nonneg srdp_init_off_time_nonneg
           [2; 5] Keithley.power_on spaces_2_5_nonneg
           (bench_write_only_answers 6 0)).
Defined.

Lemma run_ltm_test_completes_witness :
  let st' := snd (Srdp.run_ltm_test Bench.bench_write_only Srdp.init 3 [2; 5]
                    Keithley.power_on) in
  Keithley.output_state (Keithley.log st') = Some false /\
  Keithley.measures st' = 6%nat /\
  Keithley.total_sleep (Keithley.log st')
  == 0 + Py.sum (map (fun space_val =>
                        inject_Z 3 * ((2 # 10) + (1 # 10000))
                        + (inject_Z 3 - 1) * space_val)
                     [2; 5]).
Proof.
  refine (run_ltm_test_completes Bench.bench_write_only Srdp.init 3
            srdp_init_pulse_width_nonneg srdp_init_off_time_nonneg
            [2; 5] Keithley.power_on _ spaces_2_5_nonneg
            (bench_write_only_answers 6 0)).
  vm_compute. discriminate.
Defined.

Lemma run_ltm_test_failure_leaves_output_on_witness :
  exists st',
    Srdp.run_ltm_test (Bench.bench_failing_after 4) Srdp.init 3 [2; 5]
      Keithley.power_on
    = (inl (Py.CommError 4), st') /\
    Keithley.output_state (Keithley.log st') = Some true.
Proof.
  refine (run_ltm_test_failure_leaves_output_on
            (Bench.bench_failing_after 4) Srdp.init 3
            srdp_init_pulse_width_nonneg srdp_init_off_time_nonneg
            [2; 5] Keithley.power_on 4 spaces_2_5_nonneg _ _ _).
  - cbn. lia.
  - reflexivity.
  - intros j' Hj'. apply (bench_failing_after_answers 4 0). lia.
Defined.

Lemma run_ltm_test_then_process_witness :
  exists data,
    fst (Srdp.run_ltm_test Bench.bench_write_only Srdp.init 3 [2; 5]
           Keithley.power_on) = inr data /\
    length data = 6%nat /\
    Srdp.process_measurement_data Srdp.init data = inr ([], [], [], []).
Proof.
  refine (run_ltm_test_then_process Bench.bench_write_only Srdp.init 3
            srdp_init_pulse_width_nonneg srdp_init_off_time_nonneg
            [2; 5] Keithley.power_on _ spaces_2_5_nonneg
            (bench_write_only_answers 6 0) _); [vm_compute; lia|].
  intros k i v _. unfold Bench.bench_write_only. cbn [Keithley.measured].
  intros [= _ <-]. vm_compute. reflexivity.
Defined.

(** * Durations that [time.sleep] refuses *)

Section NegativeDurations.

Import Py Keithley.

Variable env : bench.

Lemma time_sleep_negative (seconds : Q) (st : state) :
  seconds < 0 -> time_sleep seconds st = (inl sleep_length_error, st).
Proof.
  intros H. unfold time_sleep.
  destruct (Qle_bool 0 seconds) eqn:Hle; [|reflexivity].
  apply Qle_bool_iff in Hle. lra.
Qed.

(** A negative pulse width ends a sine run at its first point:
    [time.sleep] raises [ValueError] before any measurement, no row is
    returned and the output stays on. *)
Lemma run_sine_test_negative_pw (self : Sin.SinTester) (v : Q)
    (voltage_points : list Q) (pw off_time : Q) (st : state) :
  pw < 0 ->
  exists st',
    Sin.run_sine_test env self (v :: voltage_points) pw off_time st
    = (inl sleep_length_error, st') /\
    measures st' = measures st /\
    output_state (log st') = Some true.
Proof.
  intros Hpw. rewrite run_sine_test_unfold.
  cbn [Sin.sine_loop]. unfold bind at 1. unfold emit at 1. cbn [log measures ticks].
  unfold bind at 1. rewrite time_sleep_negative by exact Hpw.
  eexists. split; [reflexivity|]. cbn [log measures].
  split; [reflexivity|]. rewrite !output_state_app. reflexivity.
Qed.

(** A negative pulse width ends an SRDP run at its first pulse. *)
Lemma run_srdp_test_negative_pulse_width (self : Srdp.SrdpTester)
    (space_val : Q) (space_array : list Q) (st : state) :
  Srdp.pulse_width self < 0 -> (1 <= Srdp.pulse_num self)%Z ->
  exists st',
    Srdp.run_srdp_test env self (space_val :: space_array) st
    = (inl sleep_length_error, st') /\
    measures st' = measures st /\
    output_state (log st') = Some true.
Proof.
  intros Hpw Hn. rewrite run_srdp_test_unfold.
  cbn [length seq combine Srdp.space_loop].
  unfold range. replace (Z.to_nat (Srdp.pulse_num self - 0))
    with (S (Z.to_nat (Srdp.pulse_num self - 1))) by lia.
  cbn [seq map Srdp.pulse_loop].
  unfold bind at 1. unfold emit at 1. cbn [log measures ticks].
  unfold bind at 1. unfold bind at 1. unfold emit at 1. cbn [log measures ticks].
  unfold bind at 1. rewrite time_sleep_negative by exact Hpw.
  eexists. split; [reflexivity|]. cbn [log measures].
  split; [reflexivity|]. rewrite !output_state_app. reflexivity.
Qed.

(** A negative pulse width ends an LTM run at its first pulse. *)
Lemma run_ltm_test_negative_pulse_width (self : Srdp.SrdpTester)
    (ltm_pulse_count : Z) (space_val : Q) (space_values : list Q) (st : state) :
  Srdp.pulse_width self < 0 -> (1 <= ltm_pulse_count)%Z ->
  exists st',
    Srdp.run_ltm_test env self ltm_pulse_count (space_val :: space_values) st
    = (inl sleep_length_error, st') /\
    measures st' = measures st /\
    output_state (log st') = Some true.
Proof.
  intros Hpw Hn. rewrite run_ltm_test_unfold.
  cbn [length seq combine Srdp.ltm_space_loop].
  unfold range. replace (Z.to_nat (ltm_pulse_count - 0))
    with (S (Z.to_nat (ltm_pulse_count - 1))) by lia.
  cbn [seq map Srdp.ltm_pulse_loop].
  unfold bind at 1. unfold emit at 1. cbn [log measures ticks].
  unfold bind at 1. unfold bind at 1. unfold emit at 1. cbn [log measures ticks].
  unfold bind at 1. rewrite time_sleep_negative by exact Hpw.
  eexists. split; [reflexivity|]. cbn [log measures].
  split; [reflexivity|]. rewrite !output_state_app. reflexivity.
Qed.

End NegativeDurations.

(** * Interactive set-up of the STDP tester *)

Section SetupParameters.

Import Py Stdp.

(** When the operator chooses to modify the defaults, each prompted
    parameter takes the entered value only if no earlier entry and not
    its own was invalid; the first invalid entry leaves its parameter and
    all later ones at their previous values, keeps the earlier changes,
    and prints the warning.  The block sizes, the rest, hold and stop
    levels and the channel flag are never changed. *)
Theorem setup_test_parameters_partial_update (self : StdpTester) (ans : answers) :
  modify ans = true ->
  let self' := fst (setup_test_parameters self ans) in
  let bad1 := is_garbage (in_off_time ans) in
  let bad2 := bad1 || is_garbage (in_nplc ans) in
  let bad3 := bad2 || is_garbage (in_V_read ans) in
  let bad4 := bad3 || is_garbage (in_V_spike ans) in
  let bad5 := bad4 || is_garbage (in_V_active ans) in
  let bad6 := bad5 || is_garbage (in_active_num ans) in
  let bad7 := bad6 || is_garbage (in_time_num ans) in
  off_time self' = entered (in_off_time ans) (off_time self) /\
  nplc self' = (if bad1 then nplc self else entered (in_nplc ans) (nplc self)) /\
  V_read self' = (if bad2 then V_read self else entered (in_V_read ans) (V_read self)) /\
  V_spike self' = (if bad3 then V_spike self else entered (in_V_spike ans) (V_spike self)) /\
  V_active self' = (if bad4 then V_active self else entered (in_V_active ans) (V_active self)) /\
  active_num self' = (if bad5 then active_num self else entered (in_active_num ans) (active_num self)) /\
  time_num self' = (if bad6 then time_num self else entered (in_time_num ans) (time_num self)) /\
  snd (setup_test_parameters self ans) = (if bad7 then [invalid_input_warning] else []) /\
  (read_num self', spike_num self', stop_num self', V_rest self', V_time self',
   V_stop self', pre_before_post self')
  = (read_num self, spike_num self, stop_num self, V_rest self, V_time self,
     V_stop self, pre_before_post self).
Proof.
  intros Hmod. destruct self. destruct ans as [m e1 e2 e3 e4 e5 e6 e7].
  cbn [modify] in Hmod. subst m.
  destruct e1; [ | | lazy; repeat split].
  all: destruct e2; [ | | lazy; repeat split].
  all: destruct e3; [ | | lazy; repeat split].
  all: destruct e4; [ | | lazy; repeat split].
  all: destruct e5; [ | | lazy; repeat split].
  all: destruct e6; [ | | lazy; repeat split].
  all: destruct e7; lazy; repeat split.
Qed.

End SetupParameters.

Lemma setup_test_parameters_partial_update_witness :
  let ans := {| Stdp.modify := true;
                Stdp.in_off_time := Stdp.typed (1 # 100);
                Stdp.in_nplc := Stdp.blank;
                Stdp.in_V_read := Stdp.garbage;
                Stdp.in_V_spike := Stdp.typed (7 # 10);
                Stdp.in_V_active := Stdp.blank;
                Stdp.in_active_num := Stdp.typed 3%Z;
                Stdp.in_time_num := Stdp.blank |} in
  Stdp.off_time (fst (Stdp.setup_test_parameters Stdp.init ans)) = 1 # 100 /\
  Stdp.V_spike (fst (Stdp.setup_test_parameters Stdp.init ans)) = 1 # 2 /\
  Stdp.active_num (fst (Stdp.setup_test_parameters Stdp.init ans)) = 1%Z /\
  snd (Stdp.setup_test_parameters Stdp.init ans) = [Stdp.invalid_input_warning].
Proof.
  intros ans.
  pose proof (setup_test_parameters_partial_update Stdp.init ans eq_refl) as H.
  cbv zeta in H.
  destruct H as (H1 & _ & _ & H4 & _ & H6 & _ & H8 & _).
  exact (conj H1 (conj H4 (conj H6 H8))).
Defined.

(** * The file name of the delta table *)

Section DeltaCsvPath.

Import Py Stdp.

Variable path_exists : string -> bool.
Variable join : string -> string -> string.
Variables folder prefix : string.

Lemma free_csv_path_from (fuel : nat) :
  forall (n k : nat),
  (forall j, (n <= j < k)%nat -> path_exists (csv_candidate join folder prefix j) = true) ->
  path_exists (csv_candidate join folder prefix k) = false ->
  (n <= k)%nat -> (k - n < fuel)%nat ->
  free_csv_path path_exists join folder (prefix ++ "_delta")
    (csv_candidate join folder prefix n) (Z.of_nat n + 1) fuel
  = Some (csv_candidate join folder prefix k).
Proof.
  induction fuel as [|fuel IH]; intros n k Hbusy Hfree Hnk Hfuel; [lia|].
  cbn [free_csv_path].
  destruct (Nat.eq_dec n k) as [->|Hne].
  - now rewrite Hfree.
  - rewrite (Hbusy n) by lia.
    replace (Z.of_nat n + 1)%Z with (Z.of_nat (S n)) by lia.
    change (join folder ((prefix ++ "_delta") ++ "_" ++ str (Z.of_nat (S n)) ++ ".csv"))
      with (csv_candidate join folder prefix (S n)).
    replace (Z.of_nat (S n) + 1)%Z with (Z.of_nat (S n) + 1)%Z by reflexivity.
    apply IH; try assumption; try lia.
    intros j Hj. apply Hbusy. lia.
Qed.

Lemma free_csv_path_is_free (present : string -> bool) (base_prefix : string)
    (fuel : nat) :
  forall (csv_path : string) (idx : Z) (chosen : string),
  free_csv_path present join folder base_prefix csv_path idx fuel = Some chosen ->
  present chosen = false.
Proof.
  induction fuel as [|fuel IH]; intros csv_path idx chosen H; [discriminate|].
  cbn [free_csv_path] in H.
  destruct (present csv_path) eqn:E.
  - exact (IH _ _ _ H).
  - now injection H as <-.
Qed.

(** The table is written to the first name, in the order
    [prefix_delta.csv], [prefix_delta_1.csv], [prefix_delta_2.csv], ...,
    that does not exist yet. *)
Theorem delta_csv_path_first_free (k fuel : nat) :
  (forall j, (j < k)%nat -> path_exists (csv_candidate join folder prefix j) = true) ->
  path_exists (csv_candidate join folder prefix k) = false ->
  (k < fuel)%nat ->
  delta_csv_path path_exists join folder prefix fuel
  = Some (csv_candidate join folder prefix k).
Proof.
  intros Hbusy Hfree Hfuel. unfold delta_csv_path.
  apply (free_csv_path_from fuel 0 k); try assumption; try lia.
  intros j Hj. apply Hbusy. lia.
Qed.

(** Saving never overwrites: the chosen path does not exist before the
    write, every path that existed still exists afterwards, and a second
    save to the same folder and prefix is written to a different path. *)
Theorem delta_csv_path_never_overwrites (fuel fuel' : nat) (first second : string) :
  delta_csv_path path_exists join folder prefix fuel = Some first ->
  delta_csv_path (after_write path_exists first) join folder prefix fuel'
  = Some second ->
  path_exists first = false /\
  (forall p, path_exists p = true -> after_write path_exists first p = true) /\
  second <> first.
Proof.
  intros H1 H2. unfold delta_csv_path in H1, H2.
  split; [exact (free_csv_path_is_free _ _ _ _ _ _ H1)|].
  split.
  - intros p Hp. unfold after_write. rewrite Hp. apply orb_true_r.
  - intros ->.
    pose proof (free_csv_path_is_free _ _ _ _ _ _ H2) as Hfree.
    unfold after_write in Hfree. now rewrite String.eqb_refl in Hfree.
Qed.

End DeltaCsvPath.

Lemma delta_csv_path_first_free_witness :
  Stdp.delta_csv_path Bench.one_table Bench.slash_join "run" "stdp_pre" 3
  = Some "run/stdp_pre_delta_1.csv"%string.
Proof.
  refine (delta_csv_path_first_free Bench.one_table Bench.slash_join
            "run" "stdp_pre" 1 3 _ _ _).
  - intros [|j] Hj; [reflexivity | lia].
  - reflexivity.
  - lia.
Defined.

Lemma delta_csv_path_never_overwrites_witness :
  Bench.one_table "run/stdp_pre_delta_1.csv" = false /\
  (forall p, Bench.one_table p = true ->
             Stdp.after_write Bench.one_table "run/stdp_pre_delta_1.csv" p = true) /\
  "run/stdp_pre_delta_2.csv"%string <> "run/stdp_pre_delta_1.csv"%string.
Proof.
  refine (delta_csv_path_never_overwrites Bench.one_table Bench.slash_join
            "run" "stdp_pre" 3 3 _ _ _ _); reflexivity.
Defined.

(** * A generated run, from the generator to the deltas *)

Section RunsOfValues.

Import Py.

Context {X : Type}.
Variable g : X -> Q.
Variable p : Q -> bool.

Lemma skipn_slice (l : list X) (a k : nat) :
  skipn a l = slice l a (a + k) ++ skipn (a + k) l.
Proof.
  unfold slice. replace (a + k - a)%nat with k by lia.
  rewrite (Nat.add_comm a k), <- skipn_skipn.
  symmetry. apply firstn_skipn.
Qed.

Lemma map_skipn_rest (data : list X) (s : nat) (l rest : list Q) :
  map g (skipn s data) = l ++ rest ->
  map g (skipn (s + length l) data) = rest.
Proof.
  intros H.
  rewrite (Nat.add_comm s), <- skipn_skipn, <- skipn_map, H.
  now rewrite skipn_app, skipn_all, Nat.sub_diag.
Qed.

(** A run of [k] equal values at position [s]. *)
Lemma run_slice (data : list X) (s k : nat) (v : Q) (rest : list Q) :
  map g (skipn s data) = repeat v k ++ rest ->
  map g (slice data s (s + k)) = repeat v k /\
  length (slice data s (s + k)) = k.
Proof.
  intros H. unfold slice. replace (s + k - s)%nat with k by lia.
  assert (Hm : map g (firstn k (skipn s data)) = repeat v k).
  { rewrite <- firstn_map, H, firstn_app, repeat_length, Nat.sub_diag.
    cbn [firstn]. rewrite app_nil_r.
    apply firstn_all2. now rewrite repeat_length. }
  split; [exact Hm|].
  rewrite <- (length_map g), Hm. apply repeat_length.
Qed.

Lemma filter_run (data : list X) (s k : nat) (v : Q) (rest : list Q) :
  map g (skipn s data) = repeat v k ++ rest ->
  filter (fun x => p (g x)) (skipn s data)
  = (if p v then slice data s (s + k) else [])
    ++ filter (fun x => p (g x)) (skipn (s + k) data).
Proof.
  intros H. destruct (run_slice data s k v rest H) as [Hm _].
  rewrite (skipn_slice data s k) at 1. rewrite filter_app. f_equal.
  assert (Hv : forall x, In x (slice data s (s + k)) -> g x = v).
  { intros x Hx. apply (in_map g) in Hx. rewrite Hm in Hx.
    now apply repeat_spec in Hx. }
  destruct (p v) eqn:E; [apply filter_all | apply filter_none];
    intros x Hx; now rewrite (Hv x Hx).
Qed.

Lemma run_rest (data : list X) (s k : nat) (v : Q) (rest : list Q) :
  map g (skipn s data) = repeat v k ++ rest ->
  map g (skipn (s + k) data) = rest.
Proof.
  intros H. rewrite <- (repeat_length v k) at 1.
  now apply map_skipn_rest.
Qed.

Lemma list_sum_cons (a : nat) (l : list nat) :
  list_sum (a :: l) = (a + list_sum l)%nat.
Proof. reflexivity. Qed.

Variable data : list X.
Variable step : Q -> list Q.
Variable len : Q -> nat.
Variable plan : nat -> Q -> list (list X).
Variable K : nat.

Hypothesis step_len : forall t, length (step t) = len t.

(** What one iteration contributes to the filtered rows. *)
Hypothesis step_plan : forall s t rest,
  map g (skipn s data) = step t ++ rest ->
  filter (fun x => p (g x)) (skipn s data)
  = concat (plan s t) ++ filter (fun x => p (g x)) (skipn (s + len t) data) /\
  Forall (fun b => length b = K) (plan s t).

Lemma filter_iterations (ts : list Q) :
  forall (base : nat) (rest : list Q),
  map g (skipn base data) = concat (map step ts) ++ rest ->
  let blocks :=
    concat (map (fun m => plan (base + list_sum (map len (firstn m ts)))
                               (nth m ts 0))
                (seq 0 (length ts))) in
  filter (fun x => p (g x)) (skipn base data)
  = concat blocks
    ++ filter (fun x => p (g x)) (skipn (base + list_sum (map len ts)) data) /\
  Forall (fun b => length b = K) blocks.
Proof.
  induction ts as [|t ts IH]; intros base rest H blocks; subst blocks.
  - cbn. rewrite Nat.add_0_r. split; [reflexivity|constructor].
  - cbn [map concat] in H. rewrite <- app_assoc in H.
    destruct (step_plan base t _ H) as [Hf Hk].
    pose proof (map_skipn_rest data base _ _ H) as H'. rewrite step_len in H'.
    destruct (IH (base + len t)%nat rest H') as [Hf' Hk'].
    cbn [length seq map concat firstn nth]. rewrite list_sum_cons.
    change (list_sum []) with 0%nat.
    rewrite Nat.add_0_r, <- seq_shift, map_map.
    rewrite (map_ext
               (fun m => plan (base + list_sum (map len (firstn (S m) (t :: ts))))
                              (nth (S m) (t :: ts) 0))
               (fun m => plan (base + len t + list_sum (map len (firstn m ts)))
                              (nth m ts 0))).
    2:{ intros m. cbn [firstn map nth].
        now rewrite list_sum_cons, Nat.add_assoc. }
    split.
    + rewrite concat_app, Hf, Hf', <- app_assoc, Nat.add_assoc. reflexivity.
    + apply Forall_app. split; assumption.
Qed.

(** The same for data that holds nothing but the iterations. *)
Lemma filter_whole (ts : list Q) :
  map g data = concat (map step ts) ->
  let blocks :=
    concat (map (fun m => plan (list_sum (map len (firstn m ts))) (nth m ts 0))
                (seq 0 (length ts))) in
  filter (fun x => p (g x)) data = concat blocks /\
  Forall (fun b => length b = K) blocks.
Proof.
  intros H blocks.
  destruct (filter_iterations ts 0 []) as [Hf Hk].
  { cbn [skipn]. now rewrite app_nil_r. }
  cbn [skipn Nat.add] in Hf, Hk. fold blocks in Hf, Hk.
  split; [|exact Hk]. rewrite Hf.
  rewrite skipn_all2; [apply app_nil_r|].
  rewrite <- (length_map g), H, length_concat, map_map.
  rewrite (map_ext _ _ step_len). lia.
Qed.

End RunsOfValues.

Section BlockLists.

Import Py Stdp.

(** The grouping loop on a concatenation of blocks of the block size
    returns those blocks. *)
Lemma groups_concat (blocks : list (list row)) (num : Z) :
  (0 < num)%Z ->
  Forall (fun b => length b = Z.to_nat num) blocks ->
  groups (concat blocks) num = inr blocks.
Proof.
  intros Hnum Hall. rewrite groups_pos by assumption. f_equal.
  set (k := Z.to_nat num) in *.
  assert (Hk : (0 < k)%nat) by (subst k; lia).
  induction Hall as [|b blocks Hb Hall IH].
  - cbn. rewrite Nat.Div0.div_0_l. reflexivity.
  - cbn [concat]. rewrite length_app, Hb.
    replace (k + length (concat blocks))%nat
      with (1 * k + length (concat blocks))%nat by lia.
    rewrite Nat.div_add_l by lia. cbn [Nat.add seq map].
    f_equal.
    + unfold slice. cbn [Nat.mul Nat.add skipn].
      replace (k - 0)%nat with k by lia.
      rewrite firstn_app, <- Hb, Nat.sub_diag, firstn_all. cbn [firstn].
      apply app_nil_r.
    + rewrite <- seq_shift, map_map.
      etransitivity; [|exact IH].
      apply map_ext. intros j. unfold slice.
      replace (S j * k + k - S j * k)%nat with k by lia.
      replace (j * k + k - j * k)%nat with k by lia.
      f_equal.
      replace (S j * k)%nat with (j * k + length b)%nat by lia.
      rewrite <- skipn_skipn. f_equal.
      rewrite skipn_app, skipn_all, Nat.sub_diag. reflexivity.
Qed.

Lemma concat_singletons {Y : Type} (F : nat -> Y) (l : list nat) :
  concat (map (fun m => [F m]) l) = map F l.
Proof. induction l as [|m l IH]; cbn; [reflexivity|]. now rewrite IH. Qed.

Lemma concat_pairs {Y : Type} (F G : nat -> Y) (n : nat) :
  concat (map (fun m => [F m; G m]) (seq 0 n))
  = map (fun k => if Nat.even k then F (k / 2)%nat else G (k / 2)%nat)
        (seq 0 (2 * n)).
Proof.
  induction n as [|n IH]; [reflexivity|].
  rewrite seq_S, map_app, concat_app, IH. cbn [Nat.add map concat app].
  replace (2 * S n)%nat with (S (S (2 * n))) by lia.
  rewrite !seq_S, !map_app. cbn [Nat.add map]. rewrite <- app_assoc. cbn [app].
  assert (E0 : Nat.even (2 * n) = true).
  { rewrite Nat.even_mul. reflexivity. }
  assert (E1 : Nat.even (S (2 * n)) = false).
  { rewrite Nat.even_succ, <- Nat.negb_even, E0. reflexivity. }
  assert (D0 : (2 * n / 2 = n)%nat).
  { rewrite Nat.mul_comm. apply Nat.div_mul. lia. }
  assert (D1 : (S (2 * n) / 2 = n)%nat).
  { replace (S (2 * n)) with (n * 2 + 1)%nat by lia.
    rewrite Nat.div_add_l by lia. cbn. lia. }
  now rewrite E0, E1, D0, D1.
Qed.

(** The first element of a non-empty slice. *)
Lemma slice_first {Y : Type} (l : list Y) (a b : nat) :
  (1 <= length (slice l a b))%nat ->
  exists x rest, nth_error l a = Some x /\ slice l a b = x :: rest.
Proof.
  unfold slice. intros H.
  destruct (skipn a l) as [|x tl] eqn:E.
  - rewrite firstn_nil in H. cbn in H. lia.
  - destruct (b - a)%nat as [|c]; [cbn in H; lia|].
    exists x, (firstn c tl). split; [|reflexivity].
    pose proof (nth_error_skipn a l 0) as Hn. rewrite E, Nat.add_0_r in Hn.
    now rewrite <- Hn.
Qed.

Lemma map_from_nth (g : row -> Q) (data : list row) (l : list Q) :
  length data = length l ->
  (forall j, (j < length l)%nat ->
     exists r, nth_error data j = Some r /\ g r = nth j l 0) ->
  map g data = l.
Proof.
  intros Hlen H. apply (nth_ext _ _ 0 0); [now rewrite length_map|].
  intros j Hj. rewrite length_map in Hj.
  destruct (H j ltac:(lia)) as (r & Hr & Hg).
  rewrite <- Hg. apply nth_error_nth.
  now rewrite nth_error_map, Hr.
Qed.

Lemma isclose_same (v : Q) : isclose v v (1 # 100) = true.
Proof.
  apply isclose_within.
  assert (E : v - v == 0) by ring. rewrite E. discriminate.
Qed.

End BlockLists.

Section StdpProtocolBlocks.

Import Py Stdp.

Variable self : StdpTester.

Hypothesis read_num_pos : (1 <= read_num self)%Z.
Hypothesis spike_num_pos : (1 <= spike_num self)%Z.
Hypothesis active_num_nonneg : (0 <= active_num self)%Z.
Hypothesis levels : levels_distinct self = true.

Let R : nat := Z.to_nat (read_num self).
Let Sp : nat := Z.to_nat (spike_num self).
Let A : nat := Z.to_nat (active_num self).
Let T : nat := Z.to_nat (stop_num self).
Let hold (t : Q) : nat := Z.to_nat (int t).

Lemma steps_of_layout (t : Q) :
  steps_of self t = (R + Sp + (A + Sp) + hold t + A + R + T)%nat.
Proof.
  unfold steps_of. rewrite generate_step_layout. cbn [fst].
  rewrite !length_app, !repeat_length, Z2Nat.inj_add by lia.
  subst R Sp A T hold. cbv beta. lia.
Qed.

Lemma levels_read (v : Q) :
  In v [V_spike self; V_rest self; V_time self; V_active self; V_stop self] ->
  isclose v (V_read self) (1 # 100) = false.
Proof.
  intros Hv. pose proof levels as H. unfold levels_distinct in H.
  apply andb_true_iff in H as [H _]. rewrite forallb_forall in H.
  now apply negb_true_iff, H.
Qed.

Lemma levels_spike (v : Q) :
  In v [V_read self; V_rest self; V_time self; V_active self; V_stop self] ->
  isclose v (V_spike self) (1 # 100) = false.
Proof.
  intros Hv. pose proof levels as H. unfold levels_distinct in H.
  apply andb_true_iff in H as [_ H]. rewrite forallb_forall in H.
  now apply negb_true_iff, H.
Qed.

Variable data : list row.

(** From a run of equal values to the next. *)
Ltac next_run p H F L :=
  match type of H with
  | map ?g (skipn ?s data) = repeat ?v ?k ++ ?rest =>
      pose proof (filter_run g p data s k v rest H) as F;
      pose proof (proj2 (run_slice g data s k v rest H)) as L;
      apply run_rest in H
  end.

(** The read blocks that one iteration starting at step [s] adds. *)
Lemma read_step_plan (s : nat) (t : Q) (rest : list Q) :
  map (col (preV_col self)) (skipn s data)
  = fst (generate_step self ([], []) t) ++ rest ->
  filter (fun r => isclose (col (preV_col self) r) (V_read self) (1 # 100))
         (skipn s data)
  = concat [slice data s (s + R);
            slice data (s + R + Sp + (A + Sp) + hold t + A)
                       (s + R + Sp + (A + Sp) + hold t + A + R)]
    ++ filter (fun r => isclose (col (preV_col self) r) (V_read self) (1 # 100))
         (skipn (s + steps_of self t) data) /\
  Forall (fun b => length b = R)
    [slice data s (s + R);
     slice data (s + R + Sp + (A + Sp) + hold t + A)
                (s + R + Sp + (A + Sp) + hold t + A + R)].
Proof.
  intros H. rewrite generate_step_layout in H. cbn [fst] in H.
  rewrite Z2Nat.inj_add in H by lia. rewrite <- !app_assoc in H.
  fold R Sp A T in H. change (Z.to_nat (int t)) with (hold t) in H.
  set (p := fun v => isclose v (V_read self) (1 # 100)).
  next_run p H F1 L1. next_run p H F2 L2. next_run p H F3 L3.
  next_run p H F4 L4. next_run p H F5 L5. next_run p H F6 L6.
  next_run p H F7 L7.
  subst p. cbv beta in F1, F2, F3, F4, F5, F6, F7.
  rewrite isclose_same in F1, F6.
  rewrite levels_read in F2, F3, F4, F5, F7 by (cbn; tauto).
  split.
  - rewrite F1, F2, F3, F4, F5, F6, F7. cbn [app concat].
    rewrite app_nil_r, <- app_assoc.
    rewrite steps_of_layout. do 2 f_equal. f_equal. f_equal. lia.
  - repeat constructor; assumption.
Qed.

(** The pre spike block that one iteration adds. *)
Lemma spike_pre_step_plan (s : nat) (t : Q) (rest : list Q) :
  map (col (preV_col self)) (skipn s data)
  = fst (generate_step self ([], []) t) ++ rest ->
  filter (fun r => isclose (col (preV_col self) r) (V_spike self) (1 # 100))
         (skipn s data)
  = concat [slice data (s + R) (s + R + Sp)]
    ++ filter (fun r => isclose (col (preV_col self) r) (V_spike self) (1 # 100))
         (skipn (s + steps_of self t) data) /\
  Forall (fun b => length b = Sp) [slice data (s + R) (s + R + Sp)].
Proof.
  intros H. rewrite generate_step_layout in H. cbn [fst] in H.
  rewrite Z2Nat.inj_add in H by lia. rewrite <- !app_assoc in H.
  fold R Sp A T in H. change (Z.to_nat (int t)) with (hold t) in H.
  set (p := fun v => isclose v (V_spike self) (1 # 100)).
  next_run p H F1 L1. next_run p H F2 L2. next_run p H F3 L3.
  next_run p H F4 L4. next_run p H F5 L5. next_run p H F6 L6.
  next_run p H F7 L7.
  subst p. cbv beta in F1, F2, F3, F4, F5, F6, F7.
  rewrite isclose_same in F2.
  rewrite levels_spike in F1, F3, F4, F5, F6, F7 by (cbn; tauto).
  split.
  - rewrite F1, F2, F3, F4, F5, F6, F7. cbn [app concat].
    rewrite app_nil_r.
    rewrite steps_of_layout. do 3 f_equal. lia.
  - repeat constructor; assumption.
Qed.

(** The post spike block that one iteration adds. *)
Lemma spike_post_step_plan (s : nat) (t : Q) (rest : list Q) :
  map (col (postV_col self)) (skipn s data)
  = snd (generate_step self ([], []) t) ++ rest ->
  filter (fun r => isclose (col (postV_col self) r) (V_spike self) (1 # 100))
         (skipn s data)
  = concat [slice data (s + (R + Sp) + A + hold t)
                       (s + (R + Sp) + A + hold t + Sp)]
    ++ filter (fun r => isclose (col (postV_col self) r) (V_spike self) (1 # 100))
         (skipn (s + steps_of self t) data) /\
  Forall (fun b => length b = Sp)
    [slice data (s + (R + Sp) + A + hold t) (s + (R + Sp) + A + hold t + Sp)].
Proof.
  intros H. rewrite generate_step_layout in H. cbn [snd] in H.
  rewrite !Z2Nat.inj_add in H by lia. rewrite <- !app_assoc in H.
  fold R Sp A T in H. change (Z.to_nat (int t)) with (hold t) in H.
  set (p := fun v => isclose v (V_spike self) (1 # 100)).
  next_run p H F1 L1. next_run p H F2 L2. next_run p H F3 L3.
  next_run p H F4 L4. next_run p H F5 L5. next_run p H F6 L6.
  subst p. cbv beta in F1, F2, F3, F4, F5, F6.
  rewrite isclose_same in F4.
  rewrite levels_spike in F1, F2, F3, F5, F6 by (cbn; tauto).
  split.
  - rewrite F1, F2, F3, F4, F5, F6. cbn [app concat].
    rewrite app_nil_r.
    rewrite steps_of_layout. do 3 f_equal. lia.
  - repeat constructor; assumption.
Qed.

Lemma steps_of_post (t : Q) :
  length (snd (generate_step self ([], []) t)) = steps_of self t.
Proof.
  unfold steps_of. symmetry. apply generate_step_same_length; lia.
Qed.

Let N : nat := length (time_num self).
Let start (m : nat) : nat := iteration_start self m.
Let h (m : nat) : nat := hold (nth m (time_num self) 0).

Lemma Forall_map_seq {Y : Type} (P : Y -> Prop) (F : nat -> Y) (n : nat) :
  Forall P (map F (seq 0 n)) -> forall m, (m < n)%nat -> P (F m).
Proof.
  intros H m Hm. rewrite Forall_forall in H. apply H.
  apply in_map. apply in_seq. lia.
Qed.

(** The blocks found in data whose voltage columns are the generated
    sequences: two read blocks per iteration, in stream order. *)
Lemma protocol_read_groups :
  map (col (preV_col self)) data = fst (generate_voltage_sequences self) ->
  let read_start k :=
    (start (k / 2)
     + (if Nat.even k then 0 else R + Sp + (A + Sp) + h (k / 2) + A))%nat in
  read_groups self data
  = inr (map (fun k => slice data (read_start k) (read_start k + R))
             (seq 0 (2 * N))).
Proof.
  intros H read_start.
  rewrite generate_voltage_sequences_concat in H. cbn [fst] in H.
  destruct (filter_whole (col (preV_col self))
              (fun v => isclose v (V_read self) (1 # 100)) data
              (fun t => fst (generate_step self ([], []) t))
              (steps_of self)
              (fun s t => [slice data s (s + R);
                           slice data (s + R + Sp + (A + Sp) + hold t + A)
                                      (s + R + Sp + (A + Sp) + hold t + A + R)])
              R (fun t => eq_refl) read_step_plan (time_num self) H)
    as [Hf Hk].
  cbv beta in Hf, Hk.
  unfold read_groups, masked. rewrite Hf.
  rewrite groups_concat by (subst R; first [lia | exact Hk]).
  f_equal. fold N.
  rewrite (concat_pairs
             (fun m => slice data (start m) (start m + R))
             (fun m => slice data (start m + R + Sp + (A + Sp) + h m + A)
                                  (start m + R + Sp + (A + Sp) + h m + A + R))).
  apply map_ext. intros k. subst read_start. cbv beta. destruct (Nat.even k).
  - now rewrite Nat.add_0_r.
  - f_equal; lia.
Qed.

Lemma protocol_spike_pre_groups :
  map (col (preV_col self)) data = fst (generate_voltage_sequences self) ->
  spike_pre_groups self data
  = inr (map (fun m => slice data (start m + R) (start m + R + Sp)) (seq 0 N)) /\
  forall m, (m < N)%nat ->
    length (slice data (start m + R) (start m + R + Sp)) = Sp.
Proof.
  intros H. rewrite generate_voltage_sequences_concat in H. cbn [fst] in H.
  destruct (filter_whole (col (preV_col self))
              (fun v => isclose v (V_spike self) (1 # 100)) data
              (fun t => fst (generate_step self ([], []) t))
              (steps_of self)
              (fun s t => [slice data (s + R) (s + R + Sp)])
              Sp (fun t => eq_refl) spike_pre_step_plan (time_num self) H)
    as [Hf Hk].
  cbv beta in Hf, Hk. fold N in Hf, Hk.
  rewrite (concat_singletons
             (fun m => slice data (start m + R) (start m + R + Sp))) in Hf, Hk.
  split.
  - unfold spike_pre_groups, masked. rewrite Hf.
    now rewrite groups_concat by (subst Sp; first [lia | exact Hk]).
  - exact (Forall_map_seq _ _ N Hk).
Qed.

Lemma protocol_spike_post_groups :
  map (col (postV_col self)) data = snd (generate_voltage_sequences self) ->
  spike_post_groups self data
  = inr (map (fun m => slice data (start m + R + Sp + A + h m)
                                  (start m + R + Sp + A + h m + Sp))
             (seq 0 N)) /\
  forall m, (m < N)%nat ->
    length (slice data (start m + R + Sp + A + h m)
                       (start m + R + Sp + A + h m + Sp)) = Sp.
Proof.
  intros H. rewrite generate_voltage_sequences_concat in H. cbn [snd] in H.
  destruct (filter_whole (col (postV_col self))
              (fun v => isclose v (V_spike self) (1 # 100)) data
              (fun t => snd (generate_step self ([], []) t))
              (steps_of self)
              (fun s t => [slice data (s + (R + Sp) + A + hold t)
                                      (s + (R + Sp) + A + hold t + Sp)])
              Sp steps_of_post spike_post_step_plan (time_num self) H)
    as [Hf Hk].
  cbv beta in Hf, Hk. fold N in Hf, Hk.
  rewrite (concat_singletons
             (fun m => slice data (start m + (R + Sp) + A + h m)
                                  (start m + (R + Sp) + A + h m + Sp))) in Hf, Hk.
  rewrite (map_ext
             (fun m => slice data (start m + (R + Sp) + A + h m)
                                  (start m + (R + Sp) + A + h m + Sp))
             (fun m => slice data (start m + R + Sp + A + h m)
                                  (start m + R + Sp + A + h m + Sp))) in Hf, Hk
    by (intros m; f_equal; lia).
  split.
  - unfold spike_post_groups, masked. rewrite Hf.
    now rewrite groups_concat by (subst Sp; first [lia | exact Hk]).
  - exact (Forall_map_seq _ _ N Hk).
Qed.

End StdpProtocolBlocks.

Section StdpProtocol.

Import Py Stdp.

Variable env : lab.
Variable self : StdpTester.
Variable st : smu_state.

Hypothesis off_time_nonneg : 0 <= off_time self.
Hypothesis read_num_pos : (1 <= read_num self)%Z.
Hypothesis spike_num_pos : (1 <= spike_num self)%Z.
Hypothesis active_num_nonneg : (0 <= active_num self)%Z.
Hypothesis levels : levels_distinct self = true.

Let pre : list Q := fst (generate_voltage_sequences self).
Let post : list Q := snd (generate_voltage_sequences self).

Hypothesis answers :
  forall j, (j < 2 * length pre)%nat -> reply env (queries st + j) <> None.

Let R : nat := Z.to_nat (read_num self).
Let Sp : nat := Z.to_nat (spike_num self).
Let A : nat := Z.to_nat (active_num self).
Let N : nat := length (time_num self).
Let start (m : nat) : nat := iteration_start self m.
Let h (m : nat) : nat := Z.to_nat (int (nth m (time_num self) 0)).
Let read_start (k : nat) : nat :=
  (start (k / 2)
   + (if Nat.even k then 0 else R + Sp + (A + Sp) + h (k / 2) + A))%nat.

(** The data of a run of the generated sequences. *)
Lemma protocol_data :
  exists data st',
    run_stdp_test env self pre post st = (inr data, st') /\
    map (col (preV_col self)) data = pre /\
    map (col (postV_col self)) data = post /\
    forall j r, nth_error data j = Some r ->
      r_time r == now env (S (ticks st) + j) - now env (S (ticks st)).
Proof.
  assert (Hsame : length pre = length post)
    by (apply generate_voltage_sequences_same_length; lia).
  destruct (run_stdp_test_exact env self off_time_nonneg pre post st)
    as (data & Hrun & Hlen & Hrows).
  { cbv zeta. rewrite <- Hsame, Nat.min_id. exact answers. }
  cbv zeta in Hlen, Hrows. rewrite <- Hsame, Nat.min_id in Hlen, Hrows.
  exists data. eexists. split; [exact Hrun|].
  split; [|split].
  - apply map_from_nth; [exact Hlen|]. intros j Hj.
    destruct (Hrows j Hj) as (r & Hr & _ & HvA & HvB & _).
    exists r. split; [exact Hr|].
    unfold preV_col. destruct (pre_before_post self); cbn [col]; assumption.
  - apply map_from_nth; [lia|]. intros j Hj.
    destruct (Hrows j ltac:(lia)) as (r & Hr & _ & HvA & HvB & _).
    exists r. split; [exact Hr|].
    unfold postV_col. destruct (pre_before_post self); cbn [col]; assumption.
  - intros j r Hr.
    assert (Hj : (j < length pre)%nat).
    { rewrite <- Hlen. apply nth_error_Some. congruence. }
    destruct (Hrows j Hj) as (r' & Hr' & Ht & _).
    assert (r' = r) by congruence. now subst r'.
Qed.

(** On the data of a run of the generated sequences, with a
    non-negative dwell [off_time], block sizes of at least 1, a
    non-negative [active_num] and levels that the masks tell apart, the
    extractor finds the planned blocks and no other: for each timing value the read
    block before the spikes and the read block after them, in stream
    order; one pre spike block; one post spike block. *)
Theorem stdp_protocol_blocks :
  time_num self <> [] ->
  exists data,
    fst (run_stdp_test env self pre post st) = inr data /\
    read_groups self data
    = inr (map (fun k => slice data (read_start k) (read_start k + R))
               (seq 0 (2 * N))) /\
    spike_pre_groups self data
    = inr (map (fun m => slice data (start m + R) (start m + R + Sp))
               (seq 0 N)) /\
    spike_post_groups self data
    = inr (map (fun m => slice data (start m + R + Sp + A + h m)
                                    (start m + R + Sp + A + h m + Sp))
               (seq 0 N)).
Proof.
  intros _.
  destruct protocol_data as (data & st' & Hrun & Hpre & Hpost & _).
  exists data. rewrite Hrun. split; [reflexivity|].
  split; [|split].
  - apply protocol_read_groups; assumption.
  - apply protocol_spike_pre_groups; assumption.
  - apply protocol_spike_post_groups; assumption.
Qed.

(** The stages of the delta computation on such data. *)
Lemma protocol_outcome :
  time_num self <> [] ->
  exists data out,
    fst (run_stdp_test env self pre post st) = inr data /\
    process_measurement_data self data = inr out /\
    printed out = [] /\
    length (delta_t out) = N /\
    length (delta_g out) = N /\
    (forall i, (i < N)%nat ->
       exists r_pre r_post,
         nth_error data (start i + R) = Some r_pre /\
         nth_error data (start i + R + Sp + A + h i) = Some r_post /\
         nth_error (delta_t out) i
         = Some (if pre_before_post self
                 then r_time r_post - r_time r_pre
                 else - (r_time r_post - r_time r_pre))) /\
    (forall i, (i < N)%nat ->
       let I k := mean (map (col (preI_col self))
                            (slice data (read_start k) (read_start k + R))) in
       nth_error (delta_g out) i
       = Some (if Qltb (Qabs (I i)) tiny then NaN
               else Num ((I (i + 1)%nat - I i) / I i))) /\
    forall j r, nth_error data j = Some r ->
      r_time r == now env (S (ticks st) + j) - now env (S (ticks st)).
Proof.
  intros Hne.
  assert (HN : (1 <= N)%nat).
  { subst N. destruct (time_num self); [contradiction|cbn; lia]. }
  destruct protocol_data as (data & st' & Hrun & Hpre & Hpost & Htime).
  assert (Hrg : read_groups self data
                = inr (map (fun k => slice data (read_start k) (read_start k + R))
                           (seq 0 (2 * N))))
    by (apply protocol_read_groups; assumption).
  assert (Hsg : spike_pre_groups self data
                = inr (map (fun m => slice data (start m + R) (start m + R + Sp))
                           (seq 0 N)) /\
                forall m, (m < N)%nat ->
                  length (slice data (start m + R) (start m + R + Sp)) = Sp)
    by (apply protocol_spike_pre_groups; assumption).
  assert (Hpg : spike_post_groups self data
                = inr (map (fun m => slice data (start m + R + Sp + A + h m)
                                                (start m + R + Sp + A + h m + Sp))
                           (seq 0 N)) /\
                forall m, (m < N)%nat ->
                  length (slice data (start m + R + Sp + A + h m)
                                     (start m + R + Sp + A + h m + Sp)) = Sp)
    by (apply protocol_spike_post_groups; assumption).
  destruct Hsg as [Hsg HsL]. destruct Hpg as [Hpg HpL].
  assert (Hdata : data <> []).
  { intros ->. pose proof (HsL 0%nat HN) as H0. unfold slice in H0.
    rewrite skipn_nil, firstn_nil in H0. cbn [length] in H0. subst Sp. lia. }
  exists data. eexists. rewrite Hrun. split; [reflexivity|].
  split; [apply (process_measurement_data_stages self data _ _ _ Hdata Hrg Hsg Hpg)|].
  match goal with
  | |- context [pair_up ?a ?b] =>
      set (dt := a); set (dg := b);
      destruct (pair_up_spec dt dg) as (Ht & Hg & Hlt & Hlg & Hp)
  end.
  assert (Hldt : length dt = N).
  { subst dt. rewrite length_delta_t_list. unfold times_of.
    rewrite !length_map, !length_seq. lia. }
  assert (Hldg : length dg = (2 * N - 1)%nat).
  { subst dg. rewrite length_delta_g_list. unfold currents_of.
    now rewrite !length_map, !length_seq. }
  assert (Hmin : Nat.min (length dg) (length dt) = N) by lia.
  cbv zeta in Ht, Hg, Hlt, Hlg, Hp. rewrite Hmin in Ht, Hg, Hlt, Hlg, Hp.
  split.
  { rewrite Hp. destruct (Nat.eqb_spec N 0); [lia|reflexivity]. }
  split; [exact Hlt|]. split; [exact Hlg|].
  split; [|split; [|exact Htime]].
  - intros i Hi.
    destruct (slice_first data (start i + R) (start i + R + Sp))
      as (r_pre & rest_pre & Hr_pre & Hs_pre).
    { rewrite (HsL i Hi). subst Sp. lia. }
    destruct (slice_first data (start i + R + Sp + A + h i)
                (start i + R + Sp + A + h i + Sp))
      as (r_post & rest_post & Hr_post & Hs_post).
    { rewrite (HpL i Hi). subst Sp. lia. }
    exists r_pre, r_post. split; [exact Hr_pre|]. split; [exact Hr_post|].
    rewrite Ht, nth_error_firstn.
    destruct (Nat.ltb_spec i N); [|lia].
    subst dt. rewrite delta_t_list_nth.
    2:{ unfold times_of. rewrite !length_map, !length_seq. lia. }
    unfold times_of. rewrite !map_map.
    rewrite !(nth_map_in_range _ (seq 0 N) i 0%nat 0) by (rewrite length_seq; lia).
    rewrite seq_nth by lia. cbn [Nat.add].
    rewrite Hs_pre, Hs_post. cbn [map nth col]. reflexivity.
  - intros i Hi I.
    rewrite Hg, nth_error_firstn.
    destruct (Nat.ltb_spec i N); [|lia].
    subst dg. rewrite delta_g_list_nth.
    2:{ unfold currents_of. rewrite !length_map, !length_seq. lia. }
    unfold currents_of. rewrite !map_map.
    rewrite !(nth_map_in_range _ (seq 0 (2 * N)) _ 0%nat 0)
      by (rewrite length_seq; lia).
    rewrite !seq_nth by lia. cbn [Nat.add].
    reflexivity.
Qed.

(** On a run of the generated sequences, under the same conditions,
    the delta computation returns one pair per timing value and prints
    no warning.  The delta-t of
    iteration [i] is the clock reading at the first step of its post
    spike block minus that at the first step of its pre spike block,
    [spike_num + active_num + int(t)] steps earlier; its sign is
    reversed when [pre_before_post] is off. *)
Theorem stdp_protocol_delta_t :
  time_num self <> [] ->
  exists data out,
    fst (run_stdp_test env self pre post st) = inr data /\
    process_measurement_data self data = inr out /\
    printed out = [] /\
    length (delta_t out) = N /\
    length (delta_g out) = N /\
    forall i, (i < N)%nat ->
      exists dt,
        nth_error (delta_t out) i = Some dt /\
        let d := now env (S (ticks st) + (start i + R + Sp + A + h i))
                 - now env (S (ticks st) + (start i + R)) in
        dt == if pre_before_post self then d else - d.
Proof.
  intros Hne.
  destruct (protocol_outcome Hne)
    as (data & out & Hrun & Hout & Hp & Hlt & Hlg & Hdt & _ & Htime).
  exists data, out. repeat (split; [assumption|]).
  intros i Hi. destruct (Hdt i Hi) as (r_pre & r_post & Hr_pre & Hr_post & Hnth).
  eexists. split; [exact Hnth|]. cbv zeta.
  pose proof (Htime _ _ Hr_pre) as Epre. pose proof (Htime _ _ Hr_post) as Epost.
  destruct (pre_before_post self); rewrite Epre, Epost; ring.
Qed.

(** On a run of the generated sequences, under the same conditions,
    the delta-g paired with the delta-t of iteration [i] is computed from the read blocks [i] and
    [i+1] of the stream, where the blocks [2m] and [2m+1] are the reads
    before and after the spikes of iteration [m]: it is
    [(I(i+1) - I(i)) / I(i)] over the block means, or NaN when
    [|I(i)| < 1e-20]. *)
Theorem stdp_protocol_delta_g :
  time_num self <> [] ->
  exists data out,
    fst (run_stdp_test env self pre post st) = inr data /\
    process_measurement_data self data = inr out /\
    length (delta_g out) = N /\
    forall i, (i < N)%nat ->
      let I k := mean (map (col (preI_col self))
                           (slice data (read_start k) (read_start k + R))) in
      nth_error (delta_g out) i
      = Some (if Qltb (Qabs (I i)) tiny then NaN
              else Num ((I (i + 1)%nat - I i) / I i)).
Proof.
  intros Hne.
  destruct (protocol_outcome Hne)
    as (data & out & Hrun & Hout & _ & _ & Hlg & _ & Hdg & _).
  exists data, out. repeat (split; [assumption|]). exact Hdg.
Qed.

End StdpProtocol.

Lemma stdp_protocol_blocks_witness :
  exists data,
    fst (Stdp.run_stdp_test Bench.lab_healthy Stdp.init
           (fst (Stdp.generate_voltage_sequences Stdp.init))
           (snd (Stdp.generate_voltage_sequences Stdp.init))
           Stdp.power_on) = inr data /\
    Stdp.read_groups Stdp.init data
    = inr (map (fun k =>
                  Py.slice data
                    (Stdp.iteration_start Stdp.init (k / 2)
                     + (if Nat.even k then 0
                        else 5 + 5 + (1 + 5)
                             + Z.to_nat (Py.int (nth (k / 2) [0; 5; 20] 0)) + 1))
                    (Stdp.iteration_start Stdp.init (k / 2)
                     + (if Nat.even k then 0
                        else 5 + 5 + (1 + 5)
                             + Z.to_nat (Py.int (nth (k / 2) [0; 5; 20] 0)) + 1)
                     + 5))
               (seq 0 6)) /\
    Stdp.spike_pre_groups Stdp.init data
    = inr (map (fun m => Py.slice data (Stdp.iteration_start Stdp.init m + 5)
                                       (Stdp.iteration_start Stdp.init m + 5 + 5))
               (seq 0 3)) /\
    Stdp.spike_post_groups Stdp.init data
    = inr (map (fun m =>
                  Py.slice data
                    (Stdp.iteration_start Stdp.init m + 5 + 5 + 1
                     + Z.to_nat (Py.int (nth m [0; 5; 20] 0)))
                    (Stdp.iteration_start Stdp.init m + 5 + 5 + 1
                     + Z.to_nat (Py.int (nth m [0; 5; 20] 0)) + 5))
               (seq 0 3)).
Proof.
  refine (stdp_protocol_blocks Bench.lab_healthy Stdp.init Stdp.power_on
            init_off_time_nonneg _ _ _ _ (lab_healthy_answers _ 0) _).
  - cbn. lia.
  - cbn. lia.
  - cbn. lia.
  - reflexivity.
  - discriminate.
Defined.

Lemma stdp_protocol_delta_t_witness :
  exists data out,
    fst (Stdp.run_stdp_test Bench.lab_healthy Stdp.init
           (fst (Stdp.generate_voltage_sequences Stdp.init))
           (snd (Stdp.generate_voltage_sequences Stdp.init))
           Stdp.power_on) = inr data /\
    Stdp.process_measurement_data Stdp.init data = inr out /\
    Stdp.printed out = [] /\
    length (Stdp.delta_t out) = 3%nat /\
    length (Stdp.delta_g out) = 3%nat /\
    forall i, (i < 3)%nat ->
      exists dt,
        nth_error (Stdp.delta_t out) i = Some dt /\
        dt == Stdp.now Bench.lab_healthy
                (1 + (Stdp.iteration_start Stdp.init i + 5 + 5 + 1
                      + Z.to_nat (Py.int (nth i [0; 5; 20] 0))))
              - Stdp.now Bench.lab_healthy
                  (1 + (Stdp.iteration_start Stdp.init i + 5)).
Proof.
  refine (stdp_protocol_delta_t Bench.lab_healthy Stdp.init Stdp.power_on
            init_off_time_nonneg _ _ _ _ (lab_healthy_answers _ 0) _).
  - cbn. lia.
  - cbn. lia.
  - cbn. lia.
  - reflexivity.
  - discriminate.
Defined.

Lemma stdp_protocol_delta_g_witness :
  exists data out,
    fst (Stdp.run_stdp_test Bench.lab_healthy Stdp.init
           (fst (Stdp.generate_voltage_sequences Stdp.init))
           (snd (Stdp.generate_voltage_sequences Stdp.init))
           Stdp.power_on) = inr data /\
    Stdp.process_measurement_data Stdp.init data = inr out /\
    length (Stdp.delta_g out) = 3%nat /\
    forall i, (i < 3)%nat ->
      let read_start k :=
        (Stdp.iteration_start Stdp.init (k / 2)
         + (if Nat.even k then 0
            else 5 + 5 + (1 + 5)
                 + Z.to_nat (Py.int (nth (k / 2) [0; 5; 20]%Q 0%Q)) + 1))%nat in
      let I k := Py.mean (map Stdp.r_iA
                            (Py.slice data (read_start k) (read_start k + 5))) in
      nth_error (Stdp.delta_g out) i
      = Some (if Py.Qltb (Qabs (I i)) Stdp.tiny then Stdp.NaN
              else Stdp.Num ((I (i + 1)%nat - I i) / I i)).
Proof.
  refine (stdp_protocol_delta_g Bench.lab_healthy Stdp.init Stdp.power_on
            init_off_time_nonneg _ _ _ _ (lab_healthy_answers _ 0) _).
  - cbn. lia.
  - cbn. lia.
  - cbn. lia.
  - reflexivity.
  - discriminate.
Defined.
